(** * vscode-regex: the literal scanner, the match evaluator and the
      per-view highlight synchronizer

    Shallow embedding of [src/extension.ts] and [src/RegexMatchDecorator.ts].

    The extension delegates all pattern matching to the host's [RegExp]
    objects.  Module [Engine] is the model of that host engine: a
    backtracking matcher in the continuation style of the ECMAScript
    specification (Matcher / Continuation / RepeatMatcher) together with
    [RegExpBuiltinExec], the stateful [exec] with its [lastIndex] cursor.
    Texts are [string]s, one [ascii] per UTF-16 code unit below 256, on
    which the [u] flag changes nothing but the grammar of patterns; lines
    end at line feeds.  The grammar of patterns itself stays a parameter
    ([parsePattern]); the flags argument of [new RegExp] is modelled.

    Not modelled: the commands, the code lens provider, the status bar
    item and the scratch file of [extension.ts]. *)

From Stdlib Require Import String Ascii List Arith Lia Bool.
From stdpp Require Import gmap strings.

Import ListNotations.

(** ** The host pattern engine *)

Module Engine.

(** The flags of a [RegExp] object that the engine reads. *)
Record Flags : Type := mkFlags {
  global : bool;
  ignoreCase : bool;
  multiline : bool;
  dotAll : bool;
  unicode : bool;
  sticky : bool
}.

Definition noFlags : Flags := mkFlags false false false false false false.

Definition set_global (f : Flags) : Flags :=
  mkFlags true (ignoreCase f) (multiline f) (dotAll f) (unicode f) (sticky f).

Definition set_multiline (f : Flags) : Flags :=
  mkFlags (global f) (ignoreCase f) true (dotAll f) (unicode f) (sticky f).

(** Parsed patterns.  [Cls invert A] is a single character or a class
    ([invert] for [[^...]]); [Group n r] is the [n]-th capturing group;
    [(?:...)] needs no node of its own. *)
Inductive re : Type :=
| Empty
| Cls (invert : bool) (A : ascii -> bool)
| Dot
| Seq (r1 r2 : re)
| Alt (r1 r2 : re)
| Star (r : re)
| Group (n : nat) (r : re)
| Bol
| Eol.

Definition Chr (c : ascii) : re := Cls false (Ascii.eqb c).
Definition Plus (r : re) : re := Seq r (Star r).

Fixpoint one_of (s : string) (c : ascii) : bool :=
  match s with
  | EmptyString => false
  | String a s' => Ascii.eqb a c || one_of s' c
  end.

(** [\s] restricted to code units below 256: TAB, LF, VT, FF, CR, SP, NBSP. *)
Definition white_space (c : ascii) : bool :=
  let n := nat_of_ascii c in
  ((9 <=? n) && (n <=? 13)) || (n =? 32) || (n =? 160).

Definition line_terminator (c : ascii) : bool :=
  let n := nat_of_ascii c in (n =? 10) || (n =? 13).

(** Capturing groups that a pattern contains: reset at each iteration of
    an enclosing quantifier. *)
Fixpoint parens (r : re) : list nat :=
  match r with
  | Seq r1 r2 | Alt r1 r2 => parens r1 ++ parens r2
  | Star r1 => parens r1
  | Group n r1 => n :: parens r1
  | _ => []
  end.

Definition Captures : Type := list (nat * (nat * nat)).

Fixpoint capture (n : nat) (cs : Captures) : option (nat * nat) :=
  match cs with
  | [] => None
  | (k, span) :: cs' => if k =? n then Some span else capture n cs'
  end.

Definition reset (ps : list nat) (cs : Captures) : Captures :=
  List.filter (fun e => negb (existsb (Nat.eqb (fst e)) ps)) cs.

Record MatchState : Type := mkState {
  endIndex : nat;
  captures : Captures
}.

Definition Continuation : Type := MatchState -> option MatchState.
Definition Matcher : Type := MatchState -> Continuation -> option MatchState.

(** RepeatMatcher of the specification for a greedy [*]: an iteration that
    consumes nothing fails, so at most [String.length input] iterations
    nest and [fuel] is never the reason to stop
    ([EngineFacts.RepeatMatcher_fuel]). *)
Fixpoint RepeatMatcher (m : Matcher) (ps : list nat) (fuel : nat)
    (x : MatchState) (c : Continuation) : option MatchState :=
  match fuel with
  | 0 => c x
  | S fuel' =>
      let d := fun y : MatchState =>
        if endIndex y =? endIndex x then None
        else RepeatMatcher m ps fuel' y c in
      match m (mkState (endIndex x) (reset ps (captures x))) d with
      | Some z => Some z
      | None => c x
      end
  end.

Section Matching.

Variable fl : Flags.
Variable input : string.

Definition to_upper (c : ascii) : ascii :=
  let n := nat_of_ascii c in
  if ((97 <=? n) && (n <=? 122))
     || ((224 <=? n) && (n <=? 254) && negb (n =? 247))
  then ascii_of_nat (n - 32) else c.

Definition Canonicalize (c : ascii) : ascii :=
  if ignoreCase fl then to_upper c else c.

Definition all_chars : list ascii := map ascii_of_nat (seq 0 256).

(** CharacterSetMatcher: some member of the set has the canonical form of
    the input character. *)
Definition in_set (A : ascii -> bool) (ch : ascii) : bool :=
  if ignoreCase fl
  then existsb (fun a => A a && Ascii.eqb (Canonicalize a) (Canonicalize ch))
               all_chars
  else A ch.

Definition at_bol (e : nat) : bool :=
  match e with
  | 0 => true
  | S e' =>
      multiline fl &&
      match String.get e' input with
      | Some ch => line_terminator ch
      | None => false
      end
  end.

Definition at_eol (e : nat) : bool :=
  (e =? String.length input) ||
  (multiline fl &&
   match String.get e input with
   | Some ch => line_terminator ch
   | None => false
   end).

Definition char_step (ok : ascii -> bool) : Matcher :=
  fun x c =>
    match String.get (endIndex x) input with
    | Some ch =>
        if ok ch then c (mkState (S (endIndex x)) (captures x)) else None
    | None => None
    end.

Fixpoint compile (r : re) : Matcher :=
  match r with
  | Empty => fun x c => c x
  | Cls invert A => char_step (fun ch => xorb invert (in_set A ch))
  | Dot => char_step (fun ch => dotAll fl || negb (line_terminator ch))
  | Seq r1 r2 => fun x c => compile r1 x (fun y => compile r2 y c)
  | Alt r1 r2 =>
      fun x c =>
        match compile r1 x c with
        | Some z => Some z
        | None => compile r2 x c
        end
  | Star r1 =>
      fun x c =>
        RepeatMatcher (compile r1) (parens r1) (S (String.length input)) x c
  | Group n r1 =>
      fun x c =>
        compile r1 x (fun y =>
          c (mkState (endIndex y)
                     ((n, (endIndex x, endIndex y)) :: captures y)))
  | Bol => fun x c => if at_bol (endIndex x) then c x else None
  | Eol => fun x c => if at_eol (endIndex x) then c x else None
  end.

(** One attempt of the whole pattern at position [i]. *)
Definition match_at (r : re) (i : nat) : option MatchState :=
  compile r (mkState i []) Some.

(** The search loop of RegExpBuiltinExec over the start positions
    [i, i+1, ..., i+n-1]; a sticky pattern tries the first one only. *)
Fixpoint search (r : re) (n i : nat) : option (nat * MatchState) :=
  match n with
  | 0 => None
  | S n' =>
      match match_at r i with
      | Some z => Some (i, z)
      | None => if sticky fl then None else search r n' (S i)
      end
  end.

(** The matches of a pattern without the order in which the matcher tries
    them: [Sem r x y] when [r] can take the state [x] to [y]. *)
Inductive Sem : re -> MatchState -> MatchState -> Prop :=
| SemEmpty x : Sem Empty x x
| SemCls invert A x ch :
    String.get (endIndex x) input = Some ch ->
    xorb invert (in_set A ch) = true ->
    Sem (Cls invert A) x (mkState (S (endIndex x)) (captures x))
| SemDot x ch :
    String.get (endIndex x) input = Some ch ->
    dotAll fl || negb (line_terminator ch) = true ->
    Sem Dot x (mkState (S (endIndex x)) (captures x))
| SemSeq r1 r2 x y z : Sem r1 x y -> Sem r2 y z -> Sem (Seq r1 r2) x z
| SemAltL r1 r2 x y : Sem r1 x y -> Sem (Alt r1 r2) x y
| SemAltR r1 r2 x y : Sem r2 x y -> Sem (Alt r1 r2) x y
| SemStarStop r x : Sem (Star r) x x
| SemStarStep r x y z :
    Sem r (mkState (endIndex x) (reset (parens r) (captures x))) y ->
    endIndex y <> endIndex x ->
    Sem (Star r) y z ->
    Sem (Star r) x z
| SemGroup n r x y :
    Sem r x y ->
    Sem (Group n r) x
        (mkState (endIndex y) ((n, (endIndex x, endIndex y)) :: captures y))
| SemBol x : at_bol (endIndex x) = true -> Sem Bol x x
| SemEol x : at_eol (endIndex x) = true -> Sem Eol x x.

(** [c1] and [c2] agree on the states from the position of [x] to the
    end of the input. *)
Definition agree (x : MatchState) (c1 c2 : Continuation) : Prop :=
  forall y, endIndex x <= endIndex y <= String.length input -> c1 y = c2 y.

(** The least number of characters that a match of [r] takes. *)
Fixpoint minLength (r : re) : nat :=
  match r with
  | Cls _ _ | Dot => 1
  | Seq r1 r2 => minLength r1 + minLength r2
  | Alt r1 r2 => Nat.min (minLength r1) (minLength r2)
  | Group _ r1 => minLength r1
  | _ => 0
  end.

End Matching.

(** A [RegExp] object: its parsed source, its flags and the mutable
    [lastIndex]. *)
Record RegExp : Type := mkRegExp {
  source : re;
  flags : Flags;
  lastIndex : nat
}.

Definition set_lastIndex (R : RegExp) (i : nat) : RegExp :=
  mkRegExp (source R) (flags R) i.

(** Only a global or sticky pattern reads and writes [lastIndex]. *)
Definition moving (R : RegExp) : bool :=
  global (flags R) || sticky (flags R).

(** What [exec] returns: [index], the end of [match[0]], the captured
    groups as spans of [input]. *)
Record RegExpExecArray : Type := mkExec {
  index : nat;
  matchEnd : nat;
  groups : Captures;
  input : string
}.

(** [match[n]] for [n >= 1], and [match[0]]. *)
Definition group (m : RegExpExecArray) (n : nat) : string :=
  match capture n (groups m) with
  | Some (a, b) => substring a (b - a) (input m)
  | None => EmptyString
  end.

Definition group0 (m : RegExpExecArray) : string :=
  substring (index m) (matchEnd m - index m) (input m).

(** RegExpBuiltinExec: the result and the object afterwards. *)
Definition exec (R : RegExp) (S : string) : option RegExpExecArray * RegExp :=
  let start := if moving R then lastIndex R else 0 in
  match search (flags R) S (source R) (1 + String.length S - start) start with
  | None => (None, if moving R then set_lastIndex R 0 else R)
  | Some (i, z) =>
      (Some (mkExec i (endIndex z) (captures z) S),
       if moving R then set_lastIndex R (endIndex z) else R)
  end.

(** The flags argument of [new RegExp]: a SyntaxError for a character
    that is no flag and for a flag given twice.  The scanner's grammars
    let through only [g i m s u y]. *)
Fixpoint parseFlags (s : string) (f : Flags) : option Flags :=
  match s with
  | EmptyString => Some f
  | String c s' =>
      let once (seen : bool) (f' : Flags) :=
        if seen then None else parseFlags s' f' in
      if Ascii.eqb c "g" then
        once (global f) (mkFlags true (ignoreCase f) (multiline f) (dotAll f) (unicode f) (sticky f))
      else if Ascii.eqb c "i" then
        once (ignoreCase f) (mkFlags (global f) true (multiline f) (dotAll f) (unicode f) (sticky f))
      else if Ascii.eqb c "m" then
        once (multiline f) (mkFlags (global f) (ignoreCase f) true (dotAll f) (unicode f) (sticky f))
      else if Ascii.eqb c "s" then
        once (dotAll f) (mkFlags (global f) (ignoreCase f) (multiline f) true (unicode f) (sticky f))
      else if Ascii.eqb c "u" then
        once (unicode f) (mkFlags (global f) (ignoreCase f) (multiline f) (dotAll f) true (sticky f))
      else if Ascii.eqb c "y" then
        once (sticky f) (mkFlags (global f) (ignoreCase f) (multiline f) (dotAll f) (unicode f) true)
      else None
  end.

End Engine.

Import Engine.

(** ** The host's documents and views *)

Record Position : Type := mkPosition {
  line : nat;
  character : nat
}.

Record Range : Type := mkRange {
  start : Position;
  end_ : Position
}.

(** [new vscode.Range(startLine, startCharacter, endLine, endCharacter)] *)
Definition Range4 (l1 c1 l2 c2 : nat) : Range :=
  mkRange (mkPosition l1 c1) (mkPosition l2 c2).

Record Uri : Type := mkUri {
  fsPath : string
}.

Record TextDocument : Type := mkDocument {
  uri : Uri;
  languageId : string;
  getText : string
}.

Definition LF : ascii := "010"%char.

(** The lines of a text, split at line feeds. *)
Fixpoint lines (s : string) : list string :=
  match s with
  | EmptyString => [EmptyString]
  | String c s' =>
      if Ascii.eqb c LF then EmptyString :: lines s'
      else match lines s' with
           | l :: ls => String c l :: ls
           | [] => [String c EmptyString]
           end
  end.

Definition lineCount (d : TextDocument) : nat := List.length (lines (getText d)).

(** [document.lineAt(i).text] *)
Definition lineAt (d : TextDocument) (i : nat) : string :=
  nth i (lines (getText d)) EmptyString.

(** [document.positionAt(offset)]: [l], [c] is the position of the head
    of [s]. *)
Fixpoint positionFrom (s : string) (offset l c : nat) : Position :=
  match offset, s with
  | S o, String ch s' =>
      if Ascii.eqb ch LF then positionFrom s' o (S l) 0
      else positionFrom s' o l (S c)
  | _, _ => mkPosition l c
  end.

Definition positionAt (d : TextDocument) (offset : nat) : Position :=
  positionFrom (getText d) offset 0 0.

(** A view.  [editorId] is the identity of the [TextEditor] object, the
    key of the maps below; [anchor] is [selection.anchor]; [viewColumn]
    is [None] when it is not a number. *)
Record TextEditor : Type := mkEditor {
  editorId : nat;
  document : TextDocument;
  anchor : Position;
  viewColumn : option nat
}.

(** ** extension.ts: the literal scanner *)

Definition boundaryChars : string := "()={},:?;".

(** [(^|\s|[()={},:?;])] *)
Definition openBoundary : re :=
  Alt Bol (Alt (Cls false white_space) (Cls false (one_of boundaryChars))).

(** The body, one or more of: an escaped slash, a bracketed class, any
    character but a slash: [(?: \\\/ | \[[^\]]*\] | [^/] )+] *)
Definition body : re :=
  Plus (Alt (Seq (Chr "\") (Chr "/"))
       (Alt (Seq (Chr "[") (Seq (Star (Cls true (one_of "]"))) (Chr "]")))
            (Cls true (one_of "/")))).

(** Slash, body, slash, flag characters; the body is group 3 and the
    flags are group 4. *)
Definition delimited (flagChars : string) : re :=
  Seq (Chr "/")
      (Seq (Group 3 body)
           (Seq (Chr "/") (Group 4 (Star (Cls false (one_of flagChars)))))).

(** [regexRegex]: boundary (group 1), the delimited literal (group 2),
    boundary (group 5, which also takes the end of the text); flag [g]. *)
Definition regexRegex : RegExp :=
  mkRegExp
    (Seq (Group 1 openBoundary)
         (Seq (Group 2 (delimited "gimuy"))
              (Group 5 (Alt (Cls false white_space)
                            (Alt (Cls false (one_of boundaryChars)) Eol)))))
    (set_global noFlags) 0.

Definition doubleQuote : ascii := "034"%char.

(** The members of the class written between the brackets in
    [phpRegexRegex]: a single quote, a bar, a double quote. *)
Definition quoteClass : string :=
  String "'" (String "|" (String doubleQuote EmptyString)).

(** [phpRegexRegex]: as [regexRegex], with one character of that class on
    each side of group 2 and outside every group. *)
Definition phpRegexRegex : RegExp :=
  mkRegExp
    (Seq (Group 1 openBoundary)
         (Seq (Cls false (one_of quoteClass))
              (Seq (Group 2 (delimited "gimuy"))
                   (Seq (Cls false (one_of quoteClass))
                        (Group 5 (Alt (Cls false white_space)
                                      (Alt (Cls false (one_of boundaryChars)) Eol)))))))
    (set_global noFlags) 0.

(** [haxeRegexRegex]: group 2 starts at the tilde; flags [gimsu]; the
    closing boundary class also has the dot. *)
Definition haxeRegexRegex : RegExp :=
  mkRegExp
    (Seq (Group 1 openBoundary)
         (Seq (Group 2 (Seq (Chr "~") (delimited "gimsu")))
              (Group 5 (Alt (Cls false white_space)
                            (Alt (Cls false (one_of ".()={},:?;")) Eol)))))
    (set_global noFlags) 0.

Definition languages : list string :=
  ["javascript"; "javascriptreact"; "typescript"; "typescriptreact";
   "vue"; "php"; "haxe"]%string.

Definition isLanguageSupported (d : TextDocument) : bool :=
  existsb (String.eqb (languageId d)) languages.

Definition getRegexRegex (languageId : string) : RegExp :=
  if String.eqb languageId "haxe" then haxeRegexRegex
  else if String.eqb languageId "php" then phpRegexRegex
  else regexRegex.

(** RegexMatchDecorator.ts: [interface RegexMatch] *)
Record RegexMatch : Type := mkRegexMatch {
  rm_document : TextDocument;
  rm_regex : RegExp;
  rm_range : Range
}.

(** [while ((match = regex.exec(text))) { ... }] on a global pattern: the
    successive results of [exec].  [None] when [fuel] iterations did not
    reach the [null] that ends the loop. *)
Fixpoint execLoop (fuel : nat) (regex : RegExp) (text : string)
  : option (list RegExpExecArray) :=
  match fuel with
  | 0 => None
  | S fuel' =>
      match exec regex text with
      | (None, _) => Some []
      | (Some m, regex') =>
          match execLoop fuel' regex' text with
          | Some ms => Some (m :: ms)
          | None => None
          end
      end
  end.

(** The candidates on one line: [regex.lastIndex = 0], then the loop.
    Every match of the three grammars has at least three characters, so
    the loop reaches its [null] within the fuel
    ([ScannerFacts.scan_fuel]). *)
Definition scan (regex : RegExp) (text : string) : list RegExpExecArray :=
  match execLoop (S (String.length text)) (set_lastIndex regex 0) text with
  | Some ms => ms
  | None => []
  end.

(** [match.index + match[1].length] and
    [match.index + match[1].length + match[2].length] *)
Definition spanStart (m : RegExpExecArray) : nat :=
  index m + String.length (group m 1).

Definition spanEnd (m : RegExpExecArray) : nat :=
  index m + String.length (group m 1) + String.length (group m 2).

(** The loop of [findRegexAtCaret]:
    [while ((match = regex.exec(text)) && (spanEnd < anchor.character));] *)
Fixpoint caretLoop (fuel : nat) (regex : RegExp) (text : string) (caret : nat)
  : option (option RegExpExecArray) :=
  match fuel with
  | 0 => None
  | S fuel' =>
      match exec regex text with
      | (None, _) => Some None
      | (Some m, regex') =>
          if spanEnd m <? caret then caretLoop fuel' regex' text caret
          else Some (Some m)
      end
  end.

Section Extension.

(** The pattern grammar of the host engine: the parse of a pattern text
    under given flags, or [None] for a SyntaxError. *)
Variable parsePattern : string -> Flags -> option re.

(** [new RegExp(pattern, flags)] *)
Definition newRegExp (pattern flags : string) : option RegExp :=
  match parseFlags flags noFlags with
  | None => None
  | Some f =>
      match parsePattern pattern f with
      | None => None
      | Some r => Some (mkRegExp r f 0)
      end
  end.

(** [try { return new RegExp(pattern, flags); } catch (e) { }] *)
Definition createRegex (pattern flags : string) : option RegExp :=
  newRegExp pattern flags.

Definition createRegexMatch (document : TextDocument) (line : nat)
    (m : RegExpExecArray) : option RegexMatch :=
  match createRegex (group m 3) (group m 4) with
  | Some regex =>
      Some (mkRegexMatch document regex
              (Range4 line (spanStart m) line (spanEnd m)))
  | None => None
  end.

Definition findRegexAtCaret (editor : TextEditor) : option RegexMatch :=
  let anchor := anchor editor in
  let text := substring 0 1000 (lineAt (document editor) (line anchor)) in
  let regex := set_lastIndex (getRegexRegex (languageId (document editor))) 0 in
  match caretLoop (S (String.length text)) regex text (character anchor) with
  | Some (Some m) =>
      if spanStart m <=? character anchor
      then createRegexMatch (document editor) (line anchor) m
      else None
  | _ => None
  end.

(** The body of the [for] loop of [findRegexes] for line [i]. *)
Definition findRegexesLine (document : TextDocument) (i : nat) : list RegexMatch :=
  let regex := getRegexRegex (languageId document) in
  let text := substring 0 1000 (lineAt document i) in
  omap (createRegexMatch document i) (scan regex text).

Definition findRegexes (document : TextDocument) : list RegexMatch :=
  concat (map (findRegexesLine document) (seq 0 (lineCount document))).

End Extension.

(** A pattern grammar for examples: ordinary characters, [.], [^], [$],
    a character or [.] possibly followed by [*] or [+]; every other
    construct is refused, as the host refuses a lone [(] or a quantifier
    with nothing to repeat.  [pending] is the atom read last, which a
    quantifier may still follow. *)
Fixpoint basicPattern (s : string) (pending : option re) : option re :=
  let emit (rest : option re) : option re :=
    match pending, rest with
    | Some a, Some r => Some (Seq a r)
    | None, Some r => Some r
    | _, None => None
    end in
  match s with
  | EmptyString =>
      match pending with
      | Some a => Some a
      | None => Some Empty
      end
  | String c s' =>
      if Ascii.eqb c "*" then
        match pending, basicPattern s' None with
        | Some a, Some r => Some (Seq (Star a) r)
        | _, _ => None
        end
      else if Ascii.eqb c "+" then
        match pending, basicPattern s' None with
        | Some a, Some r => Some (Seq (Plus a) r)
        | _, _ => None
        end
      else if one_of "()[]{}|?\" c then None
      else if Ascii.eqb c "^" then emit (option_map (Seq Bol) (basicPattern s' None))
      else if Ascii.eqb c "$" then emit (option_map (Seq Eol) (basicPattern s' None))
      else if Ascii.eqb c "." then emit (basicPattern s' (Some Dot))
      else emit (basicPattern s' (Some (Chr c)))
  end.

Definition basicParser (pattern : string) (_ : Flags) : option re :=
  basicPattern pattern None.

(** ** RegexMatchDecorator.ts *)

(** [interface Match] *)
Record Match : Type := mkMatch {
  m_range : Range
}.

(** What [addGM] returns: its argument, or an object of its own. *)
Inductive Returned : Type :=
| SameObject
| NewObject (r : RegExp).

Definition addGM (regex : RegExp) (addGMEnabled : bool) : Returned :=
  if negb addGMEnabled || (global (flags regex) && multiline (flags regex))
  then SameObject
  else
    let flags0 := flags regex in
    let flags1 := if negb (global (flags regex)) then set_global flags0 else flags0 in
    let flags2 := if negb (multiline (flags regex)) then set_multiline flags1 else flags1 in
    NewObject (mkRegExp (source regex) flags2 0).

(** [if (regex.lastIndex === match.index) { regex.lastIndex++; }] *)
Definition skipEmpty (regex : RegExp) (m : RegExpExecArray) : RegExp :=
  if lastIndex regex =? index m
  then set_lastIndex regex (S (lastIndex regex))
  else regex.

(** The [while] loop of [findMatches] on the object [regex]; the result
    is the list of matches and the object as the loop leaves it, [None]
    when [fuel] iterations did not end the loop. *)
Fixpoint matchLoop (fuel : nat) (regex : RegExp) (document : TextDocument)
    (text : string) (matches : list Match) : option (list Match * RegExp) :=
  match fuel with
  | 0 => None
  | S fuel' =>
      if global (flags regex) || (List.length matches =? 0) then
        match exec regex text with
        | (None, regex') => Some (matches, regex')
        | (Some m, regex') =>
            let matches' :=
              matches ++
              [mkMatch (mkRange (positionAt document (index m))
                                (positionAt document
                                   (index m + String.length (group0 m))))] in
            matchLoop fuel' (skipEmpty regex' m) document text matches'
        end
      else Some (matches, regex)
  end.

(** The loop with the fuel that always suffices
    ([EvaluatorFacts.matchLoop_total]). *)
Definition runMatchLoop (regex : RegExp) (document : TextDocument)
  : list Match * RegExp :=
  match matchLoop (2 + String.length (getText document)) regex document
                  (getText document) [] with
  | Some res => res
  | None => ([], regex)
  end.

(** [findMatches]: the matches, and [regexMatch] with its [RegExp] object
    as the evaluation leaves it. *)
Definition findMatches (regexMatch : RegexMatch) (document : TextDocument)
    (addGMEnabled : bool) : list Match * RegexMatch :=
  match addGM (rm_regex regexMatch) addGMEnabled with
  | SameObject =>
      let (matches, regex') := runMatchLoop (rm_regex regexMatch) document in
      (matches, mkRegexMatch (rm_document regexMatch) regex' (rm_range regexMatch))
  | NewObject regex =>
      (fst (runMatchLoop regex document), regexMatch)
  end.

(** The two decoration types and what a view shows of each. *)
Inductive DecorationType : Type :=
| regexHighlight
| matchHighlight.

Record Layers : Type := mkLayers {
  regexLayer : list Range;
  matchLayer : list Range
}.

Definition noLayers : Layers := mkLayers [] [].

(** [editor.setDecorations(type, ranges)] replaces the ranges of [type]. *)
Definition setDecorations (t : DecorationType) (ranges : list Range)
    (shown : Layers) : Layers :=
  match t with
  | regexHighlight => mkLayers ranges (matchLayer shown)
  | matchHighlight => mkLayers (regexLayer shown) ranges
  end.

(** [class RegexMatchDecorator], one per view. *)
Record RegexMatchDecorator : Type := mkDecorator {
  editor : TextEditor
}.

(** [update] on the decorator of [editor], whose decorations are [shown];
    also returns [activeRegex] with its [RegExp] object as left by the
    evaluation. *)
Definition update (editor : TextEditor) (activeRegex : option RegexMatch)
    (editorURI : Uri) (addGMEnabled : bool) (shown : Layers)
  : Layers * option RegexMatch :=
  match activeRegex with
  | Some regexMatch =>
      let isEditor :=
        String.eqb (fsPath (uri (document editor))) (fsPath editorURI) in
      if isEditor ||
         String.eqb (fsPath (uri (rm_document regexMatch)))
                    (fsPath (uri (document editor)))
      then
        let (matches, regexMatch') :=
          findMatches regexMatch (document editor) addGMEnabled in
        (setDecorations (if isEditor then matchHighlight else regexHighlight)
                        (map m_range matches) shown,
         Some regexMatch')
      else (shown, activeRegex)
  | None =>
      (setDecorations regexHighlight [] (setDecorations matchHighlight [] shown),
       None)
  end.

Definition dispose (shown : Layers) : Layers :=
  setDecorations regexHighlight [] (setDecorations matchHighlight [] shown).

(** ** extension.ts: the view synchronizer *)

(** The module state of the extension and the part of [vscode.window]
    that it reads and writes.  [decorators] is keyed by the identity of
    the view; [decorations] is what each view shows: a view without an
    entry shows nothing. *)
Record World : Type := mkWorld {
  decorators : gmap nat RegexMatchDecorator;
  addGMEnabled : bool;
  editorURI : option Uri;
  activeRegex : option RegexMatch;
  visibleTextEditors : list TextEditor;
  activeTextEditor : option TextEditor;
  decorations : gmap nat Layers
}.

Definition shownOn (ds : gmap nat Layers) (id : nat) : Layers :=
  default noLayers (ds !! id).

Definition getVisibleTextEditors (w : World) : list TextEditor :=
  List.filter (fun e => match viewColumn e with Some _ => true | None => false end)
              (visibleTextEditors w).

Definition isEditorEnabled (w : World) : bool :=
  match editorURI w with
  | Some u =>
      existsb (fun e => String.eqb (fsPath (uri (document e))) (fsPath u))
              (getVisibleTextEditors w)
  | None => false
  end.

(** [decorator.dispose()] for every decorator of [remove]; the view of a
    decorator is the key it is stored under. *)
Definition disposeAll (remove : gmap nat RegexMatchDecorator)
    (ds : gmap nat Layers) : gmap nat Layers :=
  foldr (fun kv acc => <[kv.1 := dispose (shownOn acc kv.1)]> acc)
        ds (map_to_list remove).

Section Synchronizer.

Variable parsePattern : string -> Flags -> option re.

(** The state that the [forEach] of [updateDecorators] threads through
    the visible views. *)
Record Sync : Type := mkSync {
  s_remove : gmap nat RegexMatchDecorator;
  s_decorators : gmap nat RegexMatchDecorator;
  s_activeRegex : option RegexMatch;
  s_decorations : gmap nat Layers
}.

(** The callback of the [forEach]. *)
Definition visit (editorURI : Uri) (addGMEnabled : bool) (st : Sync)
    (e : TextEditor) : Sync :=
  let remove := delete (editorId e) (s_remove st) in
  if isLanguageSupported (document e) ||
     String.eqb (fsPath (uri (document e))) (fsPath editorURI)
  then
    let decorators :=
      match s_decorators st !! editorId e with
      | Some _ => s_decorators st
      | None => <[editorId e := mkDecorator e]> (s_decorators st)
      end in
    let (shown, activeRegex) :=
      update e (s_activeRegex st) editorURI addGMEnabled
             (shownOn (s_decorations st) (editorId e)) in
    mkSync remove decorators activeRegex
           (<[editorId e := shown]> (s_decorations st))
  else mkSync remove (s_decorators st) (s_activeRegex st) (s_decorations st).

Definition updateDecorators (m : option RegexMatch) (w : World) : World :=
  if negb (isEditorEnabled w) then w
  else
    match editorURI w with
    | None => w
    | Some u =>
        let activeRegex0 :=
          match m with
          | Some regexMatch => Some regexMatch
          | None =>
              match activeTextEditor w with
              | Some activeEditor =>
                  if isLanguageSupported (document activeEditor)
                  then findRegexAtCaret parsePattern activeEditor
                  else activeRegex w
              | None => activeRegex w
              end
          end in
        let st :=
          fold_left (visit u (addGMEnabled w)) (getVisibleTextEditors w)
                    (mkSync (decorators w) (decorators w) activeRegex0
                            (decorations w)) in
        mkWorld (s_decorators st ∖ s_remove st)
                (addGMEnabled w) (editorURI w) (s_activeRegex st)
                (visibleTextEditors w) (activeTextEditor w)
                (disposeAll (s_remove st) (s_decorations st))
    end.

End Synchronizer.

(** The handler of [onDidCloseTextDocument] for the closed document [e]:
    one step of its [for] loop, for the key [editor]. *)
Definition closeStep (e : TextDocument)
    (st : gmap nat RegexMatchDecorator * gmap nat Layers)
    (kv : nat * RegexMatchDecorator)
  : gmap nat RegexMatchDecorator * gmap nat Layers :=
  if String.eqb (fsPath (uri (document (editor kv.2)))) (fsPath (uri e)) then
    let decorators := delete kv.1 st.1 in
    match decorators !! kv.1 with
    | Some _ => (decorators, <[kv.1 := dispose (shownOn st.2 kv.1)]> st.2)
    | None => (decorators, st.2)
    end
  else st.

Definition onDidCloseTextDocument (e : TextDocument) (w : World) : World :=
  let st := fold_left (closeStep e) (map_to_list (decorators w))
                      (decorators w, decorations w) in
  mkWorld st.1 (addGMEnabled w) (editorURI w) (activeRegex w)
          (visibleTextEditors w) (activeTextEditor w) st.2.

(** ** extension.ts: the commands, the status bar item, the code lenses *)

(** The status bar item [toggleGM]. *)
Record StatusBarItem : Type := mkStatusBarItem {
  sb_text : string;
  sb_tooltip : string;
  sb_shown : bool
}.

(** The extension with its status bar item. *)
Record Session : Type := mkSession {
  world : World;
  toggleGM : StatusBarItem
}.

Definition updateToggleGM (s : Session) : Session :=
  mkSession (world s)
    (mkStatusBarItem
       (if addGMEnabled (world s) then "Adding /gm" else "Not adding /gm")
       (if addGMEnabled (world s)
        then "Click to stop adding global and multiline (/gm) options to regexes for evaluation with example text."
        else "Click to add global and multiline (/gm) options to regexes for evaluation with example text.")
       (sb_shown (toggleGM s))).

Definition setAddGMEnabled (b : bool) (w : World) : World :=
  mkWorld (decorators w) b (editorURI w) (activeRegex w)
          (visibleTextEditors w) (activeTextEditor w) (decorations w).

Definition setShown (b : bool) (i : StatusBarItem) : StatusBarItem :=
  mkStatusBarItem (sb_text i) (sb_tooltip i) b.

(** [openLoremIpsum] runs in two parts.  This is the first, the
    statements before the promise: the scratch path is chosen once,
    [fresh] being the path that the host makes up (writing the file is
    the host's).  The second part is the continuation of the promise of
    [showTextDocument], [openLoremIpsumShown] below: a recomputation,
    which runs once the host has shown the document. *)
Definition openLoremIpsum (fresh : Uri) (w : World) : World :=
  match editorURI w with
  | Some _ => w
  | None =>
      mkWorld (decorators w) (addGMEnabled w) (Some fresh) (activeRegex w)
              (visibleTextEditors w) (activeTextEditor w) (decorations w)
  end.

(** [decorators.forEach(decorator => decorator.dispose())] followed by
    [decorators.clear()]. *)
Definition disposeAndClear (w : World) : World :=
  mkWorld ∅ (addGMEnabled w) (editorURI w) (activeRegex w)
          (visibleTextEditors w) (activeTextEditor w)
          (disposeAll (decorators w) (decorations w)).

(** The subscription that [activate] pushes for the end of the session:
    every decorator is disposed, the map stays. *)
Definition disposeDecorators (w : World) : World :=
  mkWorld (decorators w) (addGMEnabled w) (editorURI w) (activeRegex w)
          (visibleTextEditors w) (activeTextEditor w)
          (disposeAll (decorators w) (decorations w)).

(** The host between two runs of the extension: the visible views and
    the focused view are its own, the rest of the state is not touched. *)
Definition hostViews (visible : list TextEditor) (active : option TextEditor)
    (w : World) : World :=
  mkWorld (decorators w) (addGMEnabled w) (editorURI w) (activeRegex w)
          visible active (decorations w).

Section Commands.

Variable parsePattern : string -> Flags -> option re.

(** The second part of [openLoremIpsum] (lines 135 to 139), the
    continuation [() => { updateDecorators(); }]: it runs on the state
    [w] of the time when the host has opened and shown the scratch
    document. *)
Definition openLoremIpsumShown (w : World) : World :=
  updateDecorators parsePattern None w.

(** The command [regexpreview.toggleGM]. *)
Definition toggleGMCommand (s : Session) : Session :=
  let flipped :=
    mkSession (setAddGMEnabled (negb (addGMEnabled (world s))) (world s))
              (toggleGM s) in
  let labelled := updateToggleGM flipped in
  mkSession (updateDecorators parsePattern None (world labelled))
            (toggleGM labelled).

(** The command [extension.toggleRegexPreview], with the literal of a
    code lens or without one, up to its return.  Its enabling branch
    leaves the continuation of [openLoremIpsum] with the host:
    [toggleRegexPreviewShown] below follows the run to the end of it. *)
Definition toggleRegexPreview (fresh : Uri) (m : option RegexMatch)
    (s : Session) : Session :=
  let enableEditor := negb (isEditorEnabled (world s)) in
  if enableEditor then
    mkSession (openLoremIpsum fresh (world s)) (setShown true (toggleGM s))
  else
    match m with
    | Some regexMatch =>
        mkSession (updateDecorators parsePattern (Some regexMatch) (world s))
                  (toggleGM s)
    | None =>
        mkSession (disposeAndClear (world s)) (setShown false (toggleGM s))
    end.

(** [toggleRegexPreview] followed to the end of the continuation that
    its enabling branch leaves with the host, no other handler of the
    extension having run in between; [visible] and [active] are the
    views of the host when the continuation runs.  In the other branches
    there is no continuation. *)
Definition toggleRegexPreviewShown (fresh : Uri) (m : option RegexMatch)
    (visible : list TextEditor) (active : option TextEditor) (s : Session)
  : Session :=
  let returned := toggleRegexPreview fresh m s in
  if negb (isEditorEnabled (world s)) then
    mkSession (openLoremIpsumShown (hostViews visible active (world returned)))
              (toggleGM returned)
  else returned.

(** [new vscode.CodeLens(range, command)] *)
Record CodeLens : Type := mkCodeLens {
  cl_range : Range;
  cl_title : string;
  cl_command : string;
  cl_arguments : list RegexMatch
}.

(** [provideCodeLenses]; [enableCodeLens] is the setting of the
    configuration; [None] is the [return] without a value. *)
Definition provideCodeLenses (enableCodeLens : bool) (document : TextDocument)
  : option (list CodeLens) :=
  if negb enableCodeLens then None
  else
    Some (map (fun m => mkCodeLens (rm_range m) "Test Regex..."
                                   "extension.toggleRegexPreview" [m])
              (findRegexes parsePattern document)).

End Commands.

(** The documents and views of the scenarios. *)
Module Scenario.

Definition sourceLine : string := "const r = /ab*/g;".

Definition tsDocument : TextDocument :=
  mkDocument (mkUri "/work/a.ts") "typescript" sourceLine.

Definition caretAt (d : TextDocument) (l c : nat) : TextEditor :=
  mkEditor 1 d (mkPosition l c) (Some 1).

(** [/ab*/g] as the example grammar parses it. *)
Definition abStar : re := Seq (Chr "a") (Seq (Star (Chr "b")) Empty).

Definition abStarG : RegExp := mkRegExp abStar (set_global noFlags) 0.

(** A line whose literal repeats a flag. *)
Definition twiceG : TextDocument :=
  mkDocument (mkUri "/work/b.js") "javascript" "x = /a/gg;".

Definition phpDocument : TextDocument :=
  mkDocument (mkUri "/work/c.php") "php" "$r = '/ab*/g';".

Definition phpBars : TextDocument :=
  mkDocument (mkUri "/work/d.php") "php" "$r = |/ab*/g|;".

Definition phpMixed : TextDocument :=
  mkDocument (mkUri "/work/e.php") "php"
             (String "'" ("/ab*/g" +:+ String doubleQuote EmptyString)).

(** The candidate on the line of [twiceG]. *)
Definition twiceGCandidate : RegExpExecArray :=
  mkExec 3 10 [(5, (9, 10)); (2, (4, 9)); (4, (7, 9)); (3, (5, 6)); (1, (3, 4))]
         "x = /a/gg;".

(** [/^a/] and the two-line text of the augmentation example. *)
Definition caretA : RegExp := mkRegExp (Seq Bol (Chr "a")) noFlags 0.

Definition twoLines : TextDocument :=
  mkDocument (mkUri "/tmp/sample") "plaintext"
             (String "a" (String LF (String "a" EmptyString))).

(** Two source views and the preview view, side by side. *)
Definition docA : TextDocument :=
  mkDocument (mkUri "/work/a.js") "javascript" "x = /a/;".

Definition docB : TextDocument :=
  mkDocument (mkUri "/work/b.js") "javascript" "y = /b/;".

Definition preview : TextDocument :=
  mkDocument (mkUri "/tmp/sample") "plaintext" "a b ab".

Definition viewA : TextEditor := mkEditor 1 docA (mkPosition 0 5) (Some 1).
Definition viewB : TextEditor := mkEditor 2 docB (mkPosition 0 5) (Some 1).
Definition viewP : TextEditor := mkEditor 3 preview (mkPosition 0 0) (Some 2).

Definition focus (e : option TextEditor) (w : World) : World :=
  mkWorld (decorators w) (addGMEnabled w) (editorURI w) (activeRegex w)
          (visibleTextEditors w) e (decorations w).

(** The preview is open, nothing is tracked yet, the caret is in the
    literal of [docB]. *)
Definition opened : World :=
  mkWorld ∅ true (Some (mkUri "/tmp/sample")) None
          [viewA; viewB; viewP] (Some viewB) ∅.

(** A recomputation there, then one with the caret in the literal of
    [docA]. *)
Definition afterB : World := updateDecorators basicParser None opened.

Definition afterA : World :=
  updateDecorators basicParser None (focus (Some viewA) afterB).

(** The target text of scenario A and the line of scenario C. *)
Definition targetA : TextDocument :=
  mkDocument (mkUri "/tmp/sample") "plaintext" "a ab abb".

Definition haxeLine : string := "var r = ~/a.b/si;".

(** The view of [sourceLine] with the caret at column 14, beside the
    preview. *)
Definition tsView : TextEditor := caretAt tsDocument 0 14.

Definition tsOpened : World :=
  mkWorld ∅ true (Some (mkUri "/tmp/sample")) None
          [tsView; viewP] (Some tsView) ∅.

(** The session on [afterA], the status bar item shown. *)
Definition shownItem : StatusBarItem :=
  mkStatusBarItem "Adding /gm" "Click to stop" true.

Definition running : Session := mkSession afterA shownItem.

(** A session in which the scratch document is not visible. *)
Definition closed : Session :=
  mkSession (mkWorld ∅ true None None [viewA] (Some viewA) ∅)
            (mkStatusBarItem "Adding /gm" "Click to stop" false).

(** The literal of [docB] as the code lens of [docB] carries it. *)
Definition lensB : RegexMatch :=
  mkRegexMatch docB (mkRegExp (Chr "b") noFlags 0) (Range4 0 4 0 7).

(** A sticky literal and a session without augmentation: the view of its
    document and the preview, side by side. *)
Definition stickyDoc : TextDocument :=
  mkDocument (mkUri "/work/s.js") "javascript" "ba = /a/y;".

Definition stickyLiteral : RegexMatch :=
  mkRegexMatch stickyDoc
    (mkRegExp (Chr "a") (mkFlags false false false false false true) 0)
    (Range4 0 5 0 9).

Definition viewS : TextEditor := mkEditor 4 stickyDoc (mkPosition 0 0) (Some 1).

Definition plain : World :=
  mkWorld ∅ false (Some (mkUri "/tmp/sample")) None
          [viewS; viewP] (Some viewP) ∅.

End Scenario.

(** ** Notions used in the statements *)

(** A result of [exec] on [text] from the cursor [l] on: it lies at or
    after [l], inside [text], with its groups inside it. *)
Definition wellPlaced (text : string) (l : nat) (m : RegExpExecArray) : Prop :=
  input m = text /\ l <= index m /\ index m <= matchEnd m /\
  matchEnd m <= String.length text /\
  (forall n a b, capture n (groups m) = Some (a, b) ->
     index m <= a /\ a <= b /\ b <= matchEnd m).

(** Successive results: each one starts at or after the end of the one
    before. *)
Fixpoint chained (text : string) (l : nat) (ms : list RegExpExecArray) : Prop :=
  match ms with
  | [] => True
  | m :: ms' => wellPlaced text l m /\ chained text (matchEnd m) ms'
  end.

(** Does the span of [m] hold the caret? *)
Definition straddles (caret : nat) (m : RegExpExecArray) : bool :=
  (spanStart m <=? caret) && (caret <=? spanEnd m).

(** The same literal, whatever the cursor of its [RegExp] object. *)
Definition sameLiteral (a b : RegexMatch) : Prop :=
  rm_document a = rm_document b /\ rm_range a = rm_range b /\
  source (rm_regex a) = source (rm_regex b) /\
  flags (rm_regex a) = flags (rm_regex b).

Definition sameActive (a b : option RegexMatch) : Prop :=
  match a, b with
  | Some x, Some y => sameLiteral x y
  | None, None => True
  | _, _ => False
  end.

(** The pattern and the flags of [regexMatch] went through [createRegex]. *)
Definition accepted (parsePattern : string -> Flags -> option re)
    (regexMatch : RegexMatch) : Prop :=
  exists (pattern flags : string) (R : RegExp),
    createRegex parsePattern pattern flags = Some R /\
    source (rm_regex regexMatch) = source R /\
    Engine.flags (rm_regex regexMatch) = Engine.flags R.

(** What the visit of [e] leaves on [e], in terms of [update]. *)
Definition visited (u : Uri) (addGMEnabled : bool) (a : option RegexMatch)
    (shown : Layers) (e : TextEditor) : Layers :=
  if isLanguageSupported (document e) ||
     String.eqb (fsPath (uri (document e))) (fsPath u)
  then (update e a u addGMEnabled shown).1
  else shown.

(** The delimiter-to-flags text of a candidate lies from [from] to [to]:
    a slash, group 3, a slash, group 4. *)
Definition delimitedAt (m : RegExpExecArray) (from to : nat) : Prop :=
  substring from (to - from) (input m) =
  String "/" (group m 3 +:+ String "/" (group m 4)) /\
  from < to /\ to <= String.length (input m).

(** The character of [m]'s input at [i] is one of [chars]. *)
Definition charAt (m : RegExpExecArray) (i : nat) (chars : string) : Prop :=
  exists ch, String.get i (input m) = Some ch /\ one_of chars ch = true.

(** Where groups 1 and 2 of a candidate lie: the boundary from the start
    of the match, empty only at the start of the line, and group 2 after
    it, not empty, inside the match. *)
Definition layout (m : RegExpExecArray) : Prop :=
  exists e1 s2 e2 : nat,
    capture 1 (groups m) = Some (index m, e1) /\
    capture 2 (groups m) = Some (s2, e2) /\
    ((e1 = index m /\ index m = 0) \/ e1 = S (index m)) /\
    e1 <= s2 /\ s2 < e2 /\ e2 <= matchEnd m /\
    matchEnd m <= String.length (input m).



(** The view [e] gets a decorator and an update: its language is
    supported or it shows the scratch document [u]. *)
Definition relevant (u : Uri) (e : TextEditor) : bool :=
  isLanguageSupported (document e) ||
  String.eqb (fsPath (uri (document e))) (fsPath u).

(** The text of the status bar item says what the flag is. *)
Definition labelled (s : Session) : Prop :=
  sb_text (toggleGM s) =
  (if addGMEnabled (world s) then "Adding /gm" else "Not adding /gm")%string.


(** The active literal that a recomputation starts from, after the first
    statements of [updateDecorators] (lines 149 to 156): the literal it
    is given; without one, the literal at the caret of the focused view
    when its language is supported, and the one of before otherwise. *)
Definition selected (parsePattern : string -> Flags -> option re)
    (m : option RegexMatch) (w : World) : option RegexMatch :=
  match m with
  | Some regexMatch => Some regexMatch
  | None =>
      match activeTextEditor w with
      | Some activeEditor =>
          if isLanguageSupported (document activeEditor)
          then findRegexAtCaret parsePattern activeEditor
          else activeRegex w
      | None => activeRegex w
      end
  end.

(** The visit of the view [e] evaluates the literal [r]: the view is
    relevant and shows the scratch document or the document of [r]. *)
Definition evaluates (u : Uri) (r : RegexMatch) (e : TextEditor) : bool :=
  relevant u e &&
  (String.eqb (fsPath (uri (document e))) (fsPath u) ||
   String.eqb (fsPath (uri (rm_document r))) (fsPath (uri (document e)))).

(** The active literal as the visits of the views [es], in this order,
    leave it: every evaluation runs on the one [RegExp] object of the
    literal and hands it on with the cursor where it left it. *)
Definition carried (u : Uri) (addGMEnabled : bool) (a : option RegexMatch)
    (es : list TextEditor) : option RegexMatch :=
  fold_left
    (fun a e =>
       match a with
       | Some r =>
           if evaluates u r e
           then Some (findMatches r (document e) addGMEnabled).2
           else Some r
       | None => None
       end)
    es a.

(** An evaluation leaves the object [R] as it is: a new object is derived
    from it, or it is global with its cursor at 0, where the [null] that
    ends the loop puts the cursor back. *)
Definition untouched (addGMEnabled : bool) (R : RegExp) : bool :=
  (addGMEnabled && negb (global (flags R) && multiline (flags R))) ||
  (global (flags R) && (lastIndex R =? 0)).

(** The matches of [R] do not depend on the evaluations made before: [R]
    is left as it is by every evaluation, or [exec] does not read its
    cursor (neither [g] nor [y]). *)
Definition settled (addGMEnabled : bool) (R : RegExp) : bool :=
  untouched addGMEnabled R || negb (moving R).

(** Where the literal of a candidate is written in the line, read from
    the groups of the pattern and the flags: the opening delimiter is the
    character before group 3, the flags end where group 4 ends, and in
    the prefix-sigil dialect the sigil stands before the delimiter. *)
Definition delimiterStart (m : RegExpExecArray) : nat :=
  match capture 3 (groups m) with
  | Some (a, _) => pred a
  | None => 0
  end.

Definition flagsEnd (m : RegExpExecArray) : nat :=
  match capture 4 (groups m) with
  | Some (_, b) => b
  | None => 0
  end.

Definition literalStart (languageId : string) (m : RegExpExecArray) : nat :=
  if String.eqb languageId "haxe" then pred (delimiterStart m)
  else delimiterStart m.

(** The literal of [m], as written, holds the caret, ends included. *)
Definition holdsCaret (languageId : string) (caret : nat)
    (m : RegExpExecArray) : bool :=
  (literalStart languageId m <=? caret) && (caret <=? flagsEnd m).

(** The flag letters that the grammar of a language takes after the
    closing delimiter. *)
Definition flagLetters (languageId : string) : string :=
  if String.eqb languageId "haxe" then "gimsu" else "gimuy".

(** * Properties *)

(** ** The pattern engine *)

Module EngineFacts.

Lemma get_Some_lt (s : string) (i : nat) (ch : ascii) :
  String.get i s = Some ch -> i < String.length s.
Proof.
  revert i; induction s as [|a s IH]; intros [|i] H; simpl in *;
    try discriminate; try lia.
  apply IH in H. lia.
Qed.

Lemma length_substring (s : string) (a n : nat) :
  a + n <= String.length s -> String.length (substring a n s) = n.
Proof.
  revert a n; induction s as [|c s IH]; intros a n H; simpl in *.
  - assert (a = 0) by lia. assert (n = 0) by lia. subst. reflexivity.
  - destruct a as [|a].
    + destruct n as [|n]; simpl; [reflexivity|].
      rewrite IH; [reflexivity | simpl in *; lia].
    + apply IH. lia.
Qed.

Section Soundness.

Variable fl : Flags.
Variable input : string.

Local Abbreviation Sem := (Sem fl input).
Local Abbreviation compile := (compile fl input).
Local Abbreviation agree := (agree input).

Lemma RepeatMatcher_sound (r : re) :
  (forall x c z, compile r x c = Some z ->
                 exists y, Sem r x y /\ c y = Some z) ->
  forall fuel x c z,
    RepeatMatcher (compile r) (parens r) fuel x c = Some z ->
    exists y, Sem (Star r) x y /\ c y = Some z.
Proof.
  intros IHr fuel; induction fuel as [|fuel IH]; intros x c z H; simpl in H.
  - exists x. split; [constructor | exact H].
  - destruct (compile r _ _) as [z'|] eqn:E.
    + inversion H; subst z'; clear H.
      apply IHr in E. destruct E as (y & Hy & Hd).
      destruct (endIndex y =? endIndex x) eqn:Eq; [discriminate|].
      apply Nat.eqb_neq in Eq.
      apply IH in Hd. destruct Hd as (y' & Hy' & Hc).
      exists y'. split; [|exact Hc].
      eapply SemStarStep; eassumption.
    + exists x. split; [constructor | exact H].
Qed.

(** Whatever the matcher returns went through a state that the pattern
    reaches, and from there through the continuation. *)
Lemma compile_sound (r : re) :
  forall x c z, compile r x c = Some z ->
                exists y, Sem r x y /\ c y = Some z.
Proof.
  induction r as [|invert A| |r1 IH1 r2 IH2|r1 IH1 r2 IH2|r IH|n r IH| |];
    intros x c z H;
    [simpl in H|simpl in H|simpl in H|simpl in H|simpl in H
    |exact (RepeatMatcher_sound r IH _ x c z H)
    |simpl in H|simpl in H|simpl in H].
  - exists x. split; [constructor | exact H].
  - unfold char_step in H.
    destruct (String.get (endIndex x) input) as [ch|] eqn:G; [|discriminate].
    destruct (xorb invert (in_set fl A ch)) eqn:T; [|discriminate].
    eexists. split; [econstructor; eassumption | exact H].
  - unfold char_step in H.
    destruct (String.get (endIndex x) input) as [ch|] eqn:G; [|discriminate].
    destruct (dotAll fl || negb (line_terminator ch)) eqn:T; [|discriminate].
    eexists. split; [econstructor; eassumption | exact H].
  - apply IH1 in H. destruct H as (y & Hy & H).
    apply IH2 in H. destruct H as (y' & Hy' & H).
    exists y'. split; [econstructor; eassumption | exact H].
  - destruct (compile r1 x c) as [z'|] eqn:E.
    + inversion H; subst z'. apply IH1 in E. destruct E as (y & Hy & Hc).
      exists y. split; [apply SemAltL; exact Hy | exact Hc].
    + apply IH2 in H. destruct H as (y & Hy & Hc).
      exists y. split; [apply SemAltR; exact Hy | exact Hc].
  - apply IH in H. destruct H as (y & Hy & Hc).
    eexists. split; [apply SemGroup; exact Hy | exact Hc].
  - destruct (at_bol fl input (endIndex x)) eqn:B; [|discriminate].
    exists x. split; [constructor; exact B | exact H].
  - destruct (at_eol fl input (endIndex x)) eqn:B; [|discriminate].
    exists x. split; [constructor; exact B | exact H].
Qed.

(** Continuations that agree from the position of [x] on are the same to
    a matcher started at [x]. *)
Lemma RepeatMatcher_local (r : re) :
  (forall x c1 c2, endIndex x <= String.length input ->
                   agree x c1 c2 -> compile r x c1 = compile r x c2) ->
  forall fuel x c1 c2,
    endIndex x <= String.length input -> agree x c1 c2 ->
    RepeatMatcher (compile r) (parens r) fuel x c1 =
    RepeatMatcher (compile r) (parens r) fuel x c2.
Proof.
  intros IHr fuel; induction fuel as [|fuel IH]; intros x c1 c2 B A; simpl.
  - apply A. lia.
  - rewrite (A x) by lia.
    erewrite IHr; [reflexivity | exact B |].
    intros y Hy. simpl in Hy.
    destruct (endIndex y =? endIndex x); [reflexivity|].
    apply IH; [lia|]. intros y' Hy'. apply A. lia.
Qed.

Lemma compile_local (r : re) :
  forall x c1 c2, endIndex x <= String.length input ->
                  agree x c1 c2 -> compile r x c1 = compile r x c2.
Proof.
  induction r as [|invert A| |r1 IH1 r2 IH2|r1 IH1 r2 IH2|r IH|n r IH| |];
    intros x c1 c2 B Ag;
    [simpl|simpl|simpl|simpl|simpl
    |exact (RepeatMatcher_local r IH _ x c1 c2 B Ag)
    |simpl|simpl|simpl].
  - apply Ag. lia.
  - unfold char_step.
    destruct (String.get (endIndex x) input) as [ch|] eqn:G; [|reflexivity].
    apply get_Some_lt in G.
    destruct (xorb _ _); [|reflexivity]. apply Ag. simpl. lia.
  - unfold char_step.
    destruct (String.get (endIndex x) input) as [ch|] eqn:G; [|reflexivity].
    apply get_Some_lt in G.
    destruct (_ || _); [|reflexivity]. apply Ag. simpl. lia.
  - apply IH1; [exact B|]. intros y Hy.
    apply IH2; [lia|]. intros y' Hy'. apply Ag. lia.
  - rewrite (IH1 x c1 c2 B Ag), (IH2 x c1 c2 B Ag). reflexivity.
  - apply IH; [exact B|]. intros y Hy. apply Ag. simpl. lia.
  - destruct (at_bol _ _ _); [|reflexivity]. apply Ag. lia.
  - destruct (at_eol _ _ _); [|reflexivity]. apply Ag. lia.
Qed.

(** The fuel of a quantifier is never the reason to stop: any fuel above
    the number of characters left gives the same result. *)
Lemma RepeatMatcher_fuel (r : re) (c : Continuation) :
  forall n x fuel1 fuel2,
    String.length input - endIndex x <= n ->
    endIndex x <= String.length input ->
    String.length input - endIndex x < fuel1 ->
    String.length input - endIndex x < fuel2 ->
    RepeatMatcher (compile r) (parens r) fuel1 x c =
    RepeatMatcher (compile r) (parens r) fuel2 x c.
Proof.
  induction n as [|n IH]; intros x fuel1 fuel2 N B F1 F2;
    (destruct fuel1 as [|fuel1]; [lia|]);
    (destruct fuel2 as [|fuel2]; [lia|]); simpl;
    (erewrite compile_local; [reflexivity | exact B |]);
    intros y Hy; simpl in Hy;
    destruct (endIndex y =? endIndex x) eqn:E; try reflexivity;
    apply Nat.eqb_neq in E.
  - lia.
  - apply IH; lia.
Qed.

Lemma capture_reset_eq (ps : list nat) (cs : Captures) (n : nat) :
  capture n (reset ps cs) =
  if existsb (Nat.eqb n) ps then None else capture n cs.
Proof.
  induction cs as [|[k span] cs IH]; simpl.
  - destruct (existsb (Nat.eqb n) ps); reflexivity.
  - destruct (k =? n) eqn:Kn.
    + apply Nat.eqb_eq in Kn; subst k.
      destruct (existsb (Nat.eqb n) ps) eqn:K; simpl.
      * exact IH.
      * rewrite Nat.eqb_refl. reflexivity.
    + destruct (negb (existsb (Nat.eqb k) ps)); simpl;
        [rewrite Kn|]; exact IH.
Qed.

Lemma capture_reset (ps : list nat) (cs : Captures) (n : nat) (v : nat * nat) :
  capture n (reset ps cs) = Some v -> capture n cs = Some v.
Proof.
  rewrite capture_reset_eq.
  destruct (existsb (Nat.eqb n) ps); [discriminate | exact id].
Qed.

(** A match moves forward by at least [minLength], stays inside the
    input, and every group that it sets lies inside the part it took. *)
Lemma Sem_bounds (r : re) (x y : MatchState) :
  Sem r x y ->
  endIndex x + minLength r <= endIndex y /\
  (endIndex x <= String.length input -> endIndex y <= String.length input) /\
  (forall n a b, capture n (captures y) = Some (a, b) ->
     capture n (captures x) = Some (a, b) \/
     (endIndex x <= a /\ a <= b /\ b <= endIndex y)).
Proof.
  induction 1 as
    [x|invert A x ch G T|x ch G T|r1 r2 x y z _ IH1 _ IH2
    |r1 r2 x y _ IH|r1 r2 x y _ IH|r x|r x y z _ IH1 Hne _ IH2
    |n r x y _ IH|x B|x B]; simpl in *.
  - repeat split; auto; lia.
  - apply get_Some_lt in G. repeat split; auto; lia.
  - apply get_Some_lt in G. repeat split; auto; lia.
  - destruct IH1 as (L1 & B1 & C1), IH2 as (L2 & B2 & C2).
    repeat split; [lia | auto |].
    intros n a b Hc. destruct (C2 n a b Hc) as [Hy|Hy].
    + destruct (C1 n a b Hy) as [Hx|Hx]; [left; exact Hx | right; lia].
    + right; lia.
  - destruct IH as (L & B & C). repeat split; [lia | auto | auto].
  - destruct IH as (L & B & C). repeat split; [lia | auto | auto].
  - repeat split; auto; lia.
  - destruct IH1 as (L1 & B1 & C1), IH2 as (L2 & B2 & C2).
    repeat split; [lia | auto |].
    intros n a b Hc. destruct (C2 n a b Hc) as [Hy|Hy].
    + destruct (C1 n a b Hy) as [Hx|Hx]; [|right; lia].
      left. eapply capture_reset; exact Hx.
    + right; lia.
  - destruct IH as (L & B & C). repeat split; [lia | auto |].
    intros k a b Hc. destruct (n =? k) eqn:E.
    + inversion Hc; subst. right; lia.
    + destruct (C k a b Hc) as [Hx|Hx]; [left; exact Hx | right; lia].
  - repeat split; auto; lia.
  - repeat split; auto; lia.
Qed.

Lemma match_at_bounds (r : re) (i : nat) (z : MatchState) :
  match_at fl input r i = Some z ->
  i + minLength r <= endIndex z /\
  (i <= String.length input -> endIndex z <= String.length input) /\
  (forall n a b, capture n (captures z) = Some (a, b) ->
     i <= a /\ a <= b /\ b <= endIndex z).
Proof.
  unfold match_at. intros H. apply compile_sound in H.
  destruct H as (y & Hy & Hc). inversion Hc; subst y; clear Hc.
  apply Sem_bounds in Hy. simpl in Hy. destruct Hy as (L & B & C).
  repeat split; auto; destruct (C n a b H) as [Hx|Hx]; try discriminate; lia.
Qed.

Lemma search_bounds (r : re) (n i j : nat) (z : MatchState) :
  search fl input r n i = Some (j, z) ->
  i <= j /\ j < i + n /\ match_at fl input r j = Some z.
Proof.
  revert i; induction n as [|n IH]; intros i H; simpl in H; [discriminate|].
  destruct (match_at fl input r i) as [z'|] eqn:E.
  - inversion H; subst. repeat split; auto; lia.
  - destruct (sticky fl); [discriminate|].
    apply IH in H. destruct H as (? & ? & ?). repeat split; auto; lia.
Qed.

End Soundness.

(** The object that [exec] leaves differs from the one it was called on
    in [lastIndex] only. *)
Lemma exec_same_pattern (R : RegExp) (S : string) :
  source (exec R S).2 = source R /\ flags (exec R S).2 = flags R.
Proof.
  unfold exec.
  destruct (search _ _ _ _ _) as [[i z]|];
    destruct (moving R); simpl; auto.
Qed.

(** A successful [exec]: where the match lies, and the cursor after it. *)
Lemma exec_Some (R R' : RegExp) (S : string) (m : RegExpExecArray) :
  exec R S = (Some m, R') ->
  input m = S /\
  (if moving R then lastIndex R else 0) <= index m /\
  index m + minLength (source R) <= matchEnd m /\
  matchEnd m <= String.length S /\
  (forall n a b, capture n (groups m) = Some (a, b) ->
     index m <= a /\ a <= b /\ b <= matchEnd m) /\
  R' = (if moving R then set_lastIndex R (matchEnd m) else R).
Proof.
  unfold exec, moving. intros H.
  destruct (search _ _ _ _ _) as [[i z]|] eqn:E; [|discriminate].
  inversion H; subst; clear H; simpl.
  apply search_bounds in E. destruct E as (Lo & Hi & M).
  apply match_at_bounds in M. destruct M as (L & B & C).
  repeat split; auto; try lia; try (apply C in H; lia).
Qed.

Lemma exec_None (R R' : RegExp) (S : string) :
  exec R S = (None, R') ->
  R' = (if moving R then set_lastIndex R 0 else R).
Proof.
  unfold exec, moving. intros H.
  destruct (search _ _ _ _ _) as [[i z]|] eqn:E; [discriminate|].
  inversion H; reflexivity.
Qed.

End EngineFacts.

(** ** The scenarios of the specification, evaluated *)

Module Examples.

(** Scenario A: one literal on the line, and its matches in the target. *)
Example scenario_A_scan :
  map (fun m => (group m 3, group m 4, spanStart m, spanEnd m))
      (scan regexRegex Scenario.sourceLine) =
  [("ab*"%string, "g"%string, 10, 16)].
Proof. vm_compute. reflexivity. Qed.

Example scenario_A_matches :
  map m_range
      (findMatches (mkRegexMatch Scenario.tsDocument Scenario.abStarG
                                 (Range4 0 10 0 16))
                   Scenario.targetA true).1 =
  [Range4 0 0 0 1; Range4 0 2 0 4; Range4 0 5 0 8].
Proof. vm_compute. reflexivity. Qed.

(** Scenario C: the prefix-sigil dialect. *)
Example scenario_C_scan :
  map (fun m => (group m 3, group m 4, spanStart m, spanEnd m))
      (scan haxeRegexRegex Scenario.haxeLine) =
  [("a.b"%string, "si"%string, 8, 16)].
Proof. vm_compute. reflexivity. Qed.

(** Two literals that share a boundary character: the second one is not
    a candidate, the space before it being part of the first match. *)
Example shared_boundary :
  map (fun m => (group m 3, spanStart m, spanEnd m))
      (scan regexRegex "/a/ /b/") = [("a"%string, 0, 3)].
Proof. vm_compute. reflexivity. Qed.

(** A sticky pattern without [g], evaluated without augmentation, moves
    its cursor from one evaluation to the next. *)
Example sticky_cursor :
  let y := mkFlags false false false false false true in
  let first := findMatches (mkRegexMatch Scenario.tsDocument
                              (mkRegExp (Chr "a") y 0) (Range4 0 0 0 0))
                           Scenario.twoLines false in
  map m_range first.1 = [Range4 0 0 0 1] /\
  lastIndex (rm_regex first.2) = 1 /\
  map m_range (findMatches first.2 Scenario.twoLines false).1 = [].
Proof. vm_compute. repeat split; reflexivity. Qed.

End Examples.

(** ** The literal scanner and the caret tracker *)

Module ScannerFacts.

Import EngineFacts.

Lemma getRegexRegex_cases (languageId : string) :
  getRegexRegex languageId = regexRegex \/
  getRegexRegex languageId = phpRegexRegex \/
  getRegexRegex languageId = haxeRegexRegex.
Proof.
  unfold getRegexRegex.
  destruct (String.eqb languageId "haxe"); [auto|].
  destruct (String.eqb languageId "php"); auto.
Qed.

(** Each grammar is global and none of its matches is empty. *)
Lemma getRegexRegex_progress (languageId : string) :
  global (flags (getRegexRegex languageId)) = true /\
  3 <= minLength (source (getRegexRegex languageId)).
Proof.
  destruct (getRegexRegex_cases languageId) as [E|[E|E]]; rewrite E;
    split; try reflexivity; vm_compute; lia.
Qed.

(** On a global pattern without empty matches the loop reaches [null]
    within the fuel that [scan] and [findRegexAtCaret] give it. *)
Lemma execLoop_enough (text : string) (fuel : nat) :
  forall R : RegExp,
    global (flags R) = true ->
    1 <= minLength (source R) ->
    String.length text - lastIndex R < fuel ->
    exists ms, execLoop fuel R text = Some ms.
Proof.
  induction fuel as [|fuel IH]; intros R G M F; [lia|]. simpl.
  destruct (exec R text) as [[m|] R'] eqn:E; [|eexists; reflexivity].
  apply exec_Some in E. destruct E as (_ & Lo & Len & Hi & _ & ->).
  unfold moving in *. rewrite G in *. simpl in *.
  destruct (IH (set_lastIndex R (matchEnd m))) as (ms & ->); simpl; auto; [lia|].
  eexists; reflexivity.
Qed.

Lemma execLoop_chained (text : string) (fuel : nat) :
  forall (R : RegExp) (ms : list RegExpExecArray),
    global (flags R) = true ->
    execLoop fuel R text = Some ms ->
    chained text (lastIndex R) ms.
Proof.
  induction fuel as [|fuel IH]; intros R ms G H; simpl in H; [discriminate|].
  destruct (exec R text) as [[m|] R'] eqn:E.
  - destruct (execLoop fuel R' text) as [ms'|] eqn:L; [|discriminate].
    inversion H; subst ms; clear H.
    apply exec_Some in E. destruct E as (I & Lo & Len & Hi & C & ->).
    unfold moving in *. rewrite G in *. simpl in *.
    split.
    + repeat split; auto; try lia; apply C in H; lia.
    + exact (IH (set_lastIndex R (matchEnd m)) _ G L).
  - inversion H. exact I.
Qed.

Lemma group_length (text : string) (l : nat) (m : RegExpExecArray) (n : nat) :
  wellPlaced text l m ->
  index m + String.length (group m n) <= matchEnd m.
Proof.
  intros (I & Lo & Le & Hi & C). unfold group.
  destruct (capture n (groups m)) as [[a b]|] eqn:E; simpl; [|lia].
  apply C in E. rewrite length_substring; rewrite ?I; lia.
Qed.

Lemma spanStart_bounds (text : string) (l : nat) (m : RegExpExecArray) :
  wellPlaced text l m -> l <= spanStart m /\ spanStart m <= matchEnd m.
Proof.
  intros W. pose proof (group_length text l m 1 W) as G.
  destruct W as (_ & Lo & _). unfold spanStart. lia.
Qed.

Lemma chained_lower (text : string) (ms : list RegExpExecArray) :
  forall l m, chained text l ms -> In m ms -> l <= spanStart m.
Proof.
  induction ms as [|m0 ms IH]; intros l m C I; [destruct I|].
  destruct C as (W & C). pose proof (spanStart_bounds _ _ _ W) as (B1 & B2).
  destruct I as [<-|I]; [exact B1|].
  specialize (IH _ _ C I). lia.
Qed.

(** The caret loop stops at the first result whose span does not end
    before the caret. *)
Lemma caretLoop_find (text : string) (caret fuel : nat) :
  forall (R : RegExp) (ms : list RegExpExecArray),
    execLoop fuel R text = Some ms ->
    caretLoop fuel R text caret =
    Some (List.find (fun m => negb (spanEnd m <? caret)) ms).
Proof.
  induction fuel as [|fuel IH]; intros R ms H; simpl in *; [discriminate|].
  destruct (exec R text) as [[m|] R'] eqn:E.
  - destruct (execLoop fuel R' text) as [ms'|] eqn:L; [|discriminate].
    inversion H; subst ms; clear H. simpl.
    destruct (spanEnd m <? caret); simpl; [|reflexivity].
    apply IH. exact L.
  - inversion H. reflexivity.
Qed.

Lemma find_nowhere {A : Type} (f : A -> bool) (l : list A) :
  (forall x, In x l -> f x = false) -> List.find f l = None.
Proof.
  induction l as [|a l IH]; intros H; simpl; [reflexivity|].
  rewrite (H a (or_introl eq_refl)). apply IH.
  intros x I. apply H. right. exact I.
Qed.

(** In a chain, the first result that ends at or after the caret is the
    only one that can straddle it. *)
Lemma first_straddling (text : string) (caret : nat) (ms : list RegExpExecArray) :
  forall l, chained text l ms ->
    match List.find (fun m => negb (spanEnd m <? caret)) ms with
    | Some m => if spanStart m <=? caret then Some m else None
    | None => None
    end = List.find (straddles caret) ms.
Proof.
  induction ms as [|m ms IH]; intros l C; simpl; [reflexivity|].
  destruct C as (W & C). unfold straddles at 1.
  destruct (spanEnd m <? caret) eqn:E; simpl.
  - apply Nat.ltb_lt in E.
    replace (caret <=? spanEnd m) with false
      by (symmetry; apply Nat.leb_gt; lia).
    rewrite andb_false_r. eapply IH; exact C.
  - apply Nat.ltb_ge in E.
    replace (caret <=? spanEnd m) with true
      by (symmetry; apply Nat.leb_le; lia).
    rewrite andb_true_r.
    destruct (spanStart m <=? caret) eqn:S; [reflexivity|].
    apply Nat.leb_gt in S. symmetry. apply find_nowhere.
    intros m' I. unfold straddles.
    pose proof (chained_lower _ _ _ _ C I) as B.
    pose proof (spanStart_bounds _ _ _ W) as (_ & B').
    replace (spanStart m' <=? caret) with false
      by (symmetry; apply Nat.leb_gt; lia).
    reflexivity.
Qed.

(** [scan] is the whole loop: its fuel is enough for each grammar. *)
Lemma scan_fuel (languageId text : string) :
  execLoop (S (String.length text))
           (set_lastIndex (getRegexRegex languageId) 0) text =
  Some (scan (getRegexRegex languageId) text).
Proof.
  destruct (getRegexRegex_progress languageId) as (G & M).
  destruct (execLoop_enough text (S (String.length text))
              (set_lastIndex (getRegexRegex languageId) 0) G) as (ms & E);
    [simpl; lia | simpl; lia |].
  unfold scan. rewrite E. reflexivity.
Qed.

Lemma scan_chained (languageId text : string) :
  chained text 0 (scan (getRegexRegex languageId) text).
Proof.
  destruct (getRegexRegex_progress languageId) as (G & _).
  exact (execLoop_chained text _ (set_lastIndex (getRegexRegex languageId) 0)
           _ G (scan_fuel languageId text)).
Qed.

End ScannerFacts.

(** ** The three grammars, group by group *)

Module GrammarFacts.

Import EngineFacts ScannerFacts.

Lemma substring_head (s : string) (a n : nat) (c : ascii) :
  String.get a s = Some c ->
  substring a (S n) s = String c (substring (S a) n s).
Proof.
  revert a; induction s as [|c' s IH]; intros [|a] H; simpl in *;
    try discriminate.
  - inversion H. destruct s; reflexivity.
  - rewrite (IH a H). reflexivity.
Qed.

Lemma substring_app (s : string) (a n k : nat) :
  substring a (n + k) s = (substring a n s +:+ substring (a + n) k s)%string.
Proof.
  revert a n; induction s as [|c s IH]; intros a n.
  - destruct a, n, k; reflexivity.
  - destruct a as [|a]; simpl.
    + destruct n as [|n]; simpl; [reflexivity|].
      rewrite (IH 0 n). reflexivity.
    + apply IH.
Qed.

Lemma reset_none (cs : Captures) : reset [] cs = cs.
Proof.
  unfold reset. induction cs as [|e cs IH]; [reflexivity|].
  simpl. f_equal. exact IH.
Qed.

Section Inversions.

Variable fl : Flags.
Variable input : string.
Hypothesis caseSensitive : ignoreCase fl = false.

Local Abbreviation Sem := (Sem fl input).

(** A pattern without groups leaves the captures as they are. *)
Lemma Sem_no_parens (r : re) (x y : MatchState) :
  Sem r x y -> parens r = [] -> captures y = captures x.
Proof.
  induction 1 as
    [x|invert A x ch G T|x ch G T|r1 r2 x y z _ IH1 _ IH2
    |r1 r2 x y _ IH|r1 r2 x y _ IH|r x|r x y z _ IH1 Hne _ IH2
    |n r x y _ IH|x B|x B]; simpl; intros P; try reflexivity.
  - apply app_eq_nil in P. destruct P as (P1 & P2).
    rewrite (IH2 P2). exact (IH1 P1).
  - apply app_eq_nil in P. apply IH. tauto.
  - apply app_eq_nil in P. apply IH. tauto.
  - rewrite (IH2 P), (IH1 P). simpl. rewrite P. apply reset_none.
  - discriminate.
Qed.

Lemma Sem_class (A : ascii -> bool) (x y : MatchState) :
  Sem (Cls false A) x y ->
  exists ch, String.get (endIndex x) input = Some ch /\ A ch = true /\
             y = mkState (S (endIndex x)) (captures x).
Proof.
  intros H. inversion H; subst. exists ch.
  unfold in_set in *. rewrite caseSensitive in *. simpl in *. auto.
Qed.

Lemma Sem_chr (c : ascii) (x y : MatchState) :
  Sem (Chr c) x y ->
  String.get (endIndex x) input = Some c /\
  y = mkState (S (endIndex x)) (captures x).
Proof.
  intros H. apply Sem_class in H. destruct H as (ch & G & E & ->).
  apply Ascii.eqb_eq in E. subst ch. auto.
Qed.

Lemma Sem_group (n : nat) (r : re) (x z : MatchState) :
  Sem (Group n r) x z ->
  parens r = [] ->
  endIndex x + minLength r <= endIndex z /\
  captures z = (n, (endIndex x, endIndex z)) :: captures x.
Proof.
  intros H P. inversion H as [| | | | | | | |n' r' x' y Hr| |]; subst. simpl.
  rewrite (Sem_no_parens _ _ _ Hr P).
  apply Sem_bounds in Hr. split; [tauto | reflexivity].
Qed.

(** Slash, body, slash, flags: where each part lies. *)
Lemma Sem_delimited (flagChars : string) (x z : MatchState) :
  Sem (delimited flagChars) x z ->
  exists e3 : nat,
    String.get (endIndex x) input = Some "/"%char /\
    S (endIndex x) < e3 /\
    String.get e3 input = Some "/"%char /\
    S e3 <= endIndex z /\
    captures z =
    (4, (S e3, endIndex z)) :: (3, (S (endIndex x), e3)) :: captures x.
Proof.
  unfold delimited. intros H.
  inversion H as [| | |? ? ? y1 ? H1 H2| | | | | | |]; subst; clear H.
  apply Sem_chr in H1. destruct H1 as (G1 & ->).
  inversion H2 as [| | |? ? ? y2 ? H3 H4| | | | | | |]; subst; clear H2.
  apply Sem_group in H3; [|reflexivity]. destruct H3 as (L3 & C3).
  inversion H4 as [| | |? ? ? y3 ? H5 H6| | | | | | |]; subst; clear H4.
  apply Sem_chr in H5. destruct H5 as (G5 & ->).
  apply Sem_group in H6; [|reflexivity]. destruct H6 as (L6 & C6).
  simpl in *. exists (endIndex y2). rewrite C6, C3.
  repeat split; auto; lia.
Qed.

End Inversions.

(** Every result of the loop has a property that every result of [exec]
    on the pattern has, whatever the cursor. *)
Lemma execLoop_all (P : RegExpExecArray -> Prop) (text : string) (R0 : RegExp) :
  global (flags R0) = true ->
  (forall l m R', exec (set_lastIndex R0 l) text = (Some m, R') -> P m) ->
  forall fuel l ms,
    execLoop fuel (set_lastIndex R0 l) text = Some ms -> Forall P ms.
Proof.
  intros G HP. induction fuel as [|fuel IH]; intros l ms H; simpl in H;
    [discriminate|].
  destruct (exec (set_lastIndex R0 l) text) as [[m|] R'] eqn:E.
  - destruct (execLoop fuel R' text) as [ms'|] eqn:L; [|discriminate].
    inversion H; subst ms; clear H.
    constructor; [exact (HP _ _ _ E)|].
    apply exec_Some in E. destruct E as (_ & _ & _ & _ & _ & ->).
    unfold moving in L. simpl in L. rewrite G in L. simpl in L.
    exact (IH _ _ L).
  - inversion H. constructor.
Qed.

Lemma exec_Sem (R R' : RegExp) (text : string) (m : RegExpExecArray) :
  exec R text = (Some m, R') ->
  exists z,
    Sem (flags R) text (source R) (mkState (index m) []) z /\
    groups m = captures z /\ matchEnd m = endIndex z /\ input m = text /\
    matchEnd m <= String.length text.
Proof.
  intros E. pose proof (exec_Some _ _ _ _ E) as (_ & _ & _ & Hi & _).
  unfold exec in E.
  destruct (search _ _ _ _ _) as [[i z]|] eqn:S; [|discriminate].
  inversion E; subst; clear E. simpl in *.
  apply search_bounds in S. destruct S as (_ & _ & M).
  unfold match_at in M. apply compile_sound in M.
  destruct M as (y & Hy & Some_y). inversion Some_y; subst y.
  exists z. auto.
Qed.

Lemma delimited_text (text : string) (e1 e3 e4 : nat) :
  String.get e1 text = Some "/"%char ->
  S e1 < e3 ->
  String.get e3 text = Some "/"%char ->
  S e3 <= e4 ->
  substring e1 (e4 - e1) text =
  String "/" (substring (S e1) (e3 - S e1) text +:+
              String "/" (substring (S e3) (e4 - S e3) text)).
Proof.
  intros G1 L1 G3 L3.
  replace (e4 - e1) with (S ((e3 - S e1) + S (e4 - S e3))) by lia.
  rewrite (substring_head _ _ _ _ G1), substring_app.
  replace (S e1 + (e3 - S e1)) with e3 by lia.
  rewrite (substring_head _ _ _ _ G3). reflexivity.
Qed.

Lemma delimitedAt_intro (m : RegExpExecArray) (from e3 to : nat) :
  String.get from (input m) = Some "/"%char ->
  S from < e3 ->
  String.get e3 (input m) = Some "/"%char ->
  S e3 <= to ->
  to <= String.length (input m) ->
  capture 3 (groups m) = Some (S from, e3) ->
  capture 4 (groups m) = Some (S e3, to) ->
  delimitedAt m from to.
Proof.
  intros G1 L1 G3 L3 B C3 C4. unfold delimitedAt, group.
  rewrite C3, C4. repeat split; try lia.
  apply delimited_text; assumption.
Qed.

Ltac split_seq H y H1 H2 :=
  inversion H as [| | |? ? ? y ? H1 H2| | | | | | |]; subst; clear H.

Ltac open_group H y Hr :=
  inversion H as [| | | | | | | |? ? ? y Hr| |]; subst; clear H.

Ltac span_lengths :=
  unfold spanStart, spanEnd, group;
  repeat match goal with
  | E : groups ?m = _ |- _ => rewrite E
  end; simpl;
  repeat match goal with
  | E : input ?m = _ |- _ => rewrite E
  end;
  rewrite ?length_substring by lia.

(** The default grammar: the reported span is the delimiter-to-flags
    text. *)
Lemma regexRegex_parts (text : string) (l : nat) (m : RegExpExecArray)
    (R' : RegExp) :
  exec (set_lastIndex regexRegex l) text = (Some m, R') ->
  input m = text /\ delimitedAt m (spanStart m) (spanEnd m).
Proof.
  intros E. apply exec_Sem in E.
  destruct E as (z & H & Gs & Me & In & Hi).
  cbv [source flags set_lastIndex regexRegex] in H.
  split; [exact In|].
  split_seq H y1 H1 H2.
  apply Sem_group in H1; try reflexivity. destruct H1 as (L1 & C1).
  split_seq H2 y2 H3 H4. open_group H3 y2' Hd.
  apply Sem_delimited in Hd; try reflexivity.
  destruct Hd as (e3 & G1 & L3 & G3 & L4 & Cd).
  apply Sem_group in H4; try reflexivity. destruct H4 as (L5 & C5).
  cbn [endIndex captures] in *. rewrite Cd, C1 in C5. rewrite C5 in Gs.
  assert (S1 : spanStart m = endIndex y1) by (span_lengths; lia).
  assert (S2 : spanEnd m = endIndex y2') by (span_lengths; lia).
  rewrite S1, S2.
  apply (delimitedAt_intro m _ e3); rewrite ?Gs; simpl; auto; lia.
Qed.

(** The prefix-sigil grammar: the reported span starts at the tilde, the
    delimiter-to-flags text follows it. *)
Lemma haxeRegexRegex_parts (text : string) (l : nat) (m : RegExpExecArray)
    (R' : RegExp) :
  exec (set_lastIndex haxeRegexRegex l) text = (Some m, R') ->
  input m = text /\
  charAt m (spanStart m) "~" /\
  delimitedAt m (S (spanStart m)) (spanEnd m).
Proof.
  intros E. apply exec_Sem in E.
  destruct E as (z & H & Gs & Me & In & Hi).
  cbv [source flags set_lastIndex haxeRegexRegex] in H.
  split; [exact In|].
  split_seq H y1 H1 H2.
  apply Sem_group in H1; try reflexivity. destruct H1 as (L1 & C1).
  split_seq H2 y2 H3 H4. open_group H3 y2' Hs.
  split_seq Hs yt Ht Hd.
  apply Sem_chr in Ht; try reflexivity. destruct Ht as (Gt & ->).
  apply Sem_delimited in Hd; try reflexivity.
  destruct Hd as (e3 & G1 & L3 & G3 & L4 & Cd).
  apply Sem_group in H4; try reflexivity. destruct H4 as (L5 & C5).
  cbn [endIndex captures] in *. rewrite Cd, C1 in C5. rewrite C5 in Gs.
  assert (S1 : spanStart m = endIndex y1) by (span_lengths; lia).
  assert (S2 : spanEnd m = endIndex y2') by (span_lengths; lia).
  rewrite S1, S2. split.
  - exists "~"%char. split; [exact Gt | reflexivity].
  - apply (delimitedAt_intro m _ e3); rewrite ?Gs; simpl; auto; lia.
Qed.

(** The quoted-string grammar: the reported span starts at the character
    before the opening delimiter and ends one short of the flags' end;
    that character and the one after the flags are members of the class
    (single quote, bar, double quote). *)
Lemma phpRegexRegex_parts (text : string) (l : nat) (m : RegExpExecArray)
    (R' : RegExp) :
  exec (set_lastIndex phpRegexRegex l) text = (Some m, R') ->
  input m = text /\
  charAt m (spanStart m) quoteClass /\
  delimitedAt m (S (spanStart m)) (S (spanEnd m)) /\
  charAt m (S (spanEnd m)) quoteClass.
Proof.
  intros E. apply exec_Sem in E.
  destruct E as (z & H & Gs & Me & In & Hi).
  cbv [source flags set_lastIndex phpRegexRegex] in H.
  split; [exact In|].
  split_seq H y1 H1 H2.
  apply Sem_group in H1; try reflexivity. destruct H1 as (L1 & C1).
  split_seq H2 yq Hq H2'.
  apply Sem_class in Hq; try reflexivity. destruct Hq as (q & Gq & Mq & ->).
  split_seq H2' y2 H3 H4. open_group H3 y2' Hd.
  apply Sem_delimited in Hd; try reflexivity.
  destruct Hd as (e3 & G1 & L3 & G3 & L4 & Cd).
  split_seq H4 yq' Hq' H5.
  apply Sem_class in Hq'; try reflexivity.
  destruct Hq' as (q' & Gq' & Mq' & ->).
  apply Sem_group in H5; try reflexivity. destruct H5 as (L5 & C5).
  cbn [endIndex captures] in *. rewrite Cd, C1 in C5. rewrite C5 in Gs.
  assert (S1 : spanStart m = endIndex y1) by (span_lengths; lia).
  assert (S2 : S (spanEnd m) = endIndex y2') by (span_lengths; lia).
  rewrite S1, S2. repeat split.
  - exists q. auto.
  - apply (delimitedAt_intro m _ e3); rewrite ?Gs; simpl; auto; lia.
  - lia.
  - lia.
  - exists q'. auto.
Qed.

Lemma scan_all (P : RegExpExecArray -> Prop) (languageId text : string) :
  (forall l m R',
     exec (set_lastIndex (getRegexRegex languageId) l) text = (Some m, R') ->
     P m) ->
  Forall P (scan (getRegexRegex languageId) text).
Proof.
  intros HP. destruct (getRegexRegex_progress languageId) as (G & _).
  exact (execLoop_all P text (getRegexRegex languageId) G HP _ 0 _
           (scan_fuel languageId text)).
Qed.

(** X25. Every candidate of the default grammar: pattern and flags are the
    texts between and after the delimiters, and the reported span is the
    delimiter-to-flags text. *)
Lemma default_candidates (text : string) :
  Forall (fun m => input m = text /\ delimitedAt m (spanStart m) (spanEnd m))
         (scan regexRegex text).
Proof.
  apply (scan_all _ "javascript" text). intros l m R'.
  apply regexRegex_parts.
Qed.

(** X26. Every candidate of the prefix-sigil grammar: the reported span is the
    tilde and the delimiter-to-flags text. *)
Lemma haxe_candidates (text : string) :
  Forall (fun m => input m = text /\
                   charAt m (spanStart m) "~" /\
                   delimitedAt m (S (spanStart m)) (spanEnd m))
         (scan haxeRegexRegex text).
Proof.
  apply (scan_all _ "haxe" text). intros l m R'.
  apply haxeRegexRegex_parts.
Qed.

(** X27. Every candidate of the quoted-string grammar: the reported span lies
    one character to the left of the delimiter-to-flags text, on the
    enclosing character, and the two enclosing characters are members of
    the class, each on its own. *)
Lemma php_candidates (text : string) :
  Forall (fun m => input m = text /\
                   charAt m (spanStart m) quoteClass /\
                   delimitedAt m (S (spanStart m)) (S (spanEnd m)) /\
                   charAt m (S (spanEnd m)) quoteClass)
         (scan phpRegexRegex text).
Proof.
  apply (scan_all _ "php" text). intros l m R'.
  apply phpRegexRegex_parts.
Qed.

End GrammarFacts.

Module TrackerFacts.

Import EngineFacts ScannerFacts.

(** The tracker in terms of the scanner's candidates. *)
Lemma findRegexAtCaret_scan (parsePattern : string -> Flags -> option re)
    (editor : TextEditor) :
  findRegexAtCaret parsePattern editor =
  match List.find (straddles (character (anchor editor)))
          (scan (getRegexRegex (languageId (document editor)))
                (substring 0 1000
                   (lineAt (document editor) (line (anchor editor))))) with
  | Some m =>
      createRegexMatch parsePattern (document editor) (line (anchor editor)) m
  | None => None
  end.
Proof.
  unfold findRegexAtCaret.
  set (text := substring 0 1000 _).
  set (lang := languageId (document editor)).
  rewrite (caretLoop_find text _ _ _ _ (scan_fuel lang text)).
  rewrite <- (first_straddling text _ _ 0 (scan_chained lang text)).
  destruct (List.find _ _) as [m|]; [|reflexivity].
  destruct (spanStart m <=? _); reflexivity.
Qed.

End TrackerFacts.

(** ** The match evaluator *)

Module EvaluatorFacts.

Import EngineFacts.

Lemma skipEmpty_same_pattern (R : RegExp) (m : RegExpExecArray) :
  source (skipEmpty R m) = source R /\ flags (skipEmpty R m) = flags R.
Proof.
  unfold skipEmpty. destruct (lastIndex R =? index m); simpl; auto.
Qed.

(** One turn of the loop on a global pattern moves the cursor forward,
    by one past the start of an empty match. *)
Lemma turn_progress (R R' : RegExp) (text : string) (m : RegExpExecArray) :
  global (flags R) = true ->
  exec R text = (Some m, R') ->
  lastIndex R <= String.length text /\
  lastIndex R < lastIndex (skipEmpty R' m) /\
  (matchEnd m = index m -> lastIndex (skipEmpty R' m) = S (index m)).
Proof.
  intros G E. apply exec_Some in E.
  destruct E as (_ & Lo & Len & Hi & _ & ->).
  unfold moving in *. rewrite G in *. simpl in *.
  unfold skipEmpty. simpl.
  destruct (matchEnd m =? index m) eqn:Q; simpl.
  - apply Nat.eqb_eq in Q. repeat split; lia.
  - apply Nat.eqb_neq in Q. repeat split; lia.
Qed.

(** The fuel that ends the loop: the positions left on a global pattern,
    two turns otherwise. *)
Lemma matchLoop_enough (document : TextDocument) (text : string) (fuel : nat) :
  forall (R : RegExp) (matches : list Match),
    (if global (flags R)
     then 1 + String.length text - lastIndex R
     else if List.length matches =? 0 then 1 else 0) < fuel ->
    exists res, matchLoop fuel R document text matches = Some res.
Proof.
  induction fuel as [|fuel IH]; intros R matches F; [lia|]. simpl.
  destruct (global (flags R)) eqn:G; simpl.
  - destruct (exec R text) as [[m|] R'] eqn:E; [|eexists; reflexivity].
    pose proof (turn_progress _ _ _ _ G E) as (B & P & _).
    apply exec_Some in E. destruct E as (_ & _ & _ & _ & _ & ->).
    apply IH. destruct (skipEmpty_same_pattern
      (if moving R then set_lastIndex R (matchEnd m) else R) m) as (_ & ->).
    unfold moving in *. rewrite G in *. simpl in *. rewrite G. lia.
  - destruct (List.length matches =? 0) eqn:L; [|eexists; reflexivity].
    destruct (exec R text) as [[m|] R'] eqn:E; [|eexists; reflexivity].
    apply exec_Some in E. destruct E as (_ & _ & _ & _ & _ & ->).
    apply IH. destruct (skipEmpty_same_pattern
      (if moving R then set_lastIndex R (matchEnd m) else R) m) as (_ & ->).
    replace (flags (if moving R then set_lastIndex R (matchEnd m) else R))
      with (flags R) by (destruct (moving R); reflexivity).
    rewrite G, length_app. simpl.
    replace (List.length matches + 1 =? 0) with false
      by (symmetry; apply Nat.eqb_neq; lia).
    lia.
Qed.

(** More fuel changes nothing once the loop has ended. *)
Lemma matchLoop_more_fuel (document : TextDocument) (text : string) (fuel : nat) :
  forall (R : RegExp) (matches : list Match) res,
    matchLoop fuel R document text matches = Some res ->
    matchLoop (S fuel) R document text matches = Some res.
Proof.
  induction fuel as [|fuel IH]; intros R matches res H; [discriminate|].
  change (matchLoop (S (S fuel)) R document text matches) with
    (if global (flags R) || (List.length matches =? 0) then
       match exec R text with
       | (None, regex') => Some (matches, regex')
       | (Some m, regex') =>
           matchLoop (S fuel) (skipEmpty regex' m) document text
             (matches ++
              [mkMatch (mkRange (positionAt document (index m))
                                (positionAt document
                                   (index m + String.length (group0 m))))])
       end
     else Some (matches, R)).
  simpl in H.
  destruct (global (flags R) || (List.length matches =? 0)); [|exact H].
  destruct (exec R text) as [[m|] R']; [|exact H].
  apply IH. exact H.
Qed.

Lemma matchLoop_total (R : RegExp) (document : TextDocument) :
  exists res,
    matchLoop (2 + String.length (getText document)) R document
              (getText document) [] = Some res.
Proof.
  apply matchLoop_enough. destruct (global (flags R)); simpl; lia.
Qed.

Lemma runMatchLoop_eq (R : RegExp) (document : TextDocument) res :
  matchLoop (2 + String.length (getText document)) R document
            (getText document) [] = Some res ->
  runMatchLoop R document = res.
Proof. unfold runMatchLoop. intros ->. reflexivity. Qed.

(** The loop leaves the pattern and the flags of its object alone. *)
Lemma matchLoop_same_pattern (document : TextDocument) (text : string) (fuel : nat) :
  forall (R : RegExp) (matches : list Match) res,
    matchLoop fuel R document text matches = Some res ->
    source res.2 = source R /\ flags res.2 = flags R.
Proof.
  induction fuel as [|fuel IH]; intros R matches res H; simpl in H;
    [discriminate|].
  destruct (global (flags R) || (List.length matches =? 0));
    [|inversion H; auto].
  pose proof (exec_same_pattern R text) as (S1 & F1).
  destruct (exec R text) as [[m|] R']; simpl in *.
  - apply IH in H. destruct H as (-> & ->).
    destruct (skipEmpty_same_pattern R' m) as (-> & ->). auto.
  - inversion H; subst; auto.
Qed.

Lemma runMatchLoop_same_pattern (R : RegExp) (document : TextDocument) :
  source (runMatchLoop R document).2 = source R /\
  flags (runMatchLoop R document).2 = flags R.
Proof.
  destruct (matchLoop_total R document) as (res & E).
  rewrite (runMatchLoop_eq _ _ _ E).
  exact (matchLoop_same_pattern _ _ _ _ _ _ E).
Qed.




End EvaluatorFacts.


(** C6. With augmentation on and a pattern without [g] or without [m],
    the evaluation runs on an object of its own that has both flags, the
    other flags and the source as they were and the cursor at 0, and the
    object of the literal is as before; with augmentation off, or with
    both flags there, it runs on the object of the literal itself.  The
    pattern of the example on the two lines: two matches when augmented,
    one when not. *)
Theorem augmentation_policy (regexMatch : RegexMatch) (document : TextDocument)
    (addGMEnabled : bool) :
  let regex := rm_regex regexMatch in
  (addGMEnabled = true /\
   (global (flags regex) = false \/ multiline (flags regex) = false) ->
   exists derived : RegExp,
     addGM regex addGMEnabled = NewObject derived /\
     source derived = source regex /\
     flags derived = set_multiline (set_global (flags regex)) /\
     global (flags derived) = true /\ multiline (flags derived) = true /\
     lastIndex derived = 0 /\
     findMatches regexMatch document addGMEnabled =
     ((runMatchLoop derived document).1, regexMatch)) /\
  (addGMEnabled = false \/
   (global (flags regex) = true /\ multiline (flags regex) = true) ->
   addGM regex addGMEnabled = SameObject /\
   findMatches regexMatch document addGMEnabled =
   ((runMatchLoop regex document).1,
    mkRegexMatch (rm_document regexMatch) (runMatchLoop regex document).2
                 (rm_range regexMatch))) /\
  (createRegex basicParser "^a" "" = Some Scenario.caretA /\
   List.length
     (findMatches (mkRegexMatch Scenario.tsDocument Scenario.caretA
                                (Range4 0 0 0 0))
                  Scenario.twoLines true).1 = 2 /\
   List.length
     (findMatches (mkRegexMatch Scenario.tsDocument Scenario.caretA
                                (Range4 0 0 0 0))
                  Scenario.twoLines false).1 = 1).
Proof.
  intros regex. split; [|split].
  - intros (-> & H). unfold findMatches, addGM. fold regex.
    destruct (global (flags regex)) eqn:G, (multiline (flags regex)) eqn:M;
      simpl; try (destruct H; discriminate);
      eexists; (split; [reflexivity|]); simpl;
      unfold set_multiline, set_global; simpl; rewrite ?G, ?M;
      repeat split; reflexivity.
  - intros H. unfold findMatches, addGM. fold regex.
    replace (negb addGMEnabled ||
             (global (flags regex) && multiline (flags regex))) with true.
    + split; [reflexivity|]. destruct (runMatchLoop regex document); reflexivity.
    + destruct H as [->|(-> & ->)]; [reflexivity|].
      destruct addGMEnabled; reflexivity.
  - repeat split; vm_compute; reflexivity.
Qed.

(** ** The view synchronizer *)

Module SynchronizerFacts.

Import EngineFacts EvaluatorFacts.

Lemma sameLiteral_refl (a : RegexMatch) : sameLiteral a a.
Proof. repeat split. Qed.

Lemma sameLiteral_trans (a b c : RegexMatch) :
  sameLiteral a b -> sameLiteral b c -> sameLiteral a c.
Proof.
  intros (D1 & R1 & S1 & F1) (D2 & R2 & S2 & F2).
  repeat split; congruence.
Qed.

Lemma sameActive_refl (a : option RegexMatch) : sameActive a a.
Proof. destruct a; simpl; auto using sameLiteral_refl. Qed.

Lemma sameActive_trans (a b c : option RegexMatch) :
  sameActive a b -> sameActive b c -> sameActive a c.
Proof.
  destruct a, b, c; simpl; try tauto. apply sameLiteral_trans.
Qed.

Lemma findMatches_sameLiteral (regexMatch : RegexMatch)
    (document : TextDocument) (addGMEnabled : bool) :
  sameLiteral regexMatch (findMatches regexMatch document addGMEnabled).2.
Proof.
  unfold findMatches. destruct (addGM _ _); [|apply sameLiteral_refl].
  pose proof (runMatchLoop_same_pattern (rm_regex regexMatch) document)
    as (S1 & F1).
  destruct (runMatchLoop _ _) as [ms R']. simpl in *.
  repeat split; simpl; congruence.
Qed.

Lemma update_sameActive (e : TextEditor) (a : option RegexMatch) (u : Uri)
    (addGMEnabled : bool) (shown : Layers) :
  sameActive a (update e a u addGMEnabled shown).2.
Proof.
  unfold update. destruct a as [rm|]; simpl; [|exact I].
  destruct (_ || _); simpl; [|apply sameLiteral_refl].
  pose proof (findMatches_sameLiteral rm (document e) addGMEnabled) as H.
  destruct (findMatches _ _ _) as [ms rm']. exact H.
Qed.

Section Fold.

Variables (u : Uri) (addGMEnabled : bool).

Lemma visit_sameActive (st : Sync) (e : TextEditor) :
  sameActive (s_activeRegex st) (s_activeRegex (visit u addGMEnabled st e)).
Proof.
  unfold visit. destruct (_ || _); simpl; [|apply sameActive_refl].
  pose proof (update_sameActive e (s_activeRegex st) u addGMEnabled
                (shownOn (s_decorations st) (editorId e))) as H.
  destruct (update _ _ _ _ _) as [shown a]. exact H.
Qed.

Lemma fold_sameActive (es : list TextEditor) :
  forall st,
    sameActive (s_activeRegex st)
               (s_activeRegex (fold_left (visit u addGMEnabled) es st)).
Proof.
  induction es as [|e es IH]; intros st; simpl; [apply sameActive_refl|].
  eapply sameActive_trans; [apply visit_sameActive | apply IH].
Qed.

Lemma visit_here (st : Sync) (e : TextEditor) :
  shownOn (s_decorations (visit u addGMEnabled st e)) (editorId e) =
  visited u addGMEnabled (s_activeRegex st)
          (shownOn (s_decorations st) (editorId e)) e.
Proof.
  unfold visit, visited. destruct (_ || _); simpl; [|reflexivity].
  destruct (update _ _ _ _ _) as [shown a]. simpl.
  unfold shownOn. rewrite lookup_insert_eq. reflexivity.
Qed.

Lemma visit_elsewhere (st : Sync) (e : TextEditor) (k : nat) :
  k <> editorId e ->
  s_decorations (visit u addGMEnabled st e) !! k = s_decorations st !! k.
Proof.
  intros N. unfold visit. destruct (_ || _); simpl; [|reflexivity].
  destruct (update _ _ _ _ _) as [shown a]. simpl.
  rewrite lookup_insert_ne by congruence. reflexivity.
Qed.

Lemma fold_elsewhere (es : list TextEditor) (k : nat) :
  ~ In k (map editorId es) ->
  forall st,
    s_decorations (fold_left (visit u addGMEnabled) es st) !! k =
    s_decorations st !! k.
Proof.
  induction es as [|e es IH]; intros N st; simpl; [reflexivity|].
  simpl in N. rewrite IH by tauto. apply visit_elsewhere.
  intros E. apply N. left. congruence.
Qed.

Lemma visit_remove (st : Sync) (e : TextEditor) :
  s_remove (visit u addGMEnabled st e) = delete (editorId e) (s_remove st).
Proof.
  unfold visit. destruct (_ || _); simpl; [|reflexivity].
  destruct (update _ _ _ _ _); reflexivity.
Qed.

Lemma fold_remove (es : list TextEditor) (k : nat) :
  forall st,
    s_remove st !! k = None \/ In k (map editorId es) ->
    s_remove (fold_left (visit u addGMEnabled) es st) !! k = None.
Proof.
  induction es as [|e es IH]; intros st H; simpl in *;
    [destruct H as [H|[]]; exact H|].
  apply IH. rewrite visit_remove.
  destruct (decide (k = editorId e)) as [->|N].
  - left. apply lookup_delete_eq.
  - rewrite lookup_delete_ne by congruence. destruct H as [H|[H|H]]; auto.
    congruence.
Qed.

End Fold.

Lemma disposeAll_elsewhere (remove : gmap nat RegexMatchDecorator)
    (ds : gmap nat Layers) (k : nat) :
  remove !! k = None -> disposeAll remove ds !! k = ds !! k.
Proof.
  intros N. unfold disposeAll.
  assert (H : forall kv, In kv (map_to_list remove) -> kv.1 <> k).
  { intros [k' d] I E. simpl in E. subst k'.
    apply list_elem_of_In, elem_of_map_to_list in I. congruence. }
  induction (map_to_list remove) as [|kv l IH]; simpl; [reflexivity|].
  rewrite lookup_insert_ne by (apply H; left; reflexivity).
  apply IH. intros kv' I. apply H. right. exact I.
Qed.

(** What a recomputation leaves on a visible view: the result of the
    visit of that view, made with the active literal as the visits before
    left it. *)
Lemma updateDecorators_view (parsePattern : string -> Flags -> option re)
    (m : option RegexMatch) (w : World) (u : Uri) (e : TextEditor) :
  List.NoDup (map editorId (getVisibleTextEditors w)) ->
  isEditorEnabled w = true ->
  editorURI w = Some u ->
  In e (getVisibleTextEditors w) ->
  exists a : option RegexMatch,
    sameActive a (activeRegex (updateDecorators parsePattern m w)) /\
    shownOn (decorations (updateDecorators parsePattern m w)) (editorId e) =
    visited u (addGMEnabled w) a (shownOn (decorations w) (editorId e)) e.
Proof.
  intros ND En U I. unfold updateDecorators. rewrite En, U. simpl.
  set (a0 := match m with Some _ => _ | None => _ end).
  set (st0 := mkSync _ _ a0 _).
  apply in_split in I. destruct I as (pre & post & Split).
  rewrite Split in *. rewrite fold_left_app. simpl.
  set (st1 := fold_left _ pre st0).
  rewrite map_app in ND. simpl in ND. apply NoDup_remove_2 in ND.
  rewrite in_app_iff in ND.
  exists (s_activeRegex st1). split.
  - eapply sameActive_trans; [apply visit_sameActive | apply fold_sameActive].
  - unfold shownOn at 1. rewrite disposeAll_elsewhere.
    + rewrite fold_elsewhere by tauto.
      change (default noLayers (s_decorations (visit u (addGMEnabled w) st1 e)
                                  !! editorId e))
        with (shownOn (s_decorations (visit u (addGMEnabled w) st1 e))
                      (editorId e)).
      rewrite visit_here. unfold shownOn, st1.
      rewrite fold_elsewhere by tauto. reflexivity.
    + apply fold_remove. left. rewrite visit_remove. apply lookup_delete_eq.
Qed.

End SynchronizerFacts.

(** C1, as stated, fails: the literal of scenario A spans columns 10 to
    16, and the origin layer of its view is the one span 11 to 13. *)
Lemma origin_layer_is_not_the_literal_span :
  option_map rm_range
    (activeRegex (updateDecorators basicParser None Scenario.tsOpened)) =
  Some (Range4 0 10 0 16) /\
  regexLayer
    (shownOn (decorations (updateDecorators basicParser None Scenario.tsOpened)) 1) =
  [Range4 0 11 0 13].
Proof. split; vm_compute; reflexivity. Qed.

(** X23. With an active literal, a recomputation leaves on a visible view that
    is neither the preview nor a view of the literal's document what the
    view showed before. *)
Lemma updateDecorators_layers
    (parsePattern : string -> Flags -> option re) (m : option RegexMatch)
    (w : World) (u : Uri) (e : TextEditor) :
  List.NoDup (map editorId (getVisibleTextEditors w)) ->
  isEditorEnabled w = true ->
  editorURI w = Some u ->
  In e (getVisibleTextEditors w) ->
  String.eqb (fsPath (uri (document e))) (fsPath u) = false ->
  forall regexMatch,
    activeRegex (updateDecorators parsePattern m w) = Some regexMatch ->
    String.eqb (fsPath (uri (rm_document regexMatch)))
               (fsPath (uri (document e))) = false ->
    shownOn (decorations (updateDecorators parsePattern m w)) (editorId e) =
    shownOn (decorations w) (editorId e).
Proof.
  intros ND En U I NotPreview regexMatch Act NotSource.
  destruct (SynchronizerFacts.updateDecorators_view parsePattern m w u e
              ND En U I) as (a & Same & Shown).
  rewrite Act in Same. destruct a as [current|]; [|destruct Same].
  rewrite Shown. unfold visited, update. rewrite NotPreview.
  destruct Same as (D & _). rewrite D, NotSource. simpl.
  destruct (isLanguageSupported (document e)); reflexivity.
Qed.

(** C2, at the failing input: after the caret moved from the literal of
    [docB] to the literal of [docA], the active literal is the one of
    [docA], and the view of [docB], neither preview nor source, still
    has the span that the recomputation before put on it. *)
Theorem stale_span_on_irrelevant_view :
  regexLayer (shownOn (decorations Scenario.afterB) 2) = [Range4 0 5 0 6] /\
  option_map rm_document (activeRegex Scenario.afterA) = Some Scenario.docA /\
  In Scenario.viewB (getVisibleTextEditors Scenario.afterA) /\
  String.eqb (fsPath (uri Scenario.docB)) (fsPath (uri Scenario.preview)) = false /\
  String.eqb (fsPath (uri Scenario.docB)) (fsPath (uri Scenario.docA)) = false /\
  shownOn (decorations Scenario.afterA) 2 = mkLayers [Range4 0 5 0 6] [].
Proof.
  split; [|split; [|split; [|split; [|split]]]];
    try (vm_compute; reflexivity).
  right. left. reflexivity.
Qed.

(** ** Rejected patterns *)

Module CompilerFacts.

Import ScannerFacts TrackerFacts SynchronizerFacts.

Section WithParser.

Variable parsePattern : string -> Flags -> option re.

Lemma createRegexMatch_Some (document : TextDocument) (i : nat)
    (m : RegExpExecArray) (regexMatch : RegexMatch) :
  createRegexMatch parsePattern document i m = Some regexMatch ->
  createRegex parsePattern (group m 3) (group m 4) = Some (rm_regex regexMatch) /\
  rm_document regexMatch = document /\
  rm_range regexMatch = Range4 i (spanStart m) i (spanEnd m).
Proof.
  unfold createRegexMatch.
  destruct (createRegex _ _ _) as [R|]; [|discriminate].
  intros H. inversion H. auto.
Qed.

Lemma findRegexes_from_scan (document : TextDocument) (regexMatch : RegexMatch) :
  In regexMatch (findRegexes parsePattern document) ->
  exists (i : nat) (m : RegExpExecArray),
    In m (scan (getRegexRegex (languageId document))
               (substring 0 1000 (lineAt document i))) /\
    createRegexMatch parsePattern document i m = Some regexMatch.
Proof.
  unfold findRegexes. intros H. apply in_concat in H.
  destruct H as (l & Hl & H). apply in_map_iff in Hl.
  destruct Hl as (i & <- & _). unfold findRegexesLine in H.
  apply list_elem_of_In, list_elem_of_omap in H.
  destruct H as (m & Hm & C). apply list_elem_of_In in Hm.
  exists i, m. auto.
Qed.

Lemma findRegexAtCaret_from_scan (e : TextEditor) (regexMatch : RegexMatch) :
  findRegexAtCaret parsePattern e = Some regexMatch ->
  exists m : RegExpExecArray,
    In m (scan (getRegexRegex (languageId (document e)))
               (substring 0 1000 (lineAt (document e) (line (anchor e))))) /\
    createRegexMatch parsePattern (document e) (line (anchor e)) m =
    Some regexMatch.
Proof.
  rewrite findRegexAtCaret_scan.
  destruct (List.find _ _) as [m|] eqn:F; [|discriminate].
  intros C. apply find_some in F. exists m. tauto.
Qed.

Lemma accepted_sameLiteral (a b : RegexMatch) :
  sameLiteral a b -> accepted parsePattern a -> accepted parsePattern b.
Proof.
  intros (_ & _ & S & F) (pattern & fl & R & C & S' & F').
  exists pattern, fl, R. repeat split; congruence.
Qed.

Lemma createRegexMatch_accepted (document : TextDocument) (i : nat)
    (m : RegExpExecArray) (regexMatch : RegexMatch) :
  createRegexMatch parsePattern document i m = Some regexMatch ->
  accepted parsePattern regexMatch.
Proof.
  intros H. apply createRegexMatch_Some in H. destruct H as (C & _).
  exists (group m 3), (group m 4), (rm_regex regexMatch). auto.
Qed.

End WithParser.

End CompilerFacts.

(** C9, at the failing input: the view of [docB] is tracked and shows a
    span; when [docB] closes its entry goes and the span stays, because
    the handler looks the decorator up after it deleted it. *)
Theorem close_leaves_the_highlights :
  (exists d, decorators Scenario.afterA !! 2 = Some d) /\
  shownOn (decorations Scenario.afterA) 2 = mkLayers [Range4 0 5 0 6] [] /\
  decorators (onDidCloseTextDocument Scenario.docB Scenario.afterA) !! 2 = None /\
  shownOn (decorations (onDidCloseTextDocument Scenario.docB Scenario.afterA)) 2 =
  mkLayers [Range4 0 5 0 6] [].
Proof.
  split; [|split; [|split]]; try (vm_compute; reflexivity).
  eexists. vm_compute. reflexivity.
Qed.

(** X24. The close handler never changes what any view shows. *)
Lemma close_never_disposes (e : TextDocument) (w : World) :
  decorations (onDidCloseTextDocument e w) = decorations w.
Proof.
  unfold onDidCloseTextDocument. simpl.
  generalize (decorators w) at 2 as ds.
  induction (map_to_list (decorators w)) as [|kv l IH]; intros ds; simpl;
    [reflexivity|].
  unfold closeStep at 2. simpl.
  destruct (String.eqb _ _); [|apply IH].
  rewrite lookup_delete_eq. apply IH.
Qed.

(** On [x = /a/gg;] with the caret at column 6 the candidate with the
    span 4 to 9 holds the caret, and the tracker returns nothing under
    every pattern grammar, the flags being rejected. *)
Lemma straddling_candidate_not_returned :
  (exists m : RegExpExecArray,
     List.find (straddles 6) (scan regexRegex "x = /a/gg;") = Some m /\
     group m 3 = "a"%string /\ group m 4 = "gg"%string /\
     spanStart m = 4 /\ spanEnd m = 9) /\
  (forall parsePattern : string -> Flags -> option re,
     findRegexAtCaret parsePattern (Scenario.caretAt Scenario.twiceG 0 6) = None).
Proof.
  split.
  - eexists. split; [vm_compute; reflexivity|].
    repeat split; vm_compute; reflexivity.
  - intros parsePattern. vm_compute. reflexivity.
Qed.

(** C3, at the failing input: in the quoted-string dialect the reported
    span of the literal in [$r = '/ab*/g';] is 5 to 11, the text from the
    opening quote to the closing delimiter; the delimiter-to-flags text
    is 6 to 12.  Pattern and flags are the ones of the line. *)
Theorem quoted_literal_span_is_shifted :
  findRegexes basicParser Scenario.phpDocument =
  [mkRegexMatch Scenario.phpDocument Scenario.abStarG (Range4 0 5 0 11)] /\
  map (fun m => (group m 3, group m 4))
      (scan phpRegexRegex (getText Scenario.phpDocument)) =
  [("ab*", "g")]%string /\
  substring 5 (11 - 5) (getText Scenario.phpDocument) = "'/ab*/"%string /\
  substring 6 (12 - 6) (getText Scenario.phpDocument) = "/ab*/g"%string.
Proof. repeat split; vm_compute; reflexivity. Qed.

(** C4, at the failing input: the quoted-string dialect takes a literal
    between two bars, and one between a single and a double quote. *)
Theorem bars_accepted_as_quotes :
  map (fun m => (group m 3, group m 4))
      (scan phpRegexRegex (getText Scenario.phpBars)) =
  [("ab*", "g")]%string /\
  List.length (findRegexes basicParser Scenario.phpBars) = 1 /\
  map (fun m => (group m 3, group m 4))
      (scan phpRegexRegex (getText Scenario.phpMixed)) =
  [("ab*", "g")]%string /\
  List.length (findRegexes basicParser Scenario.phpMixed) = 1.
Proof. repeat split; vm_compute; reflexivity. Qed.

(** The handler removes the entry of every tracked view on the closed
    document. *)
Lemma close_removes_entry (e : TextDocument) (w : World) (k : nat)
    (d : RegexMatchDecorator) :
  decorators w !! k = Some d ->
  String.eqb (fsPath (uri (document (editor d)))) (fsPath (uri e)) = true ->
  decorators (onDidCloseTextDocument e w) !! k = None.
Proof.
  intros L Same. unfold onDidCloseTextDocument. simpl.
  apply elem_of_map_to_list, list_elem_of_In in L.
  assert (Step : forall st kv,
            (closeStep e st kv).1 =
            if String.eqb (fsPath (uri (document (editor kv.2))))
                          (fsPath (uri e))
            then delete kv.1 st.1 else st.1).
  { intros st kv. unfold closeStep.
    destruct (String.eqb (fsPath (uri (document (editor kv.2))))
                         (fsPath (uri e))); [|reflexivity].
    destruct (delete kv.1 st.1 !! kv.1); reflexivity. }
  generalize (decorators w, decorations w) as st.
  induction (map_to_list (decorators w)) as [|kv l IH]; [destruct L|].
  assert (Gone : forall l' st, st.1 !! k = None ->
                 (fold_left (closeStep e) l' st).1 !! k = None).
  { clear. induction l' as [|kv' l' IH']; intros st N; simpl; [exact N|].
    apply IH'. unfold closeStep.
    destruct (String.eqb (fsPath (uri (document (editor kv'.2))))
                         (fsPath (uri e))); [|exact N].
    assert (N' : delete kv'.1 st.1 !! k = None).
    { destruct (decide (kv'.1 = k)) as [->|Ne].
      - apply lookup_delete_eq.
      - rewrite lookup_delete_ne by exact Ne. exact N. }
    destruct (delete kv'.1 st.1 !! kv'.1); exact N'. }
  intros st. simpl. destruct L as [->|L].
  - apply Gone. rewrite Step. simpl. rewrite Same. apply lookup_delete_eq.
  - apply IH. exact L.
Qed.

(** [/^a/] augmented: the object that runs is [/^a/gm], with the cursor
    at 0, and the object of the literal is as before. *)
Lemma augmentation_witness :
  exists derived : RegExp,
    addGM Scenario.caretA true = NewObject derived /\
    source derived = source Scenario.caretA /\
    flags derived = set_multiline (set_global (flags Scenario.caretA)) /\
    global (flags derived) = true /\ multiline (flags derived) = true /\
    lastIndex derived = 0 /\
    findMatches (mkRegexMatch Scenario.tsDocument Scenario.caretA
                              (Range4 0 0 0 0))
                Scenario.twoLines true =
    ((runMatchLoop derived Scenario.twoLines).1,
     mkRegexMatch Scenario.tsDocument Scenario.caretA (Range4 0 0 0 0)).
Proof.
  apply (proj1 (augmentation_policy
                  (mkRegexMatch Scenario.tsDocument Scenario.caretA
                                (Range4 0 0 0 0))
                  Scenario.twoLines true)).
  split; [reflexivity | left; reflexivity].
Defined.


(** * Further properties of the code *)

(** ** Candidates: where they lie *)

Module LayoutFacts.

Import EngineFacts ScannerFacts GrammarFacts.

Section Boundary.

Variable fl : Flags.
Variable input : string.
Hypothesis caseSensitive : ignoreCase fl = false.
Hypothesis singleLine : multiline fl = false.

(** The opening boundary takes one character, or nothing at position 0. *)
Lemma Sem_openBoundary (x y : MatchState) :
  Sem fl input openBoundary x y ->
  captures y = captures x /\
  ((endIndex y = endIndex x /\ endIndex x = 0) \/ endIndex y = S (endIndex x)).
Proof.
  unfold openBoundary. intros H.
  inversion H as [| | | |? ? ? ? HL|? ? ? ? HR| | | | |]; subst; clear H.
  - inversion HL as [| | | | | | | | |? B|]; subst. split; [reflexivity|].
    left. split; [reflexivity|].
    unfold at_bol in B. destruct (endIndex y); [reflexivity|].
    rewrite singleLine in B. discriminate.
  - inversion HR as [| | | |? ? ? ? HL'|? ? ? ? HR'| | | | |]; subst; clear HR.
    + apply (Sem_class fl input caseSensitive) in HL'.
      destruct HL' as (ch & _ & _ & ->). simpl. auto.
    + apply (Sem_class fl input caseSensitive) in HR'.
      destruct HR' as (ch & _ & _ & ->). simpl. auto.
Qed.

End Boundary.

Ltac boundary_then H y1 Hb C1 P1 :=
  open_group H y1 Hb;
  apply Sem_openBoundary in Hb; try reflexivity;
  destruct Hb as (C1 & P1).

Lemma regexRegex_layout (text : string) (l : nat) (m : RegExpExecArray)
    (R' : RegExp) :
  exec (set_lastIndex regexRegex l) text = (Some m, R') -> layout m.
Proof.
  intros E. apply exec_Sem in E.
  destruct E as (z & H & Gs & Me & In & Hi).
  cbv [source flags set_lastIndex regexRegex] in H.
  split_seq H y1 H1 H2. boundary_then H1 y1' Hb C1 P1.
  split_seq H2 y2 H3 H4. open_group H3 y2' Hd.
  apply Sem_delimited in Hd; try reflexivity.
  destruct Hd as (e3 & G1 & L3 & G3 & L4 & Cd).
  apply Sem_group in H4; try reflexivity. destruct H4 as (L5 & C5).
  cbn [endIndex captures] in *. rewrite Cd, C1 in C5. rewrite C5 in Gs.
  exists (endIndex y1'), (endIndex y1'), (endIndex y2').
  rewrite Gs. simpl. repeat split; auto; lia.
Qed.

Lemma haxeRegexRegex_layout (text : string) (l : nat) (m : RegExpExecArray)
    (R' : RegExp) :
  exec (set_lastIndex haxeRegexRegex l) text = (Some m, R') -> layout m.
Proof.
  intros E. apply exec_Sem in E.
  destruct E as (z & H & Gs & Me & In & Hi).
  cbv [source flags set_lastIndex haxeRegexRegex] in H.
  split_seq H y1 H1 H2. boundary_then H1 y1' Hb C1 P1.
  split_seq H2 y2 H3 H4. open_group H3 y2' Hs.
  split_seq Hs yt Ht Hd.
  apply Sem_chr in Ht; try reflexivity. destruct Ht as (Gt & ->).
  apply Sem_delimited in Hd; try reflexivity.
  destruct Hd as (e3 & G1 & L3 & G3 & L4 & Cd).
  apply Sem_group in H4; try reflexivity. destruct H4 as (L5 & C5).
  cbn [endIndex captures] in *. rewrite Cd, C1 in C5. rewrite C5 in Gs.
  exists (endIndex y1'), (endIndex y1'), (endIndex y2').
  rewrite Gs. simpl. repeat split; auto; lia.
Qed.

Lemma phpRegexRegex_layout (text : string) (l : nat) (m : RegExpExecArray)
    (R' : RegExp) :
  exec (set_lastIndex phpRegexRegex l) text = (Some m, R') -> layout m.
Proof.
  intros E. apply exec_Sem in E.
  destruct E as (z & H & Gs & Me & In & Hi).
  cbv [source flags set_lastIndex phpRegexRegex] in H.
  split_seq H y1 H1 H2. boundary_then H1 y1' Hb C1 P1.
  split_seq H2 yq Hq H2'.
  apply Sem_class in Hq; try reflexivity. destruct Hq as (q & Gq & Mq & ->).
  split_seq H2' y2 H3 H4. open_group H3 y2' Hd.
  apply Sem_delimited in Hd; try reflexivity.
  destruct Hd as (e3 & G1 & L3 & G3 & L4 & Cd).
  split_seq H4 yq' Hq' H5.
  apply Sem_class in Hq'; try reflexivity.
  destruct Hq' as (q' & Gq' & Mq' & ->).
  apply Sem_group in H5; try reflexivity. destruct H5 as (L5 & C5).
  cbn [endIndex captures] in *. rewrite Cd, C1 in C5. rewrite C5 in Gs.
  exists (endIndex y1'), (S (endIndex y1')), (endIndex y2').
  rewrite Gs. simpl. repeat split; auto; lia.
Qed.

Lemma scan_layout (languageId text : string) :
  Forall layout (scan (getRegexRegex languageId) text).
Proof.
  apply scan_all. intros l m R'.
  destruct (getRegexRegex_cases languageId) as [E|[E|E]]; rewrite E.
  - apply regexRegex_layout.
  - apply phpRegexRegex_layout.
  - apply haxeRegexRegex_layout.
Qed.

(** The reported span in terms of the layout. *)
Lemma layout_span (m : RegExpExecArray) :
  layout m ->
  index m <= spanStart m /\
  (0 < index m -> spanStart m = S (index m)) /\
  spanStart m < spanEnd m /\
  spanEnd m <= matchEnd m /\
  matchEnd m <= String.length (input m).
Proof.
  intros (e1 & s2 & e2 & C1 & C2 & P & L1 & L2 & L3 & L4).
  unfold spanStart, spanEnd, group. rewrite C1, C2.
  rewrite !length_substring by lia. repeat split; lia.
Qed.

Lemma chained_after (text : string) (ms : list RegExpExecArray) :
  forall l, chained text l ms -> Forall layout ms -> 0 < l ->
            Forall (fun m => l < spanStart m) ms.
Proof.
  induction ms as [|m ms IH]; intros l C F P; [constructor|].
  destruct C as (W & C). inversion F as [|? ? Lm Fms]; subst.
  destruct W as (_ & Lo & Le & _).
  pose proof (layout_span m Lm) as (_ & S1 & _).
  constructor; [rewrite S1; lia|].
  specialize (IH _ C Fms ltac:(lia)).
  eapply Forall_impl; [exact IH|]. simpl. intros m' H. lia.
Qed.

Lemma chained_separated (text : string) (ms : list RegExpExecArray) :
  forall l, chained text l ms -> Forall layout ms ->
            ForallOrdPairs (fun a b => spanEnd a < spanStart b) ms.
Proof.
  induction ms as [|m ms IH]; intros l C F; [constructor|].
  destruct C as (W & C). inversion F as [|? ? Lm Fms]; subst.
  pose proof (layout_span m Lm) as (S0 & _ & S2 & S3 & _).
  constructor; [|exact (IH _ C Fms)].
  pose proof (chained_after text ms _ C Fms ltac:(lia)) as A.
  eapply Forall_impl; [exact A|]. simpl. intros m' H. lia.
Qed.

Lemma length_prefix (s : string) (n : nat) :
  String.length (substring 0 n s) <= n /\
  String.length (substring 0 n s) <= String.length s.
Proof.
  revert n; induction s as [|c s IH]; intros [|n]; simpl; try lia.
  destruct (IH n). lia.
Qed.

Lemma get_one_of (s : string) (i : nat) (c : ascii) :
  String.get i s = Some c -> one_of s c = true.
Proof.
  revert i; induction s as [|a s IH]; intros [|i] H; simpl in *;
    try discriminate.
  - inversion H. rewrite Ascii.eqb_refl. reflexivity.
  - rewrite (IH _ H). apply orb_true_r.
Qed.

Lemma one_of_prefix (s : string) (n : nat) (c : ascii) :
  one_of (substring 0 n s) c = true -> one_of s c = true.
Proof.
  revert n; induction s as [|a s IH]; intros [|n]; simpl; try discriminate.
  destruct (Ascii.eqb a c); [reflexivity|]. simpl. apply IH.
Qed.

End LayoutFacts.

(** X1. In every dialect the reported spans of the candidates of a line
    are strictly apart, in source order: a span ends before the next one
    starts, so no caret column lies in two of them. *)
Theorem candidate_spans_are_separated (languageId text : string) :
  ForallOrdPairs (fun a b => spanEnd a < spanStart b)
                 (scan (getRegexRegex languageId) text) /\
  (forall (caret : nat) (a b : RegExpExecArray),
     In a (scan (getRegexRegex languageId) text) ->
     In b (scan (getRegexRegex languageId) text) ->
     straddles caret a = true -> straddles caret b = true -> a = b).
Proof.
  assert (S : ForallOrdPairs (fun a b => spanEnd a < spanStart b)
                (scan (getRegexRegex languageId) text)).
  { exact (LayoutFacts.chained_separated text _ 0
             (ScannerFacts.scan_chained languageId text)
             (LayoutFacts.scan_layout languageId text)). }
  split; [exact S|].
  intros caret a b Ia Ib Sa Sb. unfold straddles in *.
  apply andb_true_iff in Sa, Sb. destruct Sa as (A1 & A2), Sb as (B1 & B2).
  apply Nat.leb_le in A1, A2, B1, B2.
  destruct (ForallOrdPairs_In S a b Ia Ib) as [E|[L|L]]; [exact E|lia|lia].
Qed.

(** X2. Every literal of the enumeration belongs to the document it was
    asked for and lies on one of its lines, on that line alone, with a
    span that is not empty and ends within the first 1000 columns and
    within the line. *)
Theorem enumerated_literals_are_placed
    (parsePattern : string -> Flags -> option re) (document : TextDocument)
    (regexMatch : RegexMatch) :
  In regexMatch (findRegexes parsePattern document) ->
  rm_document regexMatch = document /\
  exists i s e : nat,
    rm_range regexMatch = Range4 i s i e /\
    i < lineCount document /\ s < e /\ e <= 1000 /\
    e <= String.length (lineAt document i).
Proof.
  unfold findRegexes. intros H. apply in_concat in H.
  destruct H as (l & Hl & H). apply in_map_iff in Hl.
  destruct Hl as (i & <- & Hi). apply in_seq in Hi.
  unfold findRegexesLine in H.
  apply list_elem_of_In, list_elem_of_omap in H.
  destruct H as (m & Hm & C). apply list_elem_of_In in Hm.
  apply CompilerFacts.createRegexMatch_Some in C. destruct C as (_ & D & R).
  split; [exact D|].
  exists i, (spanStart m), (spanEnd m). split; [exact R|].
  set (text := substring 0 1000 (lineAt document i)) in *.
  pose proof (LayoutFacts.scan_layout (languageId document) text) as L.
  rewrite List.Forall_forall in L. specialize (L m Hm).
  apply LayoutFacts.layout_span in L. destruct L as (_ & _ & S1 & S2 & S3).
  pose proof (GrammarFacts.scan_all (fun m => input m = text)
                (languageId document) text) as I.
  rewrite List.Forall_forall in I.
  rewrite (I ltac:(intros l0 m0 R0 E; apply EngineFacts.exec_Some in E; tauto)
             m Hm) in S3.
  destruct (LayoutFacts.length_prefix (lineAt document i) 1000) as (P1 & P2).
  fold text in P1, P2. repeat split; lia.
Qed.

(** X3. A line without a slash has no literal, in any dialect: the
    enumeration finds none on it and the tracker none at any column. *)
Theorem line_without_slash_has_no_literal
    (parsePattern : string -> Flags -> option re) (d : TextDocument)
    (i : nat) :
  one_of (lineAt d i) "/" = false ->
  findRegexesLine parsePattern d i = [] /\
  (forall e : TextEditor,
     document e = d -> line (anchor e) = i ->
     findRegexAtCaret parsePattern e = None).
Proof.
  intros NoSlash.
  set (text := substring 0 1000 (lineAt d i)).
  assert (Empty : scan (getRegexRegex (languageId d)) text = []).
  { pose proof (GrammarFacts.scan_all
                  (fun m => one_of text "/" = true)
                  (languageId d) text) as A.
    destruct (scan (getRegexRegex (languageId d)) text) as [|m ms];
      [reflexivity|].
    exfalso.
    assert (T : one_of text "/" = true).
    { refine (proj1 (List.Forall_forall _ _) (A _) m (or_introl eq_refl)).
      intros l m0 R' E.
      assert (D : exists from to, input m0 = text /\ delimitedAt m0 from to).
      { destruct (ScannerFacts.getRegexRegex_cases (languageId d))
          as [Q|[Q|Q]]; rewrite Q in E.
        - apply GrammarFacts.regexRegex_parts in E.
          destruct E as (I & D). eauto.
        - apply GrammarFacts.phpRegexRegex_parts in E.
          destruct E as (I & _ & D & _). eauto.
        - apply GrammarFacts.haxeRegexRegex_parts in E.
          destruct E as (I & _ & D). eauto. }
      destruct D as (from & to & I & (Sub & Lt & Le)).
      assert (G : String.get 0 (substring from (to - from) (input m0)) =
                  Some "/"%char) by (rewrite Sub; reflexivity).
      rewrite substring_correct1 in G by lia. rewrite I in G.
      exact (LayoutFacts.get_one_of _ _ _ G). }
    apply LayoutFacts.one_of_prefix in T. congruence. }
  split.
  - unfold findRegexesLine. fold text. rewrite Empty. reflexivity.
  - intros e D L. rewrite TrackerFacts.findRegexAtCaret_scan.
    rewrite D, L. fold text. rewrite Empty. reflexivity.
Qed.

(** A line of plain code. *)
Lemma line_without_slash_witness :
  findRegexesLine basicParser
    (mkDocument (mkUri "/work/a.js") "javascript" "let x = (1, 2);") 0 = [] /\
  (forall e : TextEditor,
     document e =
       mkDocument (mkUri "/work/a.js") "javascript" "let x = (1, 2);" ->
     line (anchor e) = 0 ->
     findRegexAtCaret basicParser e = None).
Proof.
  apply (line_without_slash_has_no_literal basicParser
           (mkDocument (mkUri "/work/a.js") "javascript" "let x = (1, 2);") 0).
  reflexivity.
Defined.

(** X4. The literal that the tracker returns is on the caret: it belongs
    to the document of the view, lies on the line of the caret, and its
    span holds the caret column, ends included. *)
Theorem tracked_literal_holds_the_caret
    (parsePattern : string -> Flags -> option re) (e : TextEditor)
    (regexMatch : RegexMatch) :
  findRegexAtCaret parsePattern e = Some regexMatch ->
  rm_document regexMatch = document e /\
  exists s t : nat,
    rm_range regexMatch = Range4 (line (anchor e)) s (line (anchor e)) t /\
    s <= character (anchor e) /\ character (anchor e) <= t.
Proof.
  rewrite TrackerFacts.findRegexAtCaret_scan.
  destruct (List.find _ _) as [m|] eqn:F; [|discriminate].
  intros C. apply find_some in F. destruct F as (_ & S).
  apply CompilerFacts.createRegexMatch_Some in C. destruct C as (_ & D & R).
  split; [exact D|]. exists (spanStart m), (spanEnd m).
  unfold straddles in S. apply andb_true_iff in S. destruct S as (S1 & S2).
  apply Nat.leb_le in S1, S2. auto.
Qed.

(** The caret of scenario B. *)
Lemma tracked_literal_witness :
  rm_document (mkRegexMatch Scenario.tsDocument Scenario.abStarG
                            (Range4 0 10 0 16)) =
  document Scenario.tsView /\
  exists s t : nat,
    rm_range (mkRegexMatch Scenario.tsDocument Scenario.abStarG
                           (Range4 0 10 0 16)) =
    Range4 (line (anchor Scenario.tsView)) s (line (anchor Scenario.tsView)) t /\
    s <= character (anchor Scenario.tsView) /\
    character (anchor Scenario.tsView) <= t.
Proof.
  apply (tracked_literal_holds_the_caret basicParser Scenario.tsView).
  vm_compute. reflexivity.
Defined.

(** X5. What the tracker returns for a caret on a line of the document
    is one of the literals that the enumeration of the document lists. *)
Theorem tracked_literal_is_enumerated
    (parsePattern : string -> Flags -> option re) (e : TextEditor)
    (regexMatch : RegexMatch) :
  line (anchor e) < lineCount (document e) ->
  findRegexAtCaret parsePattern e = Some regexMatch ->
  In regexMatch (findRegexes parsePattern (document e)).
Proof.
  intros L H. apply CompilerFacts.findRegexAtCaret_from_scan in H.
  destruct H as (m & I & C). unfold findRegexes. apply in_concat.
  exists (findRegexesLine parsePattern (document e) (line (anchor e))).
  split.
  - apply in_map, in_seq. lia.
  - unfold findRegexesLine. apply list_elem_of_In, list_elem_of_omap.
    exists m. split; [apply list_elem_of_In; exact I | exact C].
Qed.

Lemma tracked_literal_is_enumerated_witness :
  In (mkRegexMatch Scenario.tsDocument Scenario.abStarG (Range4 0 10 0 16))
     (findRegexes basicParser (document Scenario.tsView)).
Proof.
  apply (tracked_literal_is_enumerated basicParser Scenario.tsView).
  - vm_compute. lia.
  - vm_compute. reflexivity.
Defined.

Lemma enumerated_literals_witness :
  rm_document (mkRegexMatch Scenario.tsDocument Scenario.abStarG
                            (Range4 0 10 0 16)) = Scenario.tsDocument /\
  exists i s e : nat,
    rm_range (mkRegexMatch Scenario.tsDocument Scenario.abStarG
                           (Range4 0 10 0 16)) = Range4 i s i e /\
    i < lineCount Scenario.tsDocument /\ s < e /\ e <= 1000 /\
    e <= String.length (lineAt Scenario.tsDocument i).
Proof.
  apply (enumerated_literals_are_placed basicParser Scenario.tsDocument).
  vm_compute. left. reflexivity.
Defined.

(** ** Matches: order, number, cursor *)

Module SpanFacts.

Import EngineFacts EvaluatorFacts.




(** On a global pattern the loop can only end on the [null] of [exec],
    which puts the cursor back at 0. *)
Lemma matchLoop_global_cursor (document : TextDocument) (text : string)
    (fuel : nat) :
  forall (R : RegExp) (matches : list Match) res,
    global (flags R) = true ->
    matchLoop fuel R document text matches = Some res ->
    res.2 = mkRegExp (source R) (flags R) 0.
Proof.
  induction fuel as [|fuel IH]; intros R matches res G H; simpl in H;
    [discriminate|].
  rewrite G in H. simpl in H.
  destruct (exec R text) as [[m|] R'] eqn:E.
  - pose proof (exec_same_pattern R text) as (S1 & F1). rewrite E in S1, F1.
    simpl in S1, F1.
    destruct (skipEmpty_same_pattern R' m) as (S2 & F2).
    apply IH in H; [|congruence]. rewrite H. congruence.
  - apply exec_None in E. unfold moving in E. rewrite G in E. simpl in E.
    inversion H; subst. reflexivity.
Qed.

Lemma runMatchLoop_spec (R : RegExp) (document : TextDocument) :
  matchLoop (2 + String.length (getText document)) R document
            (getText document) [] = Some (runMatchLoop R document).
Proof.
  destruct (matchLoop_total R document) as (res & E).
  rewrite E. f_equal. symmetry. exact (runMatchLoop_eq _ _ _ E).
Qed.

End SpanFacts.


(** X7. Without augmentation a pattern without [g] is evaluated by one
    [exec]: the result is its match, or nothing when it returns [null];
    so there is at most one match. *)
Theorem nonglobal_evaluation_is_one_exec (regexMatch : RegexMatch)
    (document : TextDocument) :
  global (flags (rm_regex regexMatch)) = false ->
  map m_range (findMatches regexMatch document false).1 =
  match (exec (rm_regex regexMatch) (getText document)).1 with
  | Some m =>
      [mkRange (positionAt document (index m))
               (positionAt document (index m + String.length (group0 m)))]
  | None => []
  end /\
  List.length (findMatches regexMatch document false).1 <= 1.
Proof.
  intros G. unfold findMatches, addGM. simpl.
  unfold runMatchLoop.
  change (2 + String.length (getText document))
    with (S (S (String.length (getText document)))).
  cbn [matchLoop]. rewrite G. simpl.
  pose proof (EngineFacts.exec_same_pattern (rm_regex regexMatch)
                (getText document)) as (_ & F).
  destruct (exec (rm_regex regexMatch) (getText document)) as [[m|] R'];
    simpl in *; [|split; [reflexivity | simpl; lia]].
  destruct (EvaluatorFacts.skipEmpty_same_pattern R' m) as (_ & F').
  rewrite F', F, G. simpl. split; [reflexivity | lia].
Qed.

Lemma nonglobal_evaluation_witness :
  map m_range
      (findMatches (mkRegexMatch Scenario.tsDocument Scenario.caretA
                                 (Range4 0 0 0 0))
                   Scenario.twoLines false).1 =
  match (exec (rm_regex (mkRegexMatch Scenario.tsDocument Scenario.caretA
                                      (Range4 0 0 0 0)))
              (getText Scenario.twoLines)).1 with
  | Some m =>
      [mkRange (positionAt Scenario.twoLines (index m))
               (positionAt Scenario.twoLines
                  (index m + String.length (group0 m)))]
  | None => []
  end /\
  List.length
    (findMatches (mkRegexMatch Scenario.tsDocument Scenario.caretA
                               (Range4 0 0 0 0))
                 Scenario.twoLines false).1 <= 1.
Proof.
  apply (nonglobal_evaluation_is_one_exec
           (mkRegexMatch Scenario.tsDocument Scenario.caretA (Range4 0 0 0 0))
           Scenario.twoLines).
  reflexivity.
Defined.

(** X8. With augmentation on, a literal whose cursor is at 0 is evaluated
    as the same literal written with [g] and [m] is, augmented or not:
    the flags that the author left out make no difference to the
    preview. *)
Theorem augmented_evaluation_is_gm_evaluation (regexMatch : RegexMatch)
    (document : TextDocument) (b : bool) :
  lastIndex (rm_regex regexMatch) = 0 ->
  (findMatches regexMatch document true).1 =
  (findMatches
     (mkRegexMatch (rm_document regexMatch)
        (mkRegExp (source (rm_regex regexMatch))
                  (set_multiline (set_global (flags (rm_regex regexMatch)))) 0)
        (rm_range regexMatch))
     document b).1.
Proof.
  intros Z. destruct regexMatch as [d [src f l] r]. simpl in *. subst l.
  assert (R : (findMatches
                 (mkRegexMatch d (mkRegExp src (set_multiline (set_global f)) 0) r)
                 document b).1 =
              (runMatchLoop (mkRegExp src (set_multiline (set_global f)) 0)
                            document).1).
  { unfold findMatches, addGM. simpl. rewrite orb_true_r. simpl.
    destruct (runMatchLoop _ _). reflexivity. }
  rewrite R. unfold findMatches, addGM. simpl.
  destruct f as [g i m s u y]. simpl.
  destruct g, m; simpl; try reflexivity.
  unfold set_multiline, set_global. simpl.
  destruct (runMatchLoop _ _). reflexivity.
Qed.

Lemma augmented_evaluation_witness :
  (findMatches (mkRegexMatch Scenario.tsDocument Scenario.caretA
                             (Range4 0 0 0 0))
               Scenario.twoLines true).1 =
  (findMatches
     (mkRegexMatch Scenario.tsDocument
        (mkRegExp (source Scenario.caretA)
                  (set_multiline (set_global (flags Scenario.caretA))) 0)
        (Range4 0 0 0 0))
     Scenario.twoLines false).1.
Proof.
  apply (augmented_evaluation_is_gm_evaluation
           (mkRegexMatch Scenario.tsDocument Scenario.caretA (Range4 0 0 0 0))
           Scenario.twoLines false).
  reflexivity.
Defined.

(** X9. An evaluation gives the literal back as it took it, cursor
    included, when the cursor is at 0 and the pattern is global or the
    augmentation is on: the next evaluation of the same literal starts
    from the same state. *)
Theorem evaluation_leaves_the_literal (regexMatch : RegexMatch)
    (document : TextDocument) (addGMEnabled : bool) :
  lastIndex (rm_regex regexMatch) = 0 ->
  global (flags (rm_regex regexMatch)) = true \/ addGMEnabled = true ->
  (findMatches regexMatch document addGMEnabled).2 = regexMatch.
Proof.
  intros Z H. destruct regexMatch as [d [src f l] r]. simpl in *. subst l.
  unfold findMatches. simpl.
  destruct (addGM (mkRegExp src f 0) addGMEnabled) as [|R] eqn:A;
    [|reflexivity].
  assert (G : global f = true).
  { destruct H as [G| ->]; [exact G|].
    unfold addGM in A. simpl in A.
    destruct (global f); [reflexivity|]. simpl in A. discriminate. }
  pose proof (SpanFacts.matchLoop_global_cursor document _ _
                (mkRegExp src f 0) [] _ G
                (SpanFacts.runMatchLoop_spec (mkRegExp src f 0) document)) as C.
  destruct (runMatchLoop _ _) as [ms R']. simpl in *. rewrite C. reflexivity.
Qed.

Lemma evaluation_leaves_the_literal_witness :
  (findMatches (mkRegexMatch Scenario.tsDocument Scenario.abStarG
                             (Range4 0 10 0 16))
               Scenario.targetA false).2 =
  mkRegexMatch Scenario.tsDocument Scenario.abStarG (Range4 0 10 0 16).
Proof.
  apply (evaluation_leaves_the_literal
           (mkRegexMatch Scenario.tsDocument Scenario.abStarG
                         (Range4 0 10 0 16))
           Scenario.targetA false).
  - reflexivity.
  - left. reflexivity.
Defined.

(** ** Recomputations, commands and handlers *)

Module RecomputationFacts.

Import SynchronizerFacts.

Lemma dispose_noLayers (shown : Layers) : dispose shown = noLayers.
Proof. reflexivity. Qed.

Lemma disposeAll_here (remove : gmap nat RegexMatchDecorator)
    (ds : gmap nat Layers) (k : nat) (d : RegexMatchDecorator) :
  remove !! k = Some d -> disposeAll remove ds !! k = Some noLayers.
Proof.
  intros L. unfold disposeAll.
  apply elem_of_map_to_list, list_elem_of_In in L.
  induction (map_to_list remove) as [|kv l IH]; [destruct L|]. simpl.
  destruct (decide (kv.1 = k)) as [->|N].
  - apply lookup_insert_eq.
  - rewrite lookup_insert_ne by exact N. apply IH.
    destruct L as [->|L]; [contradiction N; reflexivity | exact L].
Qed.

Lemma disposeAll_shown (remove : gmap nat RegexMatchDecorator)
    (ds : gmap nat Layers) (k : nat) :
  shownOn (disposeAll remove ds) k =
  match remove !! k with
  | Some _ => noLayers
  | None => shownOn ds k
  end.
Proof.
  unfold shownOn. destruct (remove !! k) as [d|] eqn:L.
  - rewrite (disposeAll_here _ _ _ _ L). reflexivity.
  - rewrite (disposeAll_elsewhere _ _ _ L). reflexivity.
Qed.

Lemma update_active_alone (e : TextEditor) (a : option RegexMatch) (u : Uri)
    (addGMEnabled : bool) (s1 s2 : Layers) :
  (update e a u addGMEnabled s1).2 = (update e a u addGMEnabled s2).2.
Proof.
  unfold update. destruct a as [rm|]; [|reflexivity].
  destruct (_ || _); [|reflexivity].
  destruct (findMatches _ _ _). reflexivity.
Qed.

Lemma update_twice (e : TextEditor) (a : option RegexMatch) (u : Uri)
    (addGMEnabled : bool) (shown : Layers) :
  (update e a u addGMEnabled (update e a u addGMEnabled shown).1).1 =
  (update e a u addGMEnabled shown).1.
Proof.
  unfold update. destruct a as [rm|]; [|reflexivity].
  destruct (String.eqb (fsPath (uri (document e))) (fsPath u)); simpl;
    [destruct (findMatches _ _ _); reflexivity|].
  destruct (String.eqb _ _); [|reflexivity].
  destruct (findMatches _ _ _). reflexivity.
Qed.

Section Fold.

Variables (u : Uri) (addGMEnabled : bool).

Local Abbreviation visitU := (visit u addGMEnabled).

Lemma visit_active (st : Sync) (e : TextEditor) :
  s_activeRegex (visitU st e) =
  if relevant u e
  then (update e (s_activeRegex st) u addGMEnabled noLayers).2
  else s_activeRegex st.
Proof.
  unfold visit, relevant. destruct (_ || _); [|reflexivity].
  rewrite (update_active_alone e _ u addGMEnabled noLayers
             (shownOn (s_decorations st) (editorId e))).
  destruct (update _ _ _ _ _). reflexivity.
Qed.

Lemma fold_active_alone (es : list TextEditor) :
  forall st st',
    s_activeRegex st = s_activeRegex st' ->
    s_activeRegex (fold_left visitU es st) =
    s_activeRegex (fold_left visitU es st').
Proof.
  induction es as [|e es IH]; intros st st' E; simpl; [exact E|].
  apply IH. rewrite !visit_active, E. reflexivity.
Qed.

Lemma visit_decorations (st : Sync) (e : TextEditor) (k : nat) :
  s_decorations (visitU st e) !! k =
  if relevant u e && (editorId e =? k)
  then Some (update e (s_activeRegex st) u addGMEnabled
                    (shownOn (s_decorations st) k)).1
  else s_decorations st !! k.
Proof.
  unfold visit, relevant. destruct (_ || _); simpl; [|reflexivity].
  destruct (update _ _ _ _ _) as [shown a] eqn:U. simpl.
  destruct (editorId e =? k) eqn:Q.
  - apply Nat.eqb_eq in Q. subst k. rewrite lookup_insert_eq, U. reflexivity.
  - apply Nat.eqb_neq in Q. rewrite lookup_insert_ne by exact Q. reflexivity.
Qed.

Lemma visit_decorators (st : Sync) (e : TextEditor) (k : nat) :
  s_decorators (visitU st e) !! k =
  match s_decorators st !! k with
  | Some d => Some d
  | None => if relevant u e && (editorId e =? k)
            then Some (mkDecorator e) else None
  end.
Proof.
  unfold visit, relevant. destruct (_ || _); simpl.
  - destruct (update _ _ _ _ _) as [shown a]. simpl.
    destruct (s_decorators st !! editorId e) as [d0|] eqn:L.
    + destruct (s_decorators st !! k) eqn:Lk; [reflexivity|].
      destruct (editorId e =? k) eqn:Q; [|reflexivity].
      apply Nat.eqb_eq in Q. congruence.
    + destruct (editorId e =? k) eqn:Q.
      * apply Nat.eqb_eq in Q. subst k. rewrite lookup_insert_eq, L.
        reflexivity.
      * apply Nat.eqb_neq in Q. rewrite lookup_insert_ne by exact Q.
        destruct (s_decorators st !! k); reflexivity.
  - destruct (s_decorators st !! k); reflexivity.
Qed.

(** The decorators after the visits: what was there, and for a view that
    had none the decorator of the first relevant visit. *)
Lemma fold_decorators (es : list TextEditor) (k : nat) :
  forall st,
    s_decorators (fold_left visitU es st) !! k =
    match s_decorators st !! k with
    | Some d => Some d
    | None =>
        option_map mkDecorator
          (List.find (fun e => relevant u e && (editorId e =? k)) es)
    end.
Proof.
  induction es as [|e es IH]; intros st; simpl.
  - destruct (s_decorators st !! k); reflexivity.
  - rewrite IH, visit_decorators.
    destruct (s_decorators st !! k); [reflexivity|].
    destruct (relevant u e && (editorId e =? k)); reflexivity.
Qed.

Lemma fold_remove_all (es : list TextEditor) (k : nat) :
  forall st,
    s_remove (fold_left visitU es st) !! k =
    if existsb (Nat.eqb k) (map editorId es) then None else s_remove st !! k.
Proof.
  induction es as [|e es IH]; intros st; simpl; [reflexivity|].
  rewrite IH, visit_remove.
  destruct (existsb (Nat.eqb k) (map editorId es)).
  - rewrite orb_true_r. reflexivity.
  - rewrite orb_false_r. destruct (k =? editorId e) eqn:Q.
    + apply Nat.eqb_eq in Q. subst k. apply lookup_delete_eq.
    + apply Nat.eqb_neq in Q. rewrite lookup_delete_ne by congruence.
      reflexivity.
Qed.

Lemma fold_decorations_elsewhere (es : list TextEditor) (k : nat) :
  existsb (Nat.eqb k) (map editorId es) = false ->
  forall st,
    s_decorations (fold_left visitU es st) !! k = s_decorations st !! k.
Proof.
  intros N st. apply fold_elsewhere. intros I.
  apply in_map_iff in I. destruct I as (e & E & I).
  assert (T : existsb (Nat.eqb k) (map editorId es) = true).
  { apply existsb_exists. exists (editorId e). split.
    - apply in_map. exact I.
    - subst k. apply Nat.eqb_refl. }
  congruence.
Qed.

End Fold.

Lemma visible_id (w : World) (k : nat) :
  existsb (Nat.eqb k) (map editorId (getVisibleTextEditors w)) = true <->
  In k (map editorId (getVisibleTextEditors w)).
Proof.
  rewrite existsb_exists. split.
  - intros (x & I & Q). apply Nat.eqb_eq in Q. subst. exact I.
  - intros I. exists k. split; [exact I | apply Nat.eqb_refl].
Qed.

(** A recomputation that runs, opened up. *)
Lemma updateDecorators_runs (parsePattern : string -> Flags -> option re)
    (m : option RegexMatch) (w : World) (u : Uri) :
  isEditorEnabled w = true ->
  editorURI w = Some u ->
  exists a0 : option RegexMatch,
    a0 = match m with
         | Some regexMatch => Some regexMatch
         | None =>
             match activeTextEditor w with
             | Some activeEditor =>
                 if isLanguageSupported (document activeEditor)
                 then findRegexAtCaret parsePattern activeEditor
                 else activeRegex w
             | None => activeRegex w
             end
         end /\
    updateDecorators parsePattern m w =
    let st := fold_left (visit u (addGMEnabled w)) (getVisibleTextEditors w)
                (mkSync (decorators w) (decorators w) a0 (decorations w)) in
    mkWorld (s_decorators st ∖ s_remove st)
            (addGMEnabled w) (editorURI w) (s_activeRegex st)
            (visibleTextEditors w) (activeTextEditor w)
            (disposeAll (s_remove st) (s_decorations st)).
Proof.
  intros En U. eexists. split; [reflexivity|].
  unfold updateDecorators. rewrite En, U. reflexivity.
Qed.

End RecomputationFacts.

Module IdempotenceFacts.

Import SynchronizerFacts RecomputationFacts.

Lemma disposeAll_lookup (remove : gmap nat RegexMatchDecorator)
    (ds : gmap nat Layers) (k : nat) :
  disposeAll remove ds !! k =
  match remove !! k with
  | Some _ => Some noLayers
  | None => ds !! k
  end.
Proof.
  destruct (remove !! k) as [d|] eqn:L.
  - exact (disposeAll_here _ _ _ _ L).
  - exact (disposeAll_elsewhere _ _ _ L).
Qed.

Section Fold.

Variables (u : Uri) (addGMEnabled : bool).

Lemma find_visible (es : list TextEditor) (k : nat) :
  existsb (Nat.eqb k) (map editorId es) = false ->
  List.find (fun e => relevant u e && (editorId e =? k)) es = None.
Proof.
  induction es as [|e es IH]; simpl; [reflexivity|].
  intros H. apply orb_false_iff in H. destruct H as (H1 & H2).
  rewrite Nat.eqb_sym, H1, andb_false_r. exact (IH H2).
Qed.

(** What the visits leave on the view [e], visited once. *)
Lemma fold_decorations_at (pre post : list TextEditor) (e : TextEditor)
    (st : Sync) :
  List.NoDup (map editorId (pre ++ e :: post)) ->
  s_decorations (fold_left (visit u addGMEnabled) (pre ++ e :: post) st)
    !! editorId e =
  if relevant u e
  then Some (update e
               (s_activeRegex (fold_left (visit u addGMEnabled) pre st))
               u addGMEnabled (shownOn (s_decorations st) (editorId e))).1
  else s_decorations st !! editorId e.
Proof.
  intros ND. rewrite map_app in ND. simpl in ND.
  apply NoDup_remove_2 in ND. rewrite in_app_iff in ND.
  rewrite fold_left_app. simpl.
  rewrite fold_elsewhere by tauto.
  rewrite visit_decorations, Nat.eqb_refl, andb_true_r.
  unfold shownOn. rewrite fold_elsewhere by tauto. reflexivity.
Qed.

End Fold.

End IdempotenceFacts.

(** X10. A recomputation retires a tracked view that is no longer
    visible: its entry leaves the tracking map and both its layers are
    empty afterwards. *)
Theorem hidden_views_are_retired
    (parsePattern : string -> Flags -> option re) (m : option RegexMatch)
    (w : World) (k : nat) (d : RegexMatchDecorator) :
  isEditorEnabled w = true ->
  decorators w !! k = Some d ->
  ~ In k (map editorId (getVisibleTextEditors w)) ->
  decorators (updateDecorators parsePattern m w) !! k = None /\
  shownOn (decorations (updateDecorators parsePattern m w)) k = noLayers.
Proof.
  intros En L Hidden.
  destruct (editorURI w) as [u|] eqn:U;
    [|unfold isEditorEnabled in En; rewrite U in En; discriminate].
  destruct (RecomputationFacts.updateDecorators_runs parsePattern m w u En U)
    as (a0 & _ & ->). simpl.
  assert (X : existsb (Nat.eqb k) (map editorId (getVisibleTextEditors w)) =
              false).
  { destruct (existsb _ _) eqn:X; [|reflexivity].
    apply RecomputationFacts.visible_id in X. contradiction. }
  assert (R : s_remove
                (fold_left (visit u (addGMEnabled w)) (getVisibleTextEditors w)
                   (mkSync (decorators w) (decorators w) a0 (decorations w)))
                !! k = Some d).
  { rewrite RecomputationFacts.fold_remove_all, X. exact L. }
  split.
  - rewrite lookup_difference, R. reflexivity.
  - rewrite RecomputationFacts.disposeAll_shown, R. reflexivity.
Qed.

(** X11. The tracking map after a recomputation that runs: a view that is
    not visible has no entry; a visible view keeps the entry it had, and
    without one gets the decorator of its first visit if its language is
    supported or it shows the scratch document. *)
Theorem tracked_views_after_recomputation
    (parsePattern : string -> Flags -> option re) (m : option RegexMatch)
    (w : World) (u : Uri) (k : nat) :
  isEditorEnabled w = true ->
  editorURI w = Some u ->
  decorators (updateDecorators parsePattern m w) !! k =
  if existsb (Nat.eqb k) (map editorId (getVisibleTextEditors w))
  then match decorators w !! k with
       | Some d => Some d
       | None =>
           option_map mkDecorator
             (List.find (fun e => relevant u e && (editorId e =? k))
                        (getVisibleTextEditors w))
       end
  else None.
Proof.
  intros En U.
  destruct (RecomputationFacts.updateDecorators_runs parsePattern m w u En U)
    as (a0 & _ & ->). simpl.
  rewrite lookup_difference, RecomputationFacts.fold_remove_all,
    RecomputationFacts.fold_decorators. simpl.
  destruct (existsb _ _) eqn:X; [reflexivity|].
  destruct (decorators w !! k); [reflexivity|].
  rewrite (IdempotenceFacts.find_visible u _ _ X). reflexivity.
Qed.

(** X12. When a recomputation ends without an active literal, every
    visible view of a supported language, and the preview, has both
    layers empty. *)
Theorem no_active_literal_clears_the_views
    (parsePattern : string -> Flags -> option re) (m : option RegexMatch)
    (w : World) (u : Uri) (e : TextEditor) :
  List.NoDup (map editorId (getVisibleTextEditors w)) ->
  isEditorEnabled w = true ->
  editorURI w = Some u ->
  In e (getVisibleTextEditors w) ->
  relevant u e = true ->
  activeRegex (updateDecorators parsePattern m w) = None ->
  shownOn (decorations (updateDecorators parsePattern m w)) (editorId e) =
  noLayers.
Proof.
  intros ND En U I Rel Act.
  destruct (SynchronizerFacts.updateDecorators_view parsePattern m w u e
              ND En U I) as (a & Same & Shown).
  rewrite Act in Same. destruct a as [current|]; [destruct Same|].
  rewrite Shown. unfold visited. unfold relevant in Rel. rewrite Rel.
  reflexivity.
Qed.

(** X14. A recomputation with an explicit literal, made while the scratch
    document is visible, ends with that literal as the active one,
    whatever the focus and the caret. *)
Theorem explicit_literal_becomes_active
    (parsePattern : string -> Flags -> option re) (regexMatch : RegexMatch)
    (w : World) :
  isEditorEnabled w = true ->
  sameActive (Some regexMatch)
             (activeRegex (updateDecorators parsePattern (Some regexMatch) w)).
Proof.
  intros En.
  destruct (editorURI w) as [u|] eqn:U;
    [|unfold isEditorEnabled in En; rewrite U in En; discriminate].
  destruct (RecomputationFacts.updateDecorators_runs parsePattern
              (Some regexMatch) w u En U) as (a0 & -> & ->). simpl.
  apply (SynchronizerFacts.fold_sameActive u (addGMEnabled w) _
           (mkSync (decorators w) (decorators w) (Some regexMatch)
                   (decorations w))).
Qed.

(** A recomputation made again from the same selection: when the second
    one starts from a literal equal to the one the first started from,
    cursor included, it changes nothing. *)
Lemma same_selection_twice
    (parsePattern : string -> Flags -> option re) (m : option RegexMatch)
    (w : World) :
  List.NoDup (map editorId (getVisibleTextEditors w)) ->
  (m <> None \/
   exists activeEditor,
     activeTextEditor w = Some activeEditor /\
     isLanguageSupported (document activeEditor) = true) ->
  updateDecorators parsePattern m (updateDecorators parsePattern m w) =
  updateDecorators parsePattern m w.
Proof.
  intros ND Fresh.
  destruct (isEditorEnabled w) eqn:En;
    [|unfold updateDecorators at 2; rewrite En; simpl;
      unfold updateDecorators; rewrite En; reflexivity].
  destruct (editorURI w) as [u|] eqn:U;
    [|unfold isEditorEnabled in En; rewrite U in En; discriminate].
  destruct (RecomputationFacts.updateDecorators_runs parsePattern m w u En U)
    as (a0 & A0 & ->).
  set (es := getVisibleTextEditors w) in *.
  set (st1 := fold_left (visit u (addGMEnabled w)) es
                (mkSync (decorators w) (decorators w) a0 (decorations w))).
  cbv zeta.
  remember (mkWorld (s_decorators st1 ∖ s_remove st1) (addGMEnabled w)
              (editorURI w) (s_activeRegex st1) (visibleTextEditors w)
              (activeTextEditor w)
              (disposeAll (s_remove st1) (s_decorations st1))) as w1 eqn:W1.
  assert (F1 : decorators w1 = s_decorators st1 ∖ s_remove st1)
    by (rewrite W1; reflexivity).
  assert (F2 : addGMEnabled w1 = addGMEnabled w) by (rewrite W1; reflexivity).
  assert (F4 : activeRegex w1 = s_activeRegex st1)
    by (rewrite W1; reflexivity).
  assert (F6 : activeTextEditor w1 = activeTextEditor w)
    by (rewrite W1; reflexivity).
  assert (F7 : decorations w1 = disposeAll (s_remove st1) (s_decorations st1))
    by (rewrite W1; reflexivity).
  assert (G : getVisibleTextEditors w1 = es) by (rewrite W1; reflexivity).
  assert (En1 : isEditorEnabled w1 = true) by (rewrite W1; exact En).
  assert (U1 : editorURI w1 = Some u) by (rewrite W1; exact U).
  clear W1.
  destruct (RecomputationFacts.updateDecorators_runs parsePattern m w1 u
              En1 U1) as (a1 & A1 & ->).
  assert (Same0 : a1 = a0).
  { rewrite A1, A0. destruct m as [rm|]; [reflexivity|].
    destruct Fresh as [N|(ae & F & S)]; [contradiction N; reflexivity|].
    rewrite F6, F, S. reflexivity. }
  clear A1. subst a1. rewrite G, F2.
  set (st2 := fold_left (visit u (addGMEnabled w)) es
                (mkSync (decorators w1) (decorators w1) a0 (decorations w1))).
  cbv zeta.
  assert (D1 : forall k,
            decorators w1 !! k =
            if existsb (Nat.eqb k) (map editorId es)
            then match decorators w !! k with
                 | Some d => Some d
                 | None =>
                     option_map mkDecorator
                       (List.find
                          (fun e => relevant u e && (editorId e =? k)) es)
                 end
            else None).
  { intros k. rewrite F1, lookup_difference. unfold st1.
    rewrite RecomputationFacts.fold_remove_all,
      RecomputationFacts.fold_decorators.
    cbn [s_remove s_decorators].
    destruct (existsb _ _) eqn:X; [reflexivity|].
    destruct (decorators w !! k); [reflexivity|].
    rewrite (IdempotenceFacts.find_visible u _ _ X). reflexivity. }
  assert (R2 : forall k, s_remove st2 !! k = None).
  { intros k. unfold st2. rewrite RecomputationFacts.fold_remove_all.
    cbn [s_remove]. rewrite D1.
    destruct (existsb _ _); reflexivity. }
  assert (Act : s_activeRegex st2 = activeRegex w1).
  { rewrite F4. apply RecomputationFacts.fold_active_alone. reflexivity. }
  assert (Dec : s_decorators st2 ∖ s_remove st2 = decorators w1).
  { apply map_eq. intros k. rewrite lookup_difference, R2.
    unfold st2. rewrite RecomputationFacts.fold_decorators.
    cbn [s_decorators]. rewrite D1.
    destruct (existsb (Nat.eqb k) (map editorId es)) eqn:X;
      [|rewrite (IdempotenceFacts.find_visible u _ _ X); reflexivity].
    destruct (decorators w !! k); [reflexivity|].
    destruct (List.find _ es); reflexivity. }
  assert (Lay : disposeAll (s_remove st2) (s_decorations st2) =
                decorations w1).
  { apply map_eq. intros k.
    rewrite IdempotenceFacts.disposeAll_lookup, R2.
    destruct (existsb (Nat.eqb k) (map editorId es)) eqn:X.
    - apply RecomputationFacts.visible_id in X.
      apply in_map_iff in X. destruct X as (e & <- & I).
      apply in_split in I. destruct I as (pre & post & Split).
      fold es in Split.
      assert (L1 : decorations w1 !! editorId e =
                   if relevant u e
                   then Some (update e
                     (s_activeRegex
                        (fold_left (visit u (addGMEnabled w)) pre
                           (mkSync (decorators w) (decorators w) a0
                                   (decorations w))))
                     u (addGMEnabled w)
                     (shownOn (decorations w) (editorId e))).1
                   else decorations w !! editorId e).
      { rewrite F7, IdempotenceFacts.disposeAll_lookup. unfold st1.
        rewrite RecomputationFacts.fold_remove_all.
        replace (existsb (Nat.eqb (editorId e)) (map editorId es)) with true.
        - rewrite Split in ND |- *.
          rewrite IdempotenceFacts.fold_decorations_at by exact ND.
          reflexivity.
        - symmetry. apply existsb_exists. exists (editorId e).
          split; [|apply Nat.eqb_refl].
          rewrite Split. apply in_map, in_elt. }
      unfold st2. rewrite Split in ND |- *.
      rewrite IdempotenceFacts.fold_decorations_at by exact ND.
      cbn [s_decorations]. rewrite L1.
      destruct (relevant u e); [|reflexivity].
      rewrite (RecomputationFacts.fold_active_alone u (addGMEnabled w) pre
                 (mkSync (decorators w1) (decorators w1) a0 (decorations w1))
                 (mkSync (decorators w) (decorators w) a0 (decorations w))
                 eq_refl).
      unfold shownOn at 1. rewrite L1. simpl.
      rewrite RecomputationFacts.update_twice. reflexivity.
    - unfold st2.
      rewrite (RecomputationFacts.fold_decorations_elsewhere u _ _ _ X).
      reflexivity. }
  rewrite Dec, Act, Lay, <- F2. destruct w1. reflexivity.
Qed.

Lemma hidden_views_witness :
  decorators
    (updateDecorators basicParser None
       (mkWorld (decorators Scenario.afterA) true (Some (mkUri "/tmp/sample"))
                (activeRegex Scenario.afterA)
                [Scenario.viewA; Scenario.viewP] (Some Scenario.viewA)
                (decorations Scenario.afterA))) !! 2 = None /\
  shownOn
    (decorations
       (updateDecorators basicParser None
          (mkWorld (decorators Scenario.afterA) true
                   (Some (mkUri "/tmp/sample"))
                   (activeRegex Scenario.afterA)
                   [Scenario.viewA; Scenario.viewP] (Some Scenario.viewA)
                   (decorations Scenario.afterA)))) 2 = noLayers.
Proof.
  apply (hidden_views_are_retired basicParser None
           (mkWorld (decorators Scenario.afterA) true
                    (Some (mkUri "/tmp/sample"))
                    (activeRegex Scenario.afterA)
                    [Scenario.viewA; Scenario.viewP] (Some Scenario.viewA)
                    (decorations Scenario.afterA))
           2 (mkDecorator Scenario.viewB)).
  - reflexivity.
  - vm_compute. reflexivity.
  - simpl. intuition discriminate.
Defined.

Lemma tracked_views_witness :
  decorators (updateDecorators basicParser None Scenario.opened) !! 2 =
  if existsb (Nat.eqb 2)
       (map editorId (getVisibleTextEditors Scenario.opened))
  then match decorators Scenario.opened !! 2 with
       | Some d => Some d
       | None =>
           option_map mkDecorator
             (List.find
                (fun e => relevant (mkUri "/tmp/sample") e && (editorId e =? 2))
                (getVisibleTextEditors Scenario.opened))
       end
  else None.
Proof.
  apply (tracked_views_after_recomputation basicParser None Scenario.opened
           (mkUri "/tmp/sample") 2); reflexivity.
Defined.

(** The caret of [docA] moved off the literal: no active literal, and
    the view of [docA] is empty. *)
Lemma no_active_literal_witness :
  shownOn
    (decorations
       (updateDecorators basicParser None
          (Scenario.focus
             (Some (mkEditor 1 Scenario.docA (mkPosition 0 0) (Some 1)))
             Scenario.afterA))) (editorId Scenario.viewA) = noLayers.
Proof.
  apply (no_active_literal_clears_the_views basicParser None
           (Scenario.focus
              (Some (mkEditor 1 Scenario.docA (mkPosition 0 0) (Some 1)))
              Scenario.afterA)
           (mkUri "/tmp/sample") Scenario.viewA).
  - repeat constructor; simpl; intuition discriminate.
  - reflexivity.
  - reflexivity.
  - left. reflexivity.
  - reflexivity.
  - vm_compute. reflexivity.
Defined.

Lemma explicit_literal_witness :
  sameActive
    (Some (mkRegexMatch Scenario.docB Scenario.abStarG (Range4 0 4 0 7)))
    (activeRegex
       (updateDecorators basicParser
          (Some (mkRegexMatch Scenario.docB Scenario.abStarG (Range4 0 4 0 7)))
          Scenario.afterA)).
Proof.
  apply (explicit_literal_becomes_active basicParser
           (mkRegexMatch Scenario.docB Scenario.abStarG (Range4 0 4 0 7))
           Scenario.afterA).
  reflexivity.
Defined.

(** ** The pattern and the flags of a candidate *)

Module PartsFacts.

Import EngineFacts GrammarFacts.

Section Flags.

Variable fl : Flags.
Variable input : string.
Hypothesis caseSensitive : ignoreCase fl = false.

Local Abbreviation Sem := (Sem fl input).

(** A starred class takes members of the class only, and no group. *)
Lemma Sem_star_class (A : ascii -> bool) (x z : MatchState) :
  Sem (Star (Cls false A)) x z ->
  captures z = captures x /\ endIndex x <= endIndex z /\
  forall i, endIndex x <= i < endIndex z ->
    exists ch, String.get i input = Some ch /\ A ch = true.
Proof.
  intros H. remember (Star (Cls false A)) as r eqn:R.
  induction H as
    [x|invert A' x ch G T|x ch G T|r1 r2 x y z _ IH1 _ IH2
    |r1 r2 x y _ IH|r1 r2 x y _ IH|r' x|r' x y z H1 IH1 Hne H2 IH2
    |n r' x y _ IH|x B|x B]; try discriminate.
  - repeat split; [lia | intros i Hi; lia].
  - inversion R; subst r'. clear IH1. specialize (IH2 eq_refl).
    apply (Sem_class fl input caseSensitive) in H1.
    destruct H1 as (ch & G & Ach & ->). simpl in *.
    rewrite reset_none in IH2. destruct IH2 as (C & L & F).
    repeat split; [exact C | lia |].
    intros i Hi. destruct (Nat.eq_dec i (endIndex x)) as [->|Ne].
    + exists ch. auto.
    + apply F. lia.
Qed.

(** Slash, body, slash, flags: the body is not empty and the flags are
    flag letters. *)
Lemma Sem_delimited_flags (flagChars : string) (x z : MatchState) :
  Sem (delimited flagChars) x z ->
  exists e3 : nat,
    S (endIndex x) < e3 /\ S e3 <= endIndex z /\
    captures z =
    (4, (S e3, endIndex z)) :: (3, (S (endIndex x), e3)) :: captures x /\
    forall i, S e3 <= i < endIndex z ->
      exists ch, String.get i input = Some ch /\ one_of flagChars ch = true.
Proof.
  unfold delimited. intros H.
  split_seq H y1 H1 H2.
  apply (Sem_chr fl input caseSensitive) in H1. destruct H1 as (G1 & ->).
  split_seq H2 y2 H3 H4.
  apply (Sem_group fl input) in H3; [|reflexivity]. destruct H3 as (L3 & C3).
  split_seq H4 y3 H5 H6.
  apply (Sem_chr fl input caseSensitive) in H5. destruct H5 as (G5 & ->).
  open_group H6 y4 Hs. apply Sem_star_class in Hs.
  destruct Hs as (Cs & Ls & Fs). simpl in *.
  exists (endIndex y2). rewrite Cs, C3. repeat split; auto; lia.
Qed.

End Flags.

(** The characters of a piece of [s] are characters of [s] at the
    positions of the piece. *)
Lemma one_of_substring (s : string) (a n : nat) (c : ascii) :
  one_of (substring a n s) c = true ->
  exists i, a <= i < a + n /\ String.get i s = Some c.
Proof.
  revert a n; induction s as [|c0 s IH]; intros [|a] [|n]; simpl;
    try discriminate.
  - destruct (Ascii.eqb c0 c) eqn:Q; simpl.
    + intros _. apply Ascii.eqb_eq in Q. subst c0. exists 0. split; [lia|].
      reflexivity.
    + intros H. apply IH in H. destruct H as (i & Hi & G).
      exists (S i). split; [lia | exact G].
  - intros H. apply IH in H. destruct H as (i & Hi & G).
    exists (S i). split; [lia | exact G].
  - intros H. apply IH in H. destruct H as (i & Hi & G).
    exists (S i). split; [lia | exact G].
Qed.

Lemma parts_intro (m : RegExpExecArray) (flagChars : string)
    (a3 b3 a4 b4 : nat) :
  capture 3 (groups m) = Some (a3, b3) ->
  a3 < b3 -> b3 <= String.length (input m) ->
  capture 4 (groups m) = Some (a4, b4) ->
  (forall i, a4 <= i < b4 ->
     exists ch, String.get i (input m) = Some ch /\
                one_of flagChars ch = true) ->
  group m 3 <> EmptyString /\
  forall c, one_of (group m 4) c = true -> one_of flagChars c = true.
Proof.
  intros C3 L3 B3 C4 F. unfold group. rewrite C3, C4. split.
  - intros E. apply (f_equal String.length) in E.
    rewrite length_substring in E by lia. simpl in E. lia.
  - intros c H. apply one_of_substring in H. destruct H as (i & Hi & G).
    destruct (F i ltac:(lia)) as (ch & G' & O). congruence.
Qed.

Lemma regexRegex_flags (text : string) (l : nat) (m : RegExpExecArray)
    (R' : RegExp) :
  exec (set_lastIndex regexRegex l) text = (Some m, R') ->
  group m 3 <> EmptyString /\
  forall c, one_of (group m 4) c = true -> one_of "gimuy" c = true.
Proof.
  intros E. apply exec_Sem in E.
  destruct E as (z & H & Gs & Me & In & Hi).
  cbv [source flags set_lastIndex regexRegex] in H.
  split_seq H y1 H1 H2.
  apply Sem_group in H1; try reflexivity. destruct H1 as (L1 & C1).
  split_seq H2 y2 H3 H4. open_group H3 y2' Hd.
  apply Sem_delimited_flags in Hd; try reflexivity.
  destruct Hd as (e3 & L3 & L4 & Cd & Fd).
  apply Sem_group in H4; try reflexivity. destruct H4 as (L5 & C5).
  cbn [endIndex captures] in *. rewrite Cd, C1 in C5. rewrite C5 in Gs.
  apply (parts_intro m _ (S (endIndex y1)) e3 (S e3) (endIndex y2'));
    rewrite ?Gs, ?In; try reflexivity; try lia. exact Fd.
Qed.

Lemma haxeRegexRegex_flags (text : string) (l : nat) (m : RegExpExecArray)
    (R' : RegExp) :
  exec (set_lastIndex haxeRegexRegex l) text = (Some m, R') ->
  group m 3 <> EmptyString /\
  forall c, one_of (group m 4) c = true -> one_of "gimsu" c = true.
Proof.
  intros E. apply exec_Sem in E.
  destruct E as (z & H & Gs & Me & In & Hi).
  cbv [source flags set_lastIndex haxeRegexRegex] in H.
  split_seq H y1 H1 H2.
  apply Sem_group in H1; try reflexivity. destruct H1 as (L1 & C1).
  split_seq H2 y2 H3 H4. open_group H3 y2' Hs.
  split_seq Hs yt Ht Hd.
  apply Sem_chr in Ht; try reflexivity. destruct Ht as (Gt & ->).
  apply Sem_delimited_flags in Hd; try reflexivity.
  destruct Hd as (e3 & L3 & L4 & Cd & Fd).
  apply Sem_group in H4; try reflexivity. destruct H4 as (L5 & C5).
  cbn [endIndex captures] in *. rewrite Cd, C1 in C5. rewrite C5 in Gs.
  apply (parts_intro m _ (S (S (endIndex y1))) e3 (S e3) (endIndex y2'));
    rewrite ?Gs, ?In; try reflexivity; try lia. exact Fd.
Qed.

Lemma phpRegexRegex_flags (text : string) (l : nat) (m : RegExpExecArray)
    (R' : RegExp) :
  exec (set_lastIndex phpRegexRegex l) text = (Some m, R') ->
  group m 3 <> EmptyString /\
  forall c, one_of (group m 4) c = true -> one_of "gimuy" c = true.
Proof.
  intros E. apply exec_Sem in E.
  destruct E as (z & H & Gs & Me & In & Hi).
  cbv [source flags set_lastIndex phpRegexRegex] in H.
  split_seq H y1 H1 H2.
  apply Sem_group in H1; try reflexivity. destruct H1 as (L1 & C1).
  split_seq H2 yq Hq H2'.
  apply Sem_class in Hq; try reflexivity. destruct Hq as (q & Gq & Mq & ->).
  split_seq H2' y2 H3 H4. open_group H3 y2' Hd.
  apply Sem_delimited_flags in Hd; try reflexivity.
  destruct Hd as (e3 & L3 & L4 & Cd & Fd).
  split_seq H4 yq' Hq' H5.
  apply Sem_class in Hq'; try reflexivity.
  destruct Hq' as (q' & Gq' & Mq' & ->).
  apply Sem_group in H5; try reflexivity. destruct H5 as (L5 & C5).
  cbn [endIndex captures] in *. rewrite Cd, C1 in C5. rewrite C5 in Gs.
  apply (parts_intro m _ (S (S (endIndex y1))) e3 (S e3) (endIndex y2'));
    rewrite ?Gs, ?In; try reflexivity; try lia. exact Fd.
Qed.

End PartsFacts.

(** X16. In every dialect, the pattern of a candidate is never empty and
    its flags are made of the flag letters of the dialect only: [gimsu]
    for haxe, [gimuy] for the others. *)
Theorem candidate_pattern_and_flags (languageId text : string) :
  Forall (fun m =>
            group m 3 <> EmptyString /\
            forall c, one_of (group m 4) c = true ->
                      one_of (flagLetters languageId) c = true)
         (scan (getRegexRegex languageId) text).
Proof.
  apply GrammarFacts.scan_all. intros l m R'.
  unfold getRegexRegex, flagLetters.
  destruct (String.eqb languageId "haxe");
    [apply PartsFacts.haxeRegexRegex_flags|].
  destruct (String.eqb languageId "php");
    [apply PartsFacts.phpRegexRegex_flags | apply PartsFacts.regexRegex_flags].
Qed.

(** ** The handlers and the commands *)

Module CommandFacts.

(** A recomputation leaves the flag, the scratch path and the host's
    views as they are. *)
Lemma updateDecorators_frame (parsePattern : string -> Flags -> option re)
    (m : option RegexMatch) (w : World) :
  addGMEnabled (updateDecorators parsePattern m w) = addGMEnabled w /\
  editorURI (updateDecorators parsePattern m w) = editorURI w /\
  visibleTextEditors (updateDecorators parsePattern m w) =
  visibleTextEditors w /\
  activeTextEditor (updateDecorators parsePattern m w) = activeTextEditor w.
Proof.
  unfold updateDecorators. destruct (negb (isEditorEnabled w)); [auto|].
  destruct (editorURI w) eqn:U; simpl; auto.
Qed.

Lemma isEditorEnabled_frame (w w' : World) :
  editorURI w' = editorURI w ->
  visibleTextEditors w' = visibleTextEditors w ->
  isEditorEnabled w' = isEditorEnabled w.
Proof.
  intros U V. unfold isEditorEnabled, getVisibleTextEditors.
  rewrite U, V. reflexivity.
Qed.

Lemma closeStep_decorators (e : TextDocument)
    (st : gmap nat RegexMatchDecorator * gmap nat Layers)
    (kv : nat * RegexMatchDecorator) :
  (closeStep e st kv).1 =
  if String.eqb (fsPath (uri (document (editor kv.2)))) (fsPath (uri e))
  then delete kv.1 st.1 else st.1.
Proof.
  unfold closeStep.
  destruct (String.eqb (fsPath (uri (document (editor kv.2))))
                       (fsPath (uri e))); [|reflexivity].
  destruct (delete kv.1 st.1 !! kv.1); reflexivity.
Qed.

(** The loop of the close handler, key by key. *)
Lemma close_fold (e : TextDocument) (k : nat)
    (l : list (nat * RegexMatchDecorator)) :
  forall st,
    (fold_left (closeStep e) l st).1 !! k =
    match List.find
            (fun kv => (kv.1 =? k) &&
                       String.eqb (fsPath (uri (document (editor kv.2))))
                                  (fsPath (uri e))) l with
    | Some _ => None
    | None => st.1 !! k
    end.
Proof.
  induction l as [|kv l IH]; intros st; simpl; [reflexivity|].
  rewrite IH, closeStep_decorators.
  destruct (kv.1 =? k) eqn:Q; simpl.
  - apply Nat.eqb_eq in Q.
    destruct (String.eqb (fsPath (uri (document (editor kv.2))))
                         (fsPath (uri e))); [|reflexivity].
    destruct (List.find _ l); [reflexivity|].
    rewrite Q. apply lookup_delete_eq.
  - apply Nat.eqb_neq in Q.
    destruct (List.find _ l); [reflexivity|].
    destruct (String.eqb (fsPath (uri (document (editor kv.2))))
                         (fsPath (uri e))); [|reflexivity].
    apply lookup_delete_ne. exact Q.
Qed.

End CommandFacts.

(** X17. When a document closes, the tracking map loses the entries of
    the views on a document of the same path and keeps every other entry
    as it was. *)
Theorem close_keeps_the_other_documents (e : TextDocument) (w : World)
    (k : nat) :
  decorators (onDidCloseTextDocument e w) !! k =
  match decorators w !! k with
  | Some d =>
      if String.eqb (fsPath (uri (document (editor d)))) (fsPath (uri e))
      then None else Some d
  | None => None
  end.
Proof.
  unfold onDidCloseTextDocument. simpl. rewrite CommandFacts.close_fold. simpl.
  destruct (List.find _ _) as [kv|] eqn:F.
  - apply find_some in F. destruct F as (I & Q).
    apply andb_prop in Q. destruct Q as (Q1 & Q2).
    apply Nat.eqb_eq in Q1. destruct kv as [k' d]. simpl in *. subst k'.
    apply list_elem_of_In, elem_of_map_to_list in I.
    rewrite I, Q2. reflexivity.
  - destruct (decorators w !! k) as [d|] eqn:L; [|reflexivity].
    pose proof L as I. apply elem_of_map_to_list, list_elem_of_In in I.
    pose proof (find_none _ _ F _ I) as Q. simpl in Q.
    rewrite Nat.eqb_refl in Q. simpl in Q. rewrite Q. reflexivity.
Qed.

(** X18. The preview command without a literal, while the scratch
    document is visible: the tracking map is emptied, every view that
    was tracked shows nothing, every other view shows what it showed,
    the status bar item is hidden; the active literal stays and the
    scratch document is still visible. *)
Theorem toggle_off_clears_the_tracked_views
    (parsePattern : string -> Flags -> option re) (fresh : Uri) (s : Session)
    (k : nat) :
  isEditorEnabled (world s) = true ->
  decorators (world (toggleRegexPreview parsePattern fresh None s)) = ∅ /\
  shownOn (decorations (world (toggleRegexPreview parsePattern fresh None s))) k =
  match decorators (world s) !! k with
  | Some _ => noLayers
  | None => shownOn (decorations (world s)) k
  end /\
  sb_shown (toggleGM (toggleRegexPreview parsePattern fresh None s)) = false /\
  activeRegex (world (toggleRegexPreview parsePattern fresh None s)) =
  activeRegex (world s) /\
  isEditorEnabled (world (toggleRegexPreview parsePattern fresh None s)) = true.
Proof.
  intros En. unfold toggleRegexPreview. rewrite En. simpl.
  repeat split.
  - apply RecomputationFacts.disposeAll_shown.
  - rewrite <- En. apply CommandFacts.isEditorEnabled_frame; reflexivity.
Qed.

Lemma toggle_off_witness :
  decorators
    (world (toggleRegexPreview basicParser (mkUri "/tmp/other") None
              Scenario.running)) = ∅ /\
  shownOn
    (decorations
       (world (toggleRegexPreview basicParser (mkUri "/tmp/other") None
                 Scenario.running))) 2 =
  match decorators (world Scenario.running) !! 2 with
  | Some _ => noLayers
  | None => shownOn (decorations (world Scenario.running)) 2
  end /\
  sb_shown
    (toggleGM (toggleRegexPreview basicParser (mkUri "/tmp/other") None
                 Scenario.running)) = false /\
  activeRegex
    (world (toggleRegexPreview basicParser (mkUri "/tmp/other") None
              Scenario.running)) =
  activeRegex (world Scenario.running) /\
  isEditorEnabled
    (world (toggleRegexPreview basicParser (mkUri "/tmp/other") None
              Scenario.running)) = true.
Proof.
  apply (toggle_off_clears_the_tracked_views basicParser (mkUri "/tmp/other")
           Scenario.running 2).
  reflexivity.
Defined.

(** X20. Every code lens of a document carries one literal that
    [findRegexes] gives for the document, accepted by the engine, and
    sits on the range of that literal; its command, run with that
    literal while the scratch document is visible, makes the literal the
    active one and leaves the status bar item alone. *)
Theorem lens_click_activates_its_literal
    (parsePattern : string -> Flags -> option re) (fresh : Uri) (s : Session)
    (d : TextDocument) (lenses : list CodeLens) (lens : CodeLens) :
  provideCodeLenses parsePattern true d = Some lenses ->
  In lens lenses ->
  isEditorEnabled (world s) = true ->
  exists regexMatch : RegexMatch,
    cl_arguments lens = [regexMatch] /\
    cl_range lens = rm_range regexMatch /\
    cl_command lens = "extension.toggleRegexPreview"%string /\
    In regexMatch (findRegexes parsePattern d) /\
    accepted parsePattern regexMatch /\
    sameActive
      (Some regexMatch)
      (activeRegex
         (world (toggleRegexPreview parsePattern fresh (Some regexMatch) s))) /\
    toggleGM (toggleRegexPreview parsePattern fresh (Some regexMatch) s) =
    toggleGM s.
Proof.
  intros P I En. unfold provideCodeLenses in P. simpl in P.
  inversion P; subst lenses; clear P.
  apply in_map_iff in I. destruct I as (regexMatch & <- & I).
  exists regexMatch. simpl. repeat split; [exact I | | |].
  - destruct (CompilerFacts.findRegexes_from_scan _ _ _ I) as (i & m & _ & C).
    exact (CompilerFacts.createRegexMatch_accepted _ _ _ _ _ C).
  - unfold toggleRegexPreview. rewrite En. simpl.
    destruct (editorURI (world s)) as [u|] eqn:U;
      [|unfold isEditorEnabled in En; rewrite U in En; discriminate].
    destruct (RecomputationFacts.updateDecorators_runs parsePattern
                (Some regexMatch) (world s) u En U) as (a0 & -> & ->). simpl.
    apply (SynchronizerFacts.fold_sameActive u (addGMEnabled (world s)) _
             (mkSync (decorators (world s)) (decorators (world s))
                     (Some regexMatch) (decorations (world s)))).
  - unfold toggleRegexPreview. rewrite En. reflexivity.
Qed.

Lemma lens_click_witness :
  exists regexMatch : RegexMatch,
    cl_arguments
      (mkCodeLens (Range4 0 4 0 7) "Test Regex..."
                  "extension.toggleRegexPreview"
                  [mkRegexMatch Scenario.docB
                                (mkRegExp (Chr "b") noFlags 0)
                                (Range4 0 4 0 7)]) = [regexMatch] /\
    cl_range
      (mkCodeLens (Range4 0 4 0 7) "Test Regex..."
                  "extension.toggleRegexPreview"
                  [mkRegexMatch Scenario.docB
                                (mkRegExp (Chr "b") noFlags 0)
                                (Range4 0 4 0 7)]) = rm_range regexMatch /\
    cl_command
      (mkCodeLens (Range4 0 4 0 7) "Test Regex..."
                  "extension.toggleRegexPreview"
                  [mkRegexMatch Scenario.docB
                                (mkRegExp (Chr "b") noFlags 0)
                                (Range4 0 4 0 7)]) =
    "extension.toggleRegexPreview"%string /\
    In regexMatch (findRegexes basicParser Scenario.docB) /\
    accepted basicParser regexMatch /\
    sameActive
      (Some regexMatch)
      (activeRegex
         (world (toggleRegexPreview basicParser (mkUri "/tmp/other")
                   (Some regexMatch) Scenario.running))) /\
    toggleGM (toggleRegexPreview basicParser (mkUri "/tmp/other")
                (Some regexMatch) Scenario.running) =
    toggleGM Scenario.running.
Proof.
  apply (lens_click_activates_its_literal basicParser (mkUri "/tmp/other")
           Scenario.running Scenario.docB
           [mkCodeLens (Range4 0 4 0 7) "Test Regex..."
                       "extension.toggleRegexPreview"
                       [mkRegexMatch Scenario.docB
                                     (mkRegExp (Chr "b") noFlags 0)
                                     (Range4 0 4 0 7)]]).
  - vm_compute. reflexivity.
  - left. reflexivity.
  - reflexivity.
Defined.

(** X21. At the end of the session every tracked view is cleared and the
    tracking map, the views that were not tracked and the rest of the
    state are as they were. *)
Theorem session_end_clears_the_tracked_views (w : World) (k : nat) :
  shownOn (decorations (disposeDecorators w)) k =
  (match decorators w !! k with
   | Some _ => noLayers
   | None => shownOn (decorations w) k
   end) /\
  decorators (disposeDecorators w) = decorators w /\
  activeRegex (disposeDecorators w) = activeRegex w /\
  isEditorEnabled (disposeDecorators w) = isEditorEnabled w.
Proof.
  repeat split. apply RecomputationFacts.disposeAll_shown.
Qed.

(** X22. The scratch path is chosen once: with a path already chosen, no
    command and no handler changes it, whatever path the host would make
    up. *)
Theorem scratch_path_is_chosen_once
    (parsePattern : string -> Flags -> option re) (fresh u : Uri)
    (m : option RegexMatch) (e : TextDocument) (s : Session) :
  editorURI (world s) = Some u ->
  editorURI (world (toggleRegexPreview parsePattern fresh m s)) = Some u /\
  editorURI (world (toggleGMCommand parsePattern s)) = Some u /\
  editorURI (updateDecorators parsePattern m (world s)) = Some u /\
  editorURI (onDidCloseTextDocument e (world s)) = Some u /\
  editorURI (disposeDecorators (world s)) = Some u.
Proof.
  intros U. repeat split; try exact U.
  - unfold toggleRegexPreview.
    destruct (negb (isEditorEnabled (world s))); simpl.
    + unfold openLoremIpsum. rewrite U. exact U.
    + destruct m as [regexMatch|]; simpl; [|exact U].
      destruct (CommandFacts.updateDecorators_frame parsePattern
                  (Some regexMatch) (world s)) as (_ & -> & _). exact U.
  - unfold toggleGMCommand. simpl.
    destruct (CommandFacts.updateDecorators_frame parsePattern None
                (setAddGMEnabled (negb (addGMEnabled (world s))) (world s)))
      as (_ & -> & _). exact U.
  - destruct (CommandFacts.updateDecorators_frame parsePattern m (world s))
      as (_ & -> & _). exact U.
Qed.

Lemma scratch_path_witness :
  editorURI (world (toggleRegexPreview basicParser (mkUri "/tmp/other") None
                      Scenario.running)) = Some (mkUri "/tmp/sample") /\
  editorURI (world (toggleGMCommand basicParser Scenario.running)) =
  Some (mkUri "/tmp/sample") /\
  editorURI (updateDecorators basicParser None (world Scenario.running)) =
  Some (mkUri "/tmp/sample") /\
  editorURI (onDidCloseTextDocument Scenario.docB (world Scenario.running)) =
  Some (mkUri "/tmp/sample") /\
  editorURI (disposeDecorators (world Scenario.running)) =
  Some (mkUri "/tmp/sample").
Proof.
  apply (scratch_path_is_chosen_once basicParser (mkUri "/tmp/other")
           (mkUri "/tmp/sample") None Scenario.docB Scenario.running).
  reflexivity.
Defined.

(** The view of [docB] when the caret moved to the literal of [docA]:
    neither the preview nor the source, it keeps its span. *)
Lemma untouched_view_witness :
  shownOn
    (decorations
       (updateDecorators basicParser None
          (Scenario.focus (Some Scenario.viewA) Scenario.afterB))) 2 =
  shownOn
    (decorations (Scenario.focus (Some Scenario.viewA) Scenario.afterB)) 2.
Proof.
  apply (updateDecorators_layers basicParser None
           (Scenario.focus (Some Scenario.viewA) Scenario.afterB)
           (mkUri "/tmp/sample") Scenario.viewB
           ltac:(repeat constructor; simpl; intuition discriminate)
           eq_refl
           eq_refl
           (or_intror (or_introl eq_refl))
           eq_refl
           (mkRegexMatch Scenario.docA
                         (mkRegExp (Chr "a") noFlags 0)
                         (Range4 0 4 0 7))).
  - vm_compute. reflexivity.
  - reflexivity.
Defined.

(** X29. While the scratch document is not visible nothing is
    recomputed: a recomputation leaves the state as it is, with or
    without a literal, and the augmentation command changes the flag and
    the text of the status bar item only. *)
Theorem nothing_is_recomputed_without_the_preview
    (parsePattern : string -> Flags -> option re) (m : option RegexMatch)
    (s : Session) :
  isEditorEnabled (world s) = false ->
  updateDecorators parsePattern m (world s) = world s /\
  world (toggleGMCommand parsePattern s) =
  setAddGMEnabled (negb (addGMEnabled (world s))) (world s) /\
  labelled (toggleGMCommand parsePattern s).
Proof.
  intros En.
  assert (En' : isEditorEnabled
                  (setAddGMEnabled (negb (addGMEnabled (world s))) (world s)) =
                false).
  { rewrite <- En. apply CommandFacts.isEditorEnabled_frame; reflexivity. }
  unfold toggleGMCommand, labelled, updateDecorators. simpl.
  rewrite En, En'. simpl. auto.
Qed.

Lemma nothing_is_recomputed_witness :
  updateDecorators basicParser None (world Scenario.closed) =
  world Scenario.closed /\
  world (toggleGMCommand basicParser Scenario.closed) =
  setAddGMEnabled (negb (addGMEnabled (world Scenario.closed)))
                  (world Scenario.closed) /\
  labelled (toggleGMCommand basicParser Scenario.closed).
Proof.
  apply (nothing_is_recomputed_without_the_preview basicParser None
           Scenario.closed).
  reflexivity.
Defined.

(** ** Where the literal of a candidate is written *)

Module PositionFacts.

Import EngineFacts GrammarFacts.

(** The default grammar: the reported span starts on the opening
    delimiter and ends with the flags. *)
Lemma regexRegex_positions (text : string) (l : nat) (m : RegExpExecArray)
    (R' : RegExp) :
  exec (set_lastIndex regexRegex l) text = (Some m, R') ->
  delimiterStart m = spanStart m /\ flagsEnd m = spanEnd m.
Proof.
  intros E. apply exec_Sem in E.
  destruct E as (z & H & Gs & Me & In & Hi).
  cbv [source flags set_lastIndex regexRegex] in H.
  split_seq H y1 H1 H2.
  apply Sem_group in H1; try reflexivity. destruct H1 as (L1 & C1).
  split_seq H2 y2 H3 H4. open_group H3 y2' Hd.
  apply Sem_delimited in Hd; try reflexivity.
  destruct Hd as (e3 & G1 & L3 & G3 & L4 & Cd).
  apply Sem_group in H4; try reflexivity. destruct H4 as (L5 & C5).
  cbn [endIndex captures] in *. rewrite Cd, C1 in C5. rewrite C5 in Gs.
  assert (S1 : spanStart m = endIndex y1) by (span_lengths; lia).
  assert (S2 : spanEnd m = endIndex y2') by (span_lengths; lia).
  rewrite S1, S2. unfold delimiterStart, flagsEnd. rewrite Gs. simpl.
  split; reflexivity.
Qed.

(** The prefix-sigil grammar: the reported span starts on the sigil, one
    character before the opening delimiter. *)
Lemma haxeRegexRegex_positions (text : string) (l : nat) (m : RegExpExecArray)
    (R' : RegExp) :
  exec (set_lastIndex haxeRegexRegex l) text = (Some m, R') ->
  delimiterStart m = S (spanStart m) /\ flagsEnd m = spanEnd m.
Proof.
  intros E. apply exec_Sem in E.
  destruct E as (z & H & Gs & Me & In & Hi).
  cbv [source flags set_lastIndex haxeRegexRegex] in H.
  split_seq H y1 H1 H2.
  apply Sem_group in H1; try reflexivity. destruct H1 as (L1 & C1).
  split_seq H2 y2 H3 H4. open_group H3 y2' Hs.
  split_seq Hs yt Ht Hd.
  apply Sem_chr in Ht; try reflexivity. destruct Ht as (Gt & ->).
  apply Sem_delimited in Hd; try reflexivity.
  destruct Hd as (e3 & G1 & L3 & G3 & L4 & Cd).
  apply Sem_group in H4; try reflexivity. destruct H4 as (L5 & C5).
  cbn [endIndex captures] in *. rewrite Cd, C1 in C5. rewrite C5 in Gs.
  assert (S1 : spanStart m = endIndex y1) by (span_lengths; lia).
  assert (S2 : spanEnd m = endIndex y2') by (span_lengths; lia).
  rewrite S1, S2. unfold delimiterStart, flagsEnd. rewrite Gs. simpl.
  split; reflexivity.
Qed.

(** The quoted-string grammar: the reported span starts one character
    before the opening delimiter and ends one character before the end
    of the flags. *)
Lemma phpRegexRegex_positions (text : string) (l : nat) (m : RegExpExecArray)
    (R' : RegExp) :
  exec (set_lastIndex phpRegexRegex l) text = (Some m, R') ->
  delimiterStart m = S (spanStart m) /\ flagsEnd m = S (spanEnd m).
Proof.
  intros E. apply exec_Sem in E.
  destruct E as (z & H & Gs & Me & In & Hi).
  cbv [source flags set_lastIndex phpRegexRegex] in H.
  split_seq H y1 H1 H2.
  apply Sem_group in H1; try reflexivity. destruct H1 as (L1 & C1).
  split_seq H2 yq Hq H2'.
  apply Sem_class in Hq; try reflexivity. destruct Hq as (q & Gq & Mq & ->).
  split_seq H2' y2 H3 H4. open_group H3 y2' Hd.
  apply Sem_delimited in Hd; try reflexivity.
  destruct Hd as (e3 & G1 & L3 & G3 & L4 & Cd).
  split_seq H4 yq' Hq' H5.
  apply Sem_class in Hq'; try reflexivity.
  destruct Hq' as (q' & Gq' & Mq' & ->).
  apply Sem_group in H5; try reflexivity. destruct H5 as (L5 & C5).
  cbn [endIndex captures] in *. rewrite Cd, C1 in C5. rewrite C5 in Gs.
  assert (S1 : spanStart m = endIndex y1) by (span_lengths; lia).
  assert (S2 : S (spanEnd m) = endIndex y2') by (span_lengths; lia).
  rewrite S1, S2. unfold delimiterStart, flagsEnd. rewrite Gs. simpl.
  split; reflexivity.
Qed.

(** Outside the quoted-string dialect the span that the tracker tests is
    the literal as written. *)
Lemma written_span (languageId text : string) :
  String.eqb languageId "php" = false ->
  Forall (fun m => literalStart languageId m = spanStart m /\
                   flagsEnd m = spanEnd m)
         (scan (getRegexRegex languageId) text).
Proof.
  intros P. apply scan_all. intros l m R'.
  unfold getRegexRegex, literalStart.
  destruct (String.eqb languageId "haxe").
  - intros E. apply haxeRegexRegex_positions in E. destruct E as (-> & ->).
    auto.
  - rewrite P. apply regexRegex_positions.
Qed.

Lemma find_agree {A : Type} (f g : A -> bool) (l : list A) :
  (forall x, In x l -> f x = g x) -> List.find f l = List.find g l.
Proof.
  induction l as [|x l IH]; intros H; simpl; [reflexivity|].
  rewrite (H x (or_introl eq_refl)).
  destruct (g x); [reflexivity|]. apply IH. intros y I. apply H. right. exact I.
Qed.

(** Two candidates of a line with the same start are the same one. *)
Lemma same_start_same_candidate (languageId text : string)
    (a b : RegExpExecArray) :
  In a (scan (getRegexRegex languageId) text) ->
  In b (scan (getRegexRegex languageId) text) ->
  spanStart a = spanStart b -> a = b.
Proof.
  intros Ia Ib E.
  pose proof (LayoutFacts.scan_layout languageId text) as F.
  pose proof (LayoutFacts.chained_separated text _ 0
                (ScannerFacts.scan_chained languageId text) F) as S.
  rewrite List.Forall_forall in F.
  pose proof (LayoutFacts.layout_span a (F a Ia)) as (_ & _ & A & _).
  pose proof (LayoutFacts.layout_span b (F b Ib)) as (_ & _ & B & _).
  destruct (ForallOrdPairs_In S a b Ia Ib) as [Q|[L|L]]; [exact Q|lia|lia].
Qed.

End PositionFacts.

(** C5 (as amended). Outside the quoted-string dialect the tracker takes
    the first candidate of the line, in source order, whose literal as
    written holds the caret, ends included: from the opening delimiter
    (from the sigil, in the prefix-sigil dialect) to the end of the
    flags, the opening boundary character not included.  It returns
    that candidate's literal when the engine takes its pattern and
    flags, and nothing when the engine rejects them or when no candidate
    holds the caret.  On the line of scenario B the carets at columns
    10, 14 and 16 give the literal, once its pattern parses, and the
    carets at columns 5 and 9 give nothing. *)
Theorem tracker_returns_first_straddling_candidate
    (parsePattern : string -> Flags -> option re) (editor : TextEditor) :
  String.eqb (languageId (document editor)) "php" = false ->
  findRegexAtCaret parsePattern editor =
  match List.find (holdsCaret (languageId (document editor))
                              (character (anchor editor)))
          (scan (getRegexRegex (languageId (document editor)))
                (substring 0 1000
                   (lineAt (document editor) (line (anchor editor))))) with
  | Some m =>
      createRegexMatch parsePattern (document editor) (line (anchor editor)) m
  | None => None
  end /\
  (parsePattern "ab*" (set_global noFlags) = Some Scenario.abStar ->
   findRegexAtCaret parsePattern (Scenario.caretAt Scenario.tsDocument 0 10) =
   Some (mkRegexMatch Scenario.tsDocument Scenario.abStarG (Range4 0 10 0 16)) /\
   findRegexAtCaret parsePattern (Scenario.caretAt Scenario.tsDocument 0 14) =
   Some (mkRegexMatch Scenario.tsDocument Scenario.abStarG (Range4 0 10 0 16)) /\
   findRegexAtCaret parsePattern (Scenario.caretAt Scenario.tsDocument 0 16) =
   Some (mkRegexMatch Scenario.tsDocument Scenario.abStarG (Range4 0 10 0 16))) /\
  findRegexAtCaret parsePattern (Scenario.caretAt Scenario.tsDocument 0 5) = None /\
  findRegexAtCaret parsePattern (Scenario.caretAt Scenario.tsDocument 0 9) = None.
Proof.
  intros P. split; [|split; [|split]].
  - rewrite TrackerFacts.findRegexAtCaret_scan.
    rewrite (PositionFacts.find_agree
               (straddles (character (anchor editor)))
               (holdsCaret (languageId (document editor))
                           (character (anchor editor)))); [reflexivity|].
    intros m I.
    pose proof (PositionFacts.written_span _
                  (substring 0 1000
                     (lineAt (document editor) (line (anchor editor)))) P) as F.
    rewrite List.Forall_forall in F. destruct (F m I) as (S & E).
    unfold straddles, holdsCaret. rewrite S, E. reflexivity.
  - intros H. vm_compute in H. repeat split; vm_compute; rewrite H; reflexivity.
  - vm_compute. reflexivity.
  - vm_compute. reflexivity.
Qed.

(** The literal of scenario B under the example grammar, with the caret
    inside it. *)
Lemma tracker_witness :
  findRegexAtCaret basicParser Scenario.tsView =
  match List.find (holdsCaret (languageId (document Scenario.tsView))
                              (character (anchor Scenario.tsView)))
          (scan (getRegexRegex (languageId (document Scenario.tsView)))
                (substring 0 1000
                   (lineAt (document Scenario.tsView)
                           (line (anchor Scenario.tsView))))) with
  | Some m =>
      createRegexMatch basicParser (document Scenario.tsView)
                       (line (anchor Scenario.tsView)) m
  | None => None
  end /\
  (basicParser "ab*" (set_global noFlags) = Some Scenario.abStar ->
   findRegexAtCaret basicParser (Scenario.caretAt Scenario.tsDocument 0 10) =
   Some (mkRegexMatch Scenario.tsDocument Scenario.abStarG (Range4 0 10 0 16)) /\
   findRegexAtCaret basicParser (Scenario.caretAt Scenario.tsDocument 0 14) =
   Some (mkRegexMatch Scenario.tsDocument Scenario.abStarG (Range4 0 10 0 16)) /\
   findRegexAtCaret basicParser (Scenario.caretAt Scenario.tsDocument 0 16) =
   Some (mkRegexMatch Scenario.tsDocument Scenario.abStarG (Range4 0 10 0 16))) /\
  findRegexAtCaret basicParser (Scenario.caretAt Scenario.tsDocument 0 5) = None /\
  findRegexAtCaret basicParser (Scenario.caretAt Scenario.tsDocument 0 9) = None.
Proof.
  apply (tracker_returns_first_straddling_candidate basicParser
           Scenario.tsView).
  reflexivity.
Defined.

(** C5, as stated, fails: on the line of scenario B the one candidate
    consumed the space at column 9 as its opening boundary, its
    delimiter-to-flags text runs from column 10 to column 16 and the
    engine takes its pattern and flags; with the caret at column 9, on
    the boundary character, the tracker returns nothing. *)
Lemma caret_on_the_boundary_gives_nothing :
  (exists m : RegExpExecArray,
     scan regexRegex Scenario.sourceLine = [m] /\
     index m = 9 /\ delimiterStart m = 10 /\ flagsEnd m = 16 /\
     createRegexMatch basicParser Scenario.tsDocument 0 m =
     Some (mkRegexMatch Scenario.tsDocument Scenario.abStarG
                        (Range4 0 10 0 16))) /\
  findRegexAtCaret basicParser (Scenario.caretAt Scenario.tsDocument 0 9) =
  None.
Proof.
  split; [|vm_compute; reflexivity].
  eexists. split; [vm_compute; reflexivity|].
  repeat split; vm_compute; reflexivity.
Qed.

(** In the quoted-string dialect the range that the tracker tests is the
    reported span, one character to the left of the literal as written:
    on [$r = '/ab*/g';], where the literal is written from column 6 to
    column 12, the caret on the quote at column 5 gives the literal and
    the caret at column 12 gives nothing. *)
Lemma quoted_tracker_range_is_shifted :
  Forall (fun m => delimiterStart m = 6 /\ flagsEnd m = 12 /\
                   spanStart m = 5 /\ spanEnd m = 11)
         (scan phpRegexRegex (getText Scenario.phpDocument)) /\
  option_map rm_range
    (findRegexAtCaret basicParser (Scenario.caretAt Scenario.phpDocument 0 5)) =
  Some (Range4 0 5 0 11) /\
  findRegexAtCaret basicParser (Scenario.caretAt Scenario.phpDocument 0 12) =
  None.
Proof.
  split; [|split]; vm_compute; [|reflexivity|reflexivity].
  repeat constructor.
Qed.

(** ** What the enumeration and the tracker return *)

Module DiscardFacts.

Section WithParser.

Variable parsePattern : string -> Flags -> option re.

Lemma createRegexMatch_iff (document : TextDocument) (i : nat)
    (m : RegExpExecArray) (regexMatch : RegexMatch) :
  createRegexMatch parsePattern document i m = Some regexMatch <->
  createRegex parsePattern (group m 3) (group m 4) =
  Some (rm_regex regexMatch) /\
  rm_document regexMatch = document /\
  rm_range regexMatch = Range4 i (spanStart m) i (spanEnd m).
Proof.
  split; [apply CompilerFacts.createRegexMatch_Some|].
  intros (C & D & R). unfold createRegexMatch. rewrite C.
  destruct regexMatch as [d r g]. simpl in *. subst. reflexivity.
Qed.

(** The enumeration lists the literals of the accepted candidates of the
    lines of the document, and nothing else. *)
Lemma findRegexes_iff (document : TextDocument) (regexMatch : RegexMatch) :
  In regexMatch (findRegexes parsePattern document) <->
  exists (i : nat) (m : RegExpExecArray),
    i < lineCount document /\
    In m (scan (getRegexRegex (languageId document))
               (substring 0 1000 (lineAt document i))) /\
    createRegexMatch parsePattern document i m = Some regexMatch.
Proof.
  unfold findRegexes. rewrite in_concat. split.
  - intros (l & Hl & H). apply in_map_iff in Hl.
    destruct Hl as (i & <- & Hi). apply in_seq in Hi.
    unfold findRegexesLine in H.
    apply list_elem_of_In, list_elem_of_omap in H.
    destruct H as (m & Hm & C). apply list_elem_of_In in Hm.
    exists i, m. repeat split; [lia | exact Hm | exact C].
  - intros (i & m & Hi & Hm & C).
    exists (findRegexesLine parsePattern document i). split.
    + apply in_map. apply in_seq. lia.
    + unfold findRegexesLine. apply list_elem_of_In, list_elem_of_omap.
      exists m. split; [apply list_elem_of_In; exact Hm | exact C].
Qed.

End WithParser.

End DiscardFacts.

(** C8. A candidate whose pattern and flags the engine rejects is
    discarded.  [createRegexMatch] returns nothing for it.  The
    enumeration lists exactly the literals of the accepted candidates of
    the lines of the document, each with the pattern object, the
    document and the span of its own candidate, and no literal of the
    enumeration sits on the span of a rejected candidate.  The tracker
    returns the literal of the first candidate that holds the caret when
    the engine accepts it, with the object, the document and the span of
    that candidate, and nothing when the engine rejects that candidate.
    A recomputation that starts from an accepted active literal, with an
    accepted explicit literal if one is given, ends with an accepted one
    or none.  Rejection has no other effect: [createRegex] returns
    nothing and touches no state.  A flag given twice is a rejection
    under every pattern grammar. *)
Theorem rejected_candidates_are_discarded
    (parsePattern : string -> Flags -> option re) :
  (forall (document : TextDocument) (i : nat) (m : RegExpExecArray),
     createRegex parsePattern (group m 3) (group m 4) = None ->
     createRegexMatch parsePattern document i m = None) /\
  (forall (document : TextDocument) (regexMatch : RegexMatch),
     In regexMatch (findRegexes parsePattern document) <->
     exists (i : nat) (m : RegExpExecArray),
       i < lineCount document /\
       In m (scan (getRegexRegex (languageId document))
                  (substring 0 1000 (lineAt document i))) /\
       createRegex parsePattern (group m 3) (group m 4) =
       Some (rm_regex regexMatch) /\
       rm_document regexMatch = document /\
       rm_range regexMatch = Range4 i (spanStart m) i (spanEnd m)) /\
  (forall (document : TextDocument) (i : nat) (m : RegExpExecArray),
     In m (scan (getRegexRegex (languageId document))
                (substring 0 1000 (lineAt document i))) ->
     createRegex parsePattern (group m 3) (group m 4) = None ->
     forall regexMatch : RegexMatch,
       In regexMatch (findRegexes parsePattern document) ->
       rm_range regexMatch <> Range4 i (spanStart m) i (spanEnd m)) /\
  (forall (e : TextEditor) (regexMatch : RegexMatch),
     findRegexAtCaret parsePattern e = Some regexMatch ->
     exists m : RegExpExecArray,
       List.find (straddles (character (anchor e)))
         (scan (getRegexRegex (languageId (document e)))
               (substring 0 1000 (lineAt (document e) (line (anchor e))))) =
       Some m /\
       createRegex parsePattern (group m 3) (group m 4) =
       Some (rm_regex regexMatch) /\
       rm_document regexMatch = document e /\
       rm_range regexMatch =
       Range4 (line (anchor e)) (spanStart m) (line (anchor e)) (spanEnd m)) /\
  (forall (e : TextEditor) (m : RegExpExecArray),
     List.find (straddles (character (anchor e)))
       (scan (getRegexRegex (languageId (document e)))
             (substring 0 1000 (lineAt (document e) (line (anchor e))))) =
     Some m ->
     createRegex parsePattern (group m 3) (group m 4) = None ->
     findRegexAtCaret parsePattern e = None) /\
  (forall (m : option RegexMatch) (w : World),
     (forall regexMatch, m = Some regexMatch ->
                         accepted parsePattern regexMatch) ->
     (forall regexMatch, activeRegex w = Some regexMatch ->
                         accepted parsePattern regexMatch) ->
     forall regexMatch,
       activeRegex (updateDecorators parsePattern m w) = Some regexMatch ->
       accepted parsePattern regexMatch) /\
  (findRegexes parsePattern Scenario.twiceG = [] /\
   findRegexAtCaret parsePattern (Scenario.caretAt Scenario.twiceG 0 6) = None).
Proof.
  split; [|split; [|split; [|split; [|split; [|split]]]]].
  - intros document i m H. unfold createRegexMatch. rewrite H. reflexivity.
  - intros document regexMatch.
    rewrite DiscardFacts.findRegexes_iff. split.
    + intros (i & m & Hi & Hm & C).
      apply DiscardFacts.createRegexMatch_iff in C. exists i, m. tauto.
    + intros (i & m & Hi & Hm & C).
      apply DiscardFacts.createRegexMatch_iff in C. exists i, m. tauto.
  - intros document i m Hm Rej regexMatch H R.
    apply DiscardFacts.findRegexes_iff in H.
    destruct H as (i' & m' & _ & Hm' & C).
    apply CompilerFacts.createRegexMatch_Some in C.
    destruct C as (C & _ & R'). rewrite R in R'.
    unfold Range4 in R'. inversion R'; subst i'.
    assert (Q : m = m').
    { eapply PositionFacts.same_start_same_candidate; eauto. }
    subst m'. congruence.
  - intros e regexMatch H.
    rewrite TrackerFacts.findRegexAtCaret_scan in H.
    destruct (List.find _ _) as [m|]; [|discriminate].
    apply CompilerFacts.createRegexMatch_Some in H. exists m. tauto.
  - intros e m F Rej. rewrite TrackerFacts.findRegexAtCaret_scan, F.
    unfold createRegexMatch. rewrite Rej. reflexivity.
  - intros m w Hm Hw regexMatch. unfold updateDecorators.
    destruct (isEditorEnabled w); simpl; [|apply Hw].
    destruct (editorURI w) as [u|]; simpl; [|apply Hw].
    set (a0 := match m with Some _ => _ | None => _ end).
    intros Act.
    pose proof (SynchronizerFacts.fold_sameActive u (addGMEnabled w)
                  (getVisibleTextEditors w)
                  (mkSync (decorators w) (decorators w) a0 (decorations w)))
      as Same.
    rewrite Act in Same. simpl in Same.
    destruct a0 as [first|] eqn:A0; [|destruct Same].
    apply (CompilerFacts.accepted_sameLiteral parsePattern first _ Same).
    subst a0. destruct m as [explicit|].
    + inversion A0; subst. apply Hm. reflexivity.
    + destruct (activeTextEditor w) as [ae|]; [|apply Hw; exact A0].
      destruct (isLanguageSupported (document ae)); [|apply Hw; exact A0].
      apply CompilerFacts.findRegexAtCaret_from_scan in A0.
      destruct A0 as (m & _ & C).
      exact (CompilerFacts.createRegexMatch_accepted _ _ _ _ _ C).
  - split; vm_compute; reflexivity.
Qed.

(** The candidate of [x = /a/gg;] gives no literal. *)
Lemma rejected_candidate_witness :
  scan regexRegex (getText Scenario.twiceG) = [Scenario.twiceGCandidate] /\
  createRegexMatch basicParser Scenario.twiceG 0 Scenario.twiceGCandidate = None.
Proof.
  split; [vm_compute; reflexivity|].
  apply (proj1 (rejected_candidates_are_discarded basicParser)).
  reflexivity.
Defined.

(** ** What a recomputation renders *)

Module RenderingFacts.

Import EngineFacts EvaluatorFacts SynchronizerFacts RecomputationFacts.

(** An evaluation that leaves the object as it is. *)
Lemma findMatches_untouched (r : RegexMatch) (d : TextDocument)
    (addGMEnabled : bool) :
  untouched addGMEnabled (rm_regex r) = true ->
  (findMatches r d addGMEnabled).2 = r.
Proof.
  intros H. destruct r as [dr [src f l] rg]. unfold untouched in H.
  simpl in H. unfold findMatches. simpl.
  destruct (addGM (mkRegExp src f l) addGMEnabled) as [|R] eqn:A;
    [|reflexivity].
  unfold addGM in A. simpl in A.
  destruct (negb addGMEnabled || (global f && multiline f)) eqn:Same;
    [|discriminate].
  assert (G : global f = true /\ l = 0).
  { destruct addGMEnabled, (global f), (multiline f), (l =? 0) eqn:Z;
      simpl in *; try discriminate; apply Nat.eqb_eq in Z; auto. }
  destruct G as (G & ->).
  pose proof (SpanFacts.matchLoop_global_cursor d _ _
                (mkRegExp src f 0) [] _ G
                (SpanFacts.runMatchLoop_spec (mkRegExp src f 0) d)) as C.
  destruct (runMatchLoop _ _) as [ms R']. simpl in *. rewrite C. reflexivity.
Qed.

(** Without [g] and [y] the cursor is not read: the matches are those of
    one [exec] from the start of the text. *)
Lemma runMatchLoop_still (R : RegExp) (d : TextDocument) :
  moving R = false ->
  (runMatchLoop R d).1 =
  match search (flags R) (getText d) (source R)
               (1 + String.length (getText d)) 0 with
  | Some (i, z) =>
      [mkMatch (mkRange (positionAt d i)
                        (positionAt d
                           (i + String.length
                                  (substring i (endIndex z - i) (getText d)))))]
  | None => []
  end.
Proof.
  intros M. unfold runMatchLoop.
  change (2 + String.length (getText d))
    with (S (S (String.length (getText d)))).
  assert (G : global (flags R) = false).
  { unfold moving in M. apply orb_false_iff in M. tauto. }
  cbn [matchLoop]. rewrite G. cbn [List.length Nat.eqb orb].
  unfold exec. rewrite M. rewrite Nat.sub_0_r.
  destruct (search _ _ _ _ _) as [[i z]|]; [|reflexivity].
  unfold skipEmpty.
  destruct (lastIndex R =? _); cbn [flags set_lastIndex]; rewrite G;
    reflexivity.
Qed.

(** Two settled objects with the same pattern and flags give the same
    matches. *)
Lemma findMatches_settled (a b : RegexMatch) (d : TextDocument)
    (addGMEnabled : bool) :
  source (rm_regex a) = source (rm_regex b) ->
  flags (rm_regex a) = flags (rm_regex b) ->
  settled addGMEnabled (rm_regex a) = true ->
  settled addGMEnabled (rm_regex b) = true ->
  (findMatches a d addGMEnabled).1 = (findMatches b d addGMEnabled).1.
Proof.
  destruct a as [da [sa fa la] ra], b as [db [sb fb lb] rb]. simpl.
  intros <- <- A B. unfold settled, untouched, moving in A, B. simpl in A, B.
  unfold findMatches, addGM. simpl.
  destruct (negb addGMEnabled || (global fa && multiline fa)) eqn:Same;
    [|reflexivity].
  destruct (global fa || sticky fa) eqn:M.
  - assert (la = 0 /\ lb = 0) as (-> & ->).
    { destruct addGMEnabled, (global fa), (multiline fa),
        (la =? 0) eqn:Za, (lb =? 0) eqn:Zb;
        simpl in *; try discriminate;
        apply Nat.eqb_eq in Za, Zb; auto. }
    destruct (runMatchLoop _ _). reflexivity.
  - pose proof (runMatchLoop_still (mkRegExp sa fa la) d M) as Ea.
    pose proof (runMatchLoop_still (mkRegExp sa fa lb) d M) as Eb.
    simpl in Ea, Eb.
    destruct (runMatchLoop (mkRegExp sa fa la) d) as [ma Ra].
    destruct (runMatchLoop (mkRegExp sa fa lb) d) as [mb Rb].
    simpl in *. congruence.
Qed.

(** An evaluation keeps a settled object settled. *)
Lemma findMatches_keeps_settled (r : RegexMatch) (d : TextDocument)
    (addGMEnabled : bool) :
  settled addGMEnabled (rm_regex r) = true ->
  settled addGMEnabled (rm_regex (findMatches r d addGMEnabled).2) = true.
Proof.
  intros H. unfold settled in *. apply orb_true_iff in H.
  destruct H as [U|M].
  - rewrite (findMatches_untouched r d addGMEnabled U), U. reflexivity.
  - destruct (findMatches_sameLiteral r d addGMEnabled) as (_ & _ & _ & F).
    unfold moving in *. rewrite <- F, M. apply orb_true_r.
Qed.

Section Carried.

Variables (u : Uri) (addGMEnabled : bool).

Lemma carried_nothing (es : list TextEditor) :
  carried u addGMEnabled None es = None.
Proof. induction es as [|e es IH]; [reflexivity | exact IH]. Qed.

Lemma carried_app (a : option RegexMatch) (pre post : list TextEditor) :
  carried u addGMEnabled a (pre ++ post) =
  carried u addGMEnabled (carried u addGMEnabled a pre) post.
Proof. unfold carried. apply fold_left_app. Qed.

(** The active literal after a visit, the evaluation written out. *)
Lemma visit_carried (st : Sync) (e : TextEditor) :
  s_activeRegex (visit u addGMEnabled st e) =
  carried u addGMEnabled (s_activeRegex st) [e].
Proof.
  rewrite visit_active. unfold carried, evaluates, update. simpl.
  destruct (s_activeRegex st) as [r|];
    [|destruct (relevant u e); reflexivity].
  destruct (relevant u e); [|reflexivity]. simpl.
  destruct (_ || _); [|reflexivity].
  destruct (findMatches _ _ _). reflexivity.
Qed.

Lemma fold_carried (es : list TextEditor) :
  forall st,
    s_activeRegex (fold_left (visit u addGMEnabled) es st) =
    carried u addGMEnabled (s_activeRegex st) es.
Proof.
  induction es as [|e es IH]; intros st; [reflexivity|].
  simpl fold_left. rewrite IH, visit_carried.
  change (e :: es) with ([e] ++ es). rewrite carried_app. reflexivity.
Qed.

Lemma carried_sameActive (es : list TextEditor) :
  forall a, sameActive a (carried u addGMEnabled a es).
Proof.
  induction es as [|e es IH]; intros a; [apply sameActive_refl|].
  change (e :: es) with ([e] ++ es). rewrite carried_app.
  eapply sameActive_trans; [|apply IH].
  destruct a as [r|]; [|exact I]. unfold carried. simpl.
  destruct (evaluates u r e); [|apply sameLiteral_refl].
  destruct (findMatches_sameLiteral r (document e) addGMEnabled)
    as (D & R & S & F).
  repeat split; congruence.
Qed.

(** Views that leave the object as it is hand the literal on as it
    was. *)
Lemma carried_untouched (es : list TextEditor) (r : RegexMatch) :
  untouched addGMEnabled (rm_regex r) = true ->
  carried u addGMEnabled (Some r) es = Some r.
Proof.
  intros H. induction es as [|e es IH]; [reflexivity|].
  change (e :: es) with ([e] ++ es). rewrite carried_app.
  replace (carried u addGMEnabled (Some r) [e]) with (Some r); [exact IH|].
  unfold carried. simpl. destruct (evaluates u r e); [|reflexivity].
  rewrite (findMatches_untouched r (document e) addGMEnabled H). reflexivity.
Qed.

Lemma carried_settled (es : list TextEditor) :
  forall r r',
    settled addGMEnabled (rm_regex r) = true ->
    carried u addGMEnabled (Some r) es = Some r' ->
    settled addGMEnabled (rm_regex r') = true.
Proof.
  induction es as [|e es IH]; intros r r' H C.
  - inversion C; subst. exact H.
  - change (e :: es) with ([e] ++ es) in C. rewrite carried_app in C.
    unfold carried at 2 in C. simpl in C.
    destruct (evaluates u r e); [|exact (IH _ _ H C)].
    apply (IH _ _ (findMatches_keeps_settled r (document e) addGMEnabled H) C).
Qed.

End Carried.

(** What a recomputation that runs leaves on a visible view and as the
    active literal, the update of the view written out. *)
Lemma view_rendering (parsePattern : string -> Flags -> option re)
    (m : option RegexMatch) (w : World) (u : Uri) (e : TextEditor)
    (pre post : list TextEditor) :
  List.NoDup (map editorId (getVisibleTextEditors w)) ->
  isEditorEnabled w = true ->
  editorURI w = Some u ->
  getVisibleTextEditors w = pre ++ e :: post ->
  activeRegex (updateDecorators parsePattern m w) =
  carried u (addGMEnabled w) (selected parsePattern m w)
          (getVisibleTextEditors w) /\
  shownOn (decorations (updateDecorators parsePattern m w)) (editorId e) =
  match carried u (addGMEnabled w) (selected parsePattern m w) pre with
  | None =>
      if relevant u e then noLayers
      else shownOn (decorations w) (editorId e)
  | Some current =>
      if String.eqb (fsPath (uri (document e))) (fsPath u) then
        mkLayers
          (regexLayer (shownOn (decorations w) (editorId e)))
          (map m_range (findMatches current (document e) (addGMEnabled w)).1)
      else if isLanguageSupported (document e) &&
              String.eqb (fsPath (uri (rm_document current)))
                         (fsPath (uri (document e))) then
        mkLayers
          (map m_range (findMatches current (document e) (addGMEnabled w)).1)
          (matchLayer (shownOn (decorations w) (editorId e)))
      else shownOn (decorations w) (editorId e)
  end.
Proof.
  intros ND En U Split.
  destruct (updateDecorators_runs parsePattern m w u En U) as (a0 & A0 & ->).
  change (a0 = selected parsePattern m w) in A0. subst a0. cbv zeta.
  cbn [activeRegex decorations]. split; [apply fold_carried|].
  rewrite disposeAll_shown, fold_remove_all.
  assert (V : existsb (Nat.eqb (editorId e))
                (map editorId (getVisibleTextEditors w)) = true).
  { apply visible_id. rewrite Split, map_app. apply in_or_app. right.
    left. reflexivity. }
  rewrite V. unfold shownOn at 1.
  rewrite Split in ND |- *.
  rewrite (IdempotenceFacts.fold_decorations_at u (addGMEnabled w) pre post e
             _ ND).
  rewrite fold_carried. cbn [s_activeRegex s_decorations].
  unfold relevant, update.
  destruct (carried u (addGMEnabled w) (selected parsePattern m w) pre)
    as [current|].
  - destruct (String.eqb (fsPath (uri (document e))) (fsPath u)); simpl.
    + rewrite orb_true_r. simpl.
      destruct (findMatches _ _ _). reflexivity.
    + rewrite orb_false_r.
      destruct (isLanguageSupported (document e)); simpl; [|reflexivity].
      destruct (String.eqb _ _); [|reflexivity].
      destruct (findMatches _ _ _). reflexivity.
  - destruct (_ || _); reflexivity.
Qed.

(** The active literal after a recomputation that runs. *)
Lemma active_carried (parsePattern : string -> Flags -> option re)
    (m : option RegexMatch) (w : World) (u : Uri) :
  isEditorEnabled w = true ->
  editorURI w = Some u ->
  activeRegex (updateDecorators parsePattern m w) =
  carried u (addGMEnabled w) (selected parsePattern m w)
          (getVisibleTextEditors w).
Proof.
  intros En U.
  destruct (updateDecorators_runs parsePattern m w u En U) as (a0 & A0 & ->).
  change (a0 = selected parsePattern m w) in A0. subst a0.
  apply fold_carried.
Qed.

(** A visible view after a recomputation that leaves an active literal:
    the literal that its visit evaluated, and what the view shows. *)
Lemma evaluated_view (parsePattern : string -> Flags -> option re)
    (m : option RegexMatch) (w : World) (u : Uri) (e : TextEditor)
    (regexMatch : RegexMatch) :
  List.NoDup (map editorId (getVisibleTextEditors w)) ->
  isEditorEnabled w = true ->
  editorURI w = Some u ->
  In e (getVisibleTextEditors w) ->
  activeRegex (updateDecorators parsePattern m w) = Some regexMatch ->
  exists (pre post : list TextEditor) (current : RegexMatch),
    getVisibleTextEditors w = pre ++ e :: post /\
    carried u (addGMEnabled w) (selected parsePattern m w) pre =
    Some current /\
    sameLiteral current regexMatch /\
    shownOn (decorations (updateDecorators parsePattern m w)) (editorId e) =
    (if String.eqb (fsPath (uri (document e))) (fsPath u) then
       mkLayers
         (regexLayer (shownOn (decorations w) (editorId e)))
         (map m_range (findMatches current (document e) (addGMEnabled w)).1)
     else if isLanguageSupported (document e) &&
             String.eqb (fsPath (uri (rm_document current)))
                        (fsPath (uri (document e))) then
       mkLayers
         (map m_range (findMatches current (document e) (addGMEnabled w)).1)
         (matchLayer (shownOn (decorations w) (editorId e)))
     else shownOn (decorations w) (editorId e)) /\
    ((forall first, selected parsePattern m w = Some first ->
        settled (addGMEnabled w) (rm_regex first) = true) ->
     forall d : TextDocument,
       (findMatches current d (addGMEnabled w)).1 =
       (findMatches regexMatch d (addGMEnabled w)).1).
Proof.
  intros ND En U I Act.
  apply in_split in I. destruct I as (pre & post & Split).
  destruct (view_rendering parsePattern m w u e pre post ND En U Split)
    as (A & Shown).
  rewrite Act, Split, carried_app in A.
  destruct (carried u (addGMEnabled w) (selected parsePattern m w) pre)
    as [current|] eqn:C; [|rewrite carried_nothing in A; discriminate].
  pose proof (carried_sameActive u (addGMEnabled w) (e :: post)
                (Some current)) as Same.
  rewrite <- A in Same. simpl in Same.
  exists pre, post, current.
  split; [exact Split|]. split; [exact C|]. split; [exact Same|].
  split; [exact Shown|].
  intros St d.
  destruct (selected parsePattern m w) as [first|] eqn:Sel;
    [|rewrite carried_nothing in C; discriminate].
  specialize (St first eq_refl).
  destruct Same as (_ & _ & S & F).
  apply findMatches_settled; [exact S | exact F | |].
  - exact (carried_settled u (addGMEnabled w) pre first current St C).
  - apply (carried_settled u (addGMEnabled w) (pre ++ e :: post) first
             regexMatch St).
    rewrite carried_app, C. symmetry. exact A.
Qed.

End RenderingFacts.

(** C1 (as amended). After a recomputation that leaves an active literal,
    a visible view of a supported language on the literal's document,
    which is not the preview document, has as its origin layer the spans
    that [findMatches] gives for the literal in the text of that view
    under the augmentation policy, run on the literal's object as the
    visits of the views before it, in the visible order, left it; its
    match layer is as it was.  When the literal that the recomputation
    started from is settled (a new object is derived for every
    evaluation, or the pattern has neither [g] nor [y], or it is global
    with its cursor at 0), these are the spans that the active literal,
    as the recomputation leaves it, matches in that text. *)
Theorem source_view_shows_matches_of_own_text
    (parsePattern : string -> Flags -> option re) (m : option RegexMatch)
    (w : World) (e : TextEditor) (regexMatch : RegexMatch) :
  List.NoDup (map editorId (getVisibleTextEditors w)) ->
  isEditorEnabled w = true ->
  In e (getVisibleTextEditors w) ->
  isLanguageSupported (document e) = true ->
  activeRegex (updateDecorators parsePattern m w) = Some regexMatch ->
  fsPath (uri (rm_document regexMatch)) = fsPath (uri (document e)) ->
  (forall u, editorURI w = Some u ->
             String.eqb (fsPath (uri (document e))) (fsPath u) = false) ->
  exists (u : Uri) (pre post : list TextEditor) (current : RegexMatch),
    editorURI w = Some u /\
    getVisibleTextEditors w = pre ++ e :: post /\
    carried u (addGMEnabled w) (selected parsePattern m w) pre =
    Some current /\
    sameLiteral current regexMatch /\
    shownOn (decorations (updateDecorators parsePattern m w)) (editorId e) =
    mkLayers
      (map m_range (findMatches current (document e) (addGMEnabled w)).1)
      (matchLayer (shownOn (decorations w) (editorId e))) /\
    ((forall first, selected parsePattern m w = Some first ->
        settled (addGMEnabled w) (rm_regex first) = true) ->
     shownOn (decorations (updateDecorators parsePattern m w)) (editorId e) =
     mkLayers
       (map m_range (findMatches regexMatch (document e) (addGMEnabled w)).1)
       (matchLayer (shownOn (decorations w) (editorId e)))).
Proof.
  intros ND En I Sup Act Doc NotPreview.
  destruct (editorURI w) as [u|] eqn:U;
    [|unfold isEditorEnabled in En; rewrite U in En; discriminate].
  destruct (RenderingFacts.evaluated_view parsePattern m w u e regexMatch
              ND En U I Act)
    as (pre & post & current & Split & C & Same & Shown & St).
  rewrite (NotPreview u eq_refl), Sup in Shown.
  destruct Same as (D & R & S & F).
  rewrite D, Doc, String.eqb_refl in Shown. simpl in Shown.
  exists u, pre, post, current.
  split; [reflexivity|]. split; [exact Split|]. split; [exact C|].
  split; [repeat split; assumption|]. split; [exact Shown|].
  intros H. rewrite Shown, (St H). reflexivity.
Qed.

(** The line of scenario A at column 14: the origin layer of its view
    holds the span of [ab] inside the literal, columns 11 to 13. *)
Lemma source_view_shows_matches_witness :
  exists (u : Uri) (pre post : list TextEditor) (current : RegexMatch),
    editorURI Scenario.tsOpened = Some u /\
    getVisibleTextEditors Scenario.tsOpened = pre ++ Scenario.tsView :: post /\
    carried u (addGMEnabled Scenario.tsOpened)
            (selected basicParser None Scenario.tsOpened) pre = Some current /\
    sameLiteral current
      (mkRegexMatch Scenario.tsDocument Scenario.abStarG (Range4 0 10 0 16)) /\
    shownOn (decorations (updateDecorators basicParser None Scenario.tsOpened))
            (editorId Scenario.tsView) =
    mkLayers
      (map m_range
           (findMatches current (document Scenario.tsView)
                        (addGMEnabled Scenario.tsOpened)).1)
      (matchLayer (shownOn (decorations Scenario.tsOpened)
                           (editorId Scenario.tsView))) /\
    ((forall first,
        selected basicParser None Scenario.tsOpened = Some first ->
        settled (addGMEnabled Scenario.tsOpened) (rm_regex first) = true) ->
     shownOn (decorations (updateDecorators basicParser None Scenario.tsOpened))
             (editorId Scenario.tsView) =
     mkLayers
       (map m_range
            (findMatches
               (mkRegexMatch Scenario.tsDocument Scenario.abStarG
                             (Range4 0 10 0 16))
               (document Scenario.tsView)
               (addGMEnabled Scenario.tsOpened)).1)
       (matchLayer (shownOn (decorations Scenario.tsOpened)
                            (editorId Scenario.tsView)))).
Proof.
  apply (source_view_shows_matches_of_own_text basicParser None
           Scenario.tsOpened Scenario.tsView
           (mkRegexMatch Scenario.tsDocument Scenario.abStarG
                         (Range4 0 10 0 16))).
  - repeat constructor; simpl; intuition discriminate.
  - reflexivity.
  - left. reflexivity.
  - reflexivity.
  - vm_compute. reflexivity.
  - reflexivity.
  - intros u E. inversion E. reflexivity.
Defined.




(** X13. After a recomputation that leaves an active literal, the visible
    view of the scratch document has as its match layer the matches that
    [findMatches] gives for the literal in the text of that view under
    the augmentation flag, run on the literal's object as the visits of
    the views before it left it; its origin layer is as it was.  When
    the literal that the recomputation started from is settled, these
    are the matches of the active literal as the recomputation leaves
    it. *)
Theorem preview_shows_the_matches
    (parsePattern : string -> Flags -> option re) (m : option RegexMatch)
    (w : World) (u : Uri) (e : TextEditor) (regexMatch : RegexMatch) :
  List.NoDup (map editorId (getVisibleTextEditors w)) ->
  editorURI w = Some u ->
  In e (getVisibleTextEditors w) ->
  String.eqb (fsPath (uri (document e))) (fsPath u) = true ->
  activeRegex (updateDecorators parsePattern m w) = Some regexMatch ->
  exists (pre post : list TextEditor) (current : RegexMatch),
    getVisibleTextEditors w = pre ++ e :: post /\
    carried u (addGMEnabled w) (selected parsePattern m w) pre =
    Some current /\
    sameLiteral current regexMatch /\
    shownOn (decorations (updateDecorators parsePattern m w)) (editorId e) =
    mkLayers
      (regexLayer (shownOn (decorations w) (editorId e)))
      (map m_range (findMatches current (document e) (addGMEnabled w)).1) /\
    ((forall first, selected parsePattern m w = Some first ->
        settled (addGMEnabled w) (rm_regex first) = true) ->
     shownOn (decorations (updateDecorators parsePattern m w)) (editorId e) =
     mkLayers
       (regexLayer (shownOn (decorations w) (editorId e)))
       (map m_range (findMatches regexMatch (document e) (addGMEnabled w)).1)).
Proof.
  intros ND U I Preview Act.
  assert (En : isEditorEnabled w = true).
  { unfold isEditorEnabled. rewrite U. apply existsb_exists.
    exists e. auto. }
  destruct (RenderingFacts.evaluated_view parsePattern m w u e regexMatch
              ND En U I Act)
    as (pre & post & current & Split & C & Same & Shown & St).
  rewrite Preview in Shown.
  exists pre, post, current.
  split; [exact Split|]. split; [exact C|]. split; [exact Same|].
  split; [exact Shown|].
  intros H. rewrite Shown, (St H). reflexivity.
Qed.

Lemma preview_shows_the_matches_witness :
  exists (pre post : list TextEditor) (current : RegexMatch),
    getVisibleTextEditors Scenario.tsOpened = pre ++ Scenario.viewP :: post /\
    carried (mkUri "/tmp/sample") (addGMEnabled Scenario.tsOpened)
            (selected basicParser None Scenario.tsOpened) pre =
    Some current /\
    sameLiteral current
      (mkRegexMatch Scenario.tsDocument Scenario.abStarG (Range4 0 10 0 16)) /\
    shownOn (decorations (updateDecorators basicParser None Scenario.tsOpened))
            (editorId Scenario.viewP) =
    mkLayers
      (regexLayer (shownOn (decorations Scenario.tsOpened)
                           (editorId Scenario.viewP)))
      (map m_range
           (findMatches current (document Scenario.viewP)
                        (addGMEnabled Scenario.tsOpened)).1) /\
    ((forall first,
        selected basicParser None Scenario.tsOpened = Some first ->
        settled (addGMEnabled Scenario.tsOpened) (rm_regex first) = true) ->
     shownOn (decorations (updateDecorators basicParser None Scenario.tsOpened))
             (editorId Scenario.viewP) =
     mkLayers
       (regexLayer (shownOn (decorations Scenario.tsOpened)
                            (editorId Scenario.viewP)))
       (map m_range
            (findMatches
               (mkRegexMatch Scenario.tsDocument Scenario.abStarG
                             (Range4 0 10 0 16))
               (document Scenario.viewP)
               (addGMEnabled Scenario.tsOpened)).1)).
Proof.
  apply (preview_shows_the_matches basicParser None Scenario.tsOpened
           (mkUri "/tmp/sample") Scenario.viewP
           (mkRegexMatch Scenario.tsDocument Scenario.abStarG
                         (Range4 0 10 0 16))).
  - repeat constructor; simpl; intuition discriminate.
  - reflexivity.
  - right. left. reflexivity.
  - reflexivity.
  - vm_compute. reflexivity.
Defined.

(** X19. The augmentation command flips the flag, leaves the text of the
    status bar item saying what the flag now is, and recomputes without
    a literal: when the recomputation leaves an active literal, the
    visible view of the scratch document has as its match layer the
    matches that [findMatches] gives for the literal under the flipped
    flag, run on the literal's object as the visits of the views before
    it left it, and its origin layer is as it was.  When the literal
    that the recomputation started from is settled under the flipped
    flag, these are the matches of the active literal as the command
    leaves it. *)
Theorem gm_command_flips_and_rerenders
    (parsePattern : string -> Flags -> option re) (s : Session) (u : Uri)
    (e : TextEditor) (regexMatch : RegexMatch) :
  List.NoDup (map editorId (getVisibleTextEditors (world s))) ->
  editorURI (world s) = Some u ->
  In e (getVisibleTextEditors (world s)) ->
  String.eqb (fsPath (uri (document e))) (fsPath u) = true ->
  activeRegex (world (toggleGMCommand parsePattern s)) = Some regexMatch ->
  addGMEnabled (world (toggleGMCommand parsePattern s)) =
  negb (addGMEnabled (world s)) /\
  labelled (toggleGMCommand parsePattern s) /\
  sb_shown (toggleGM (toggleGMCommand parsePattern s)) =
  sb_shown (toggleGM s) /\
  exists (pre post : list TextEditor) (current : RegexMatch),
    getVisibleTextEditors (world s) = pre ++ e :: post /\
    carried u (negb (addGMEnabled (world s)))
            (selected parsePattern None (world s)) pre = Some current /\
    sameLiteral current regexMatch /\
    shownOn (decorations (world (toggleGMCommand parsePattern s)))
            (editorId e) =
    mkLayers
      (regexLayer (shownOn (decorations (world s)) (editorId e)))
      (map m_range
           (findMatches current (document e)
                        (negb (addGMEnabled (world s)))).1) /\
    ((forall first, selected parsePattern None (world s) = Some first ->
        settled (negb (addGMEnabled (world s))) (rm_regex first) = true) ->
     shownOn (decorations (world (toggleGMCommand parsePattern s)))
             (editorId e) =
     mkLayers
       (regexLayer (shownOn (decorations (world s)) (editorId e)))
       (map m_range
            (findMatches regexMatch (document e)
                         (negb (addGMEnabled (world s)))).1)).
Proof.
  intros ND U I Preview Act.
  unfold toggleGMCommand, labelled in *. simpl in *.
  set (w := setAddGMEnabled (negb (addGMEnabled (world s))) (world s)) in *.
  destruct (CommandFacts.updateDecorators_frame parsePattern None w)
    as (G & _).
  rewrite G. simpl. split; [reflexivity|]. split; [reflexivity|].
  split; [reflexivity|].
  assert (En : isEditorEnabled w = true).
  { unfold isEditorEnabled. simpl. rewrite U. apply existsb_exists.
    exists e. auto. }
  destruct (RenderingFacts.evaluated_view parsePattern None w u e regexMatch
              ND En U I Act)
    as (pre & post & current & Split & C & Same & Shown & St).
  rewrite Preview in Shown.
  exists pre, post, current.
  split; [exact Split|]. split; [exact C|]. split; [exact Same|].
  split; [exact Shown|].
  intros H. rewrite Shown. f_equal. f_equal. apply (St H).
Qed.

Lemma gm_command_witness :
  addGMEnabled (world (toggleGMCommand basicParser Scenario.running)) =
  negb (addGMEnabled (world Scenario.running)) /\
  labelled (toggleGMCommand basicParser Scenario.running) /\
  sb_shown (toggleGM (toggleGMCommand basicParser Scenario.running)) =
  sb_shown (toggleGM Scenario.running) /\
  exists (pre post : list TextEditor) (current : RegexMatch),
    getVisibleTextEditors (world Scenario.running) =
    pre ++ Scenario.viewP :: post /\
    carried (mkUri "/tmp/sample")
            (negb (addGMEnabled (world Scenario.running)))
            (selected basicParser None (world Scenario.running)) pre =
    Some current /\
    sameLiteral current
      (mkRegexMatch Scenario.docA (mkRegExp (Chr "a") noFlags 1)
                    (Range4 0 4 0 7)) /\
    shownOn (decorations (world (toggleGMCommand basicParser
                                   Scenario.running)))
            (editorId Scenario.viewP) =
    mkLayers
      (regexLayer (shownOn (decorations (world Scenario.running))
                           (editorId Scenario.viewP)))
      (map m_range
           (findMatches current (document Scenario.viewP)
                        (negb (addGMEnabled (world Scenario.running)))).1) /\
    ((forall first,
        selected basicParser None (world Scenario.running) = Some first ->
        settled (negb (addGMEnabled (world Scenario.running)))
                (rm_regex first) = true) ->
     shownOn (decorations (world (toggleGMCommand basicParser
                                    Scenario.running)))
             (editorId Scenario.viewP) =
     mkLayers
       (regexLayer (shownOn (decorations (world Scenario.running))
                            (editorId Scenario.viewP)))
       (map m_range
            (findMatches
               (mkRegexMatch Scenario.docA (mkRegExp (Chr "a") noFlags 1)
                             (Range4 0 4 0 7))
               (document Scenario.viewP)
               (negb (addGMEnabled (world Scenario.running)))).1)).
Proof.
  apply (gm_command_flips_and_rerenders basicParser Scenario.running
           (mkUri "/tmp/sample") Scenario.viewP).
  - repeat constructor; simpl; intuition discriminate.
  - reflexivity.
  - right. right. left. reflexivity.
  - reflexivity.
  - vm_compute. reflexivity.
Defined.

(** X15. A recomputation made twice in a row changes nothing the second
    time, in two cases.  Without a literal, when the focus is on a view
    of a supported language: both times the literal is read from the
    caret, as a new object.  With a literal whose object the evaluations
    leave as it is (a new object is derived from it, or it is global with
    its cursor at 0), given the second time as the first recomputation
    left it: the object is the same one both times.  The tracking map,
    the layers of every view and the active literal are then the same
    after the second one as after the first. *)
Theorem recomputation_is_idempotent
    (parsePattern : string -> Flags -> option re) (m : option RegexMatch)
    (w : World) :
  List.NoDup (map editorId (getVisibleTextEditors w)) ->
  (m = None ->
   exists activeEditor,
     activeTextEditor w = Some activeEditor /\
     isLanguageSupported (document activeEditor) = true) ->
  (forall regexMatch, m = Some regexMatch ->
     untouched (addGMEnabled w) (rm_regex regexMatch) = true) ->
  updateDecorators parsePattern
    (match m with
     | Some _ => activeRegex (updateDecorators parsePattern m w)
     | None => None
     end)
    (updateDecorators parsePattern m w) =
  updateDecorators parsePattern m w.
Proof.
  intros ND Focus Same. destruct m as [regexMatch|].
  - destruct (isEditorEnabled w) eqn:En.
    + destruct (editorURI w) as [u|] eqn:U;
        [|unfold isEditorEnabled in En; rewrite U in En; discriminate].
      rewrite (RenderingFacts.active_carried parsePattern (Some regexMatch)
                 w u En U).
      simpl selected.
      rewrite (RenderingFacts.carried_untouched u (addGMEnabled w) _
                 regexMatch (Same regexMatch eq_refl)).
      apply same_selection_twice; [exact ND|]. left. discriminate.
    + assert (Q : updateDecorators parsePattern (Some regexMatch) w = w)
        by (unfold updateDecorators; rewrite En; reflexivity).
      rewrite Q. unfold updateDecorators. rewrite En. reflexivity.
  - apply same_selection_twice; [exact ND|]. right. apply Focus. reflexivity.
Qed.

(** The code lens of [docB] clicked twice, the augmentation on. *)
Lemma recomputation_is_idempotent_witness :
  updateDecorators basicParser
    (activeRegex
       (updateDecorators basicParser (Some Scenario.lensB) Scenario.afterA))
    (updateDecorators basicParser (Some Scenario.lensB) Scenario.afterA) =
  updateDecorators basicParser (Some Scenario.lensB) Scenario.afterA.
Proof.
  apply (recomputation_is_idempotent basicParser (Some Scenario.lensB)
           Scenario.afterA).
  - repeat constructor; simpl; intuition discriminate.
  - intros E. discriminate E.
  - intros regexMatch E. inversion E. reflexivity.
Defined.

(** Why the object has to be left as it is: a sticky literal without
    [g], the augmentation off, given to two recomputations in a row.
    The first leaves the view of its document empty and one match on the
    preview, and the cursor at 1; the second, on the same object, puts
    one span on the view of the document and none on the preview. *)
Lemma sticky_literal_is_not_idempotent :
  shownOn (decorations
             (updateDecorators basicParser (Some Scenario.stickyLiteral)
                               Scenario.plain)) 4 =
  mkLayers [] [] /\
  shownOn (decorations
             (updateDecorators basicParser (Some Scenario.stickyLiteral)
                               Scenario.plain)) 3 =
  mkLayers [] [Range4 0 0 0 1] /\
  option_map (fun r => lastIndex (rm_regex r))
    (activeRegex
       (updateDecorators basicParser (Some Scenario.stickyLiteral)
                         Scenario.plain)) = Some 1 /\
  shownOn (decorations
             (updateDecorators basicParser
                (activeRegex
                   (updateDecorators basicParser (Some Scenario.stickyLiteral)
                                     Scenario.plain))
                (updateDecorators basicParser (Some Scenario.stickyLiteral)
                                  Scenario.plain))) 4 =
  mkLayers [Range4 0 1 0 2] [] /\
  shownOn (decorations
             (updateDecorators basicParser
                (activeRegex
                   (updateDecorators basicParser (Some Scenario.stickyLiteral)
                                     Scenario.plain))
                (updateDecorators basicParser (Some Scenario.stickyLiteral)
                                  Scenario.plain))) 3 =
  mkLayers [] [].
Proof. repeat split; vm_compute; reflexivity. Qed.

(** X28. The preview command while the scratch document is not visible
    drops the literal it was given, in both parts of its run.  When the
    command returns, the result is the one of the command without a
    literal: the status bar item is shown, the scratch path is the one
    of before or, without one, the path the host makes up, and until the
    continuation of [openLoremIpsum] runs the tracking map, the layers
    and the active literal are as they were.  When the host has shown
    the document and that continuation has run, the result is again the
    one of the command without a literal: the recomputation of the state
    that the command returned, under the views of the host, without a
    literal; if the scratch document is then visible, the active literal
    is the one that this recomputation selects without regard to the
    literal given, evaluated on the visible views. *)
Theorem toggle_on_drops_the_literal
    (parsePattern : string -> Flags -> option re) (fresh : Uri)
    (m : option RegexMatch) (visible : list TextEditor)
    (active : option TextEditor) (s : Session) :
  isEditorEnabled (world s) = false ->
  (toggleRegexPreview parsePattern fresh m s =
   toggleRegexPreview parsePattern fresh None s /\
   sb_shown (toggleGM (toggleRegexPreview parsePattern fresh m s)) = true /\
   editorURI (world (toggleRegexPreview parsePattern fresh m s)) =
   Some (default fresh (editorURI (world s))) /\
   activeRegex (world (toggleRegexPreview parsePattern fresh m s)) =
   activeRegex (world s) /\
   decorators (world (toggleRegexPreview parsePattern fresh m s)) =
   decorators (world s) /\
   decorations (world (toggleRegexPreview parsePattern fresh m s)) =
   decorations (world s)) /\
  (toggleRegexPreviewShown parsePattern fresh m visible active s =
   toggleRegexPreviewShown parsePattern fresh None visible active s /\
   world (toggleRegexPreviewShown parsePattern fresh m visible active s) =
   updateDecorators parsePattern None
     (hostViews visible active
        (world (toggleRegexPreview parsePattern fresh None s))) /\
   sb_shown
     (toggleGM (toggleRegexPreviewShown parsePattern fresh m visible active s)) =
   true /\
   (isEditorEnabled
      (hostViews visible active
         (world (toggleRegexPreview parsePattern fresh None s))) = true ->
    activeRegex
      (world (toggleRegexPreviewShown parsePattern fresh m visible active s)) =
    carried (default fresh (editorURI (world s))) (addGMEnabled (world s))
            (selected parsePattern None (hostViews visible active (world s)))
            (List.filter
               (fun e => match viewColumn e with
                         | Some _ => true
                         | None => false
                         end)
               visible))).
Proof.
  intros En.
  assert (Sync : toggleRegexPreview parsePattern fresh m s =
                 mkSession (openLoremIpsum fresh (world s))
                           (setShown true (toggleGM s))).
  { unfold toggleRegexPreview. rewrite En. reflexivity. }
  assert (Sync0 : toggleRegexPreview parsePattern fresh None s =
                  mkSession (openLoremIpsum fresh (world s))
                            (setShown true (toggleGM s))).
  { unfold toggleRegexPreview. rewrite En. reflexivity. }
  assert (U : editorURI (openLoremIpsum fresh (world s)) =
              Some (default fresh (editorURI (world s)))).
  { unfold openLoremIpsum.
    destruct (editorURI (world s)) as [u|] eqn:E; simpl; [exact E|].
    reflexivity. }
  assert (Rest : activeRegex (openLoremIpsum fresh (world s)) =
                 activeRegex (world s) /\
                 decorators (openLoremIpsum fresh (world s)) =
                 decorators (world s) /\
                 decorations (openLoremIpsum fresh (world s)) =
                 decorations (world s) /\
                 addGMEnabled (openLoremIpsum fresh (world s)) =
                 addGMEnabled (world s)).
  { unfold openLoremIpsum. destruct (editorURI (world s)); auto. }
  destruct Rest as (R1 & R2 & R3 & R4).
  split.
  - rewrite Sync, Sync0. simpl. auto 10.
  - unfold toggleRegexPreviewShown. rewrite En, Sync, Sync0. simpl.
    split; [reflexivity|]. split; [reflexivity|]. split; [reflexivity|].
    intros En'. unfold openLoremIpsumShown.
    rewrite (RenderingFacts.active_carried parsePattern None _
               (default fresh (editorURI (world s))) En' U).
    unfold selected, hostViews. simpl. rewrite R1, R4. reflexivity.
Qed.

(** The code lens of [docB] clicked while the preview is closed and the
    caret is in the literal of [docA]; the host then shows the preview
    beside the view of [docA] and leaves the focus on that view. *)
Lemma toggle_on_witness :
  (toggleRegexPreview basicParser (mkUri "/tmp/sample")
     (Some Scenario.lensB) Scenario.closed =
   toggleRegexPreview basicParser (mkUri "/tmp/sample") None Scenario.closed /\
   sb_shown
     (toggleGM
        (toggleRegexPreview basicParser (mkUri "/tmp/sample")
           (Some Scenario.lensB) Scenario.closed)) = true /\
   editorURI
     (world
        (toggleRegexPreview basicParser (mkUri "/tmp/sample")
           (Some Scenario.lensB) Scenario.closed)) =
   Some (default (mkUri "/tmp/sample") (editorURI (world Scenario.closed))) /\
   activeRegex
     (world
        (toggleRegexPreview basicParser (mkUri "/tmp/sample")
           (Some Scenario.lensB) Scenario.closed)) =
   activeRegex (world Scenario.closed) /\
   decorators
     (world
        (toggleRegexPreview basicParser (mkUri "/tmp/sample")
           (Some Scenario.lensB) Scenario.closed)) =
   decorators (world Scenario.closed) /\
   decorations
     (world
        (toggleRegexPreview basicParser (mkUri "/tmp/sample")
           (Some Scenario.lensB) Scenario.closed)) =
   decorations (world Scenario.closed)) /\
  (toggleRegexPreviewShown basicParser (mkUri "/tmp/sample")
     (Some Scenario.lensB) [Scenario.viewA; Scenario.viewP]
     (Some Scenario.viewA) Scenario.closed =
   toggleRegexPreviewShown basicParser (mkUri "/tmp/sample") None
     [Scenario.viewA; Scenario.viewP] (Some Scenario.viewA) Scenario.closed /\
   world
     (toggleRegexPreviewShown basicParser (mkUri "/tmp/sample")
        (Some Scenario.lensB) [Scenario.viewA; Scenario.viewP]
        (Some Scenario.viewA) Scenario.closed) =
   updateDecorators basicParser None
     (hostViews [Scenario.viewA; Scenario.viewP] (Some Scenario.viewA)
        (world (toggleRegexPreview basicParser (mkUri "/tmp/sample") None
                  Scenario.closed))) /\
   sb_shown
     (toggleGM
        (toggleRegexPreviewShown basicParser (mkUri "/tmp/sample")
           (Some Scenario.lensB) [Scenario.viewA; Scenario.viewP]
           (Some Scenario.viewA) Scenario.closed)) = true /\
   (isEditorEnabled
      (hostViews [Scenario.viewA; Scenario.viewP] (Some Scenario.viewA)
         (world (toggleRegexPreview basicParser (mkUri "/tmp/sample") None
                   Scenario.closed))) = true ->
    activeRegex
      (world
         (toggleRegexPreviewShown basicParser (mkUri "/tmp/sample")
            (Some Scenario.lensB) [Scenario.viewA; Scenario.viewP]
            (Some Scenario.viewA) Scenario.closed)) =
    carried (default (mkUri "/tmp/sample") (editorURI (world Scenario.closed)))
            (addGMEnabled (world Scenario.closed))
            (selected basicParser None
               (hostViews [Scenario.viewA; Scenario.viewP]
                          (Some Scenario.viewA) (world Scenario.closed)))
            (List.filter
               (fun e => match viewColumn e with
                         | Some _ => true
                         | None => false
                         end)
               [Scenario.viewA; Scenario.viewP]))).
Proof.
  apply (toggle_on_drops_the_literal basicParser (mkUri "/tmp/sample")
           (Some Scenario.lensB) [Scenario.viewA; Scenario.viewP]
           (Some Scenario.viewA) Scenario.closed).
  reflexivity.
Defined.

(** In that run the literal of the lens, the one of [docB], is dropped:
    after the continuation the active literal is the one at the caret of
    the focused view, the literal of [docA]. *)
Lemma lens_literal_is_dropped :
  option_map rm_document
    (activeRegex
       (world
          (toggleRegexPreviewShown basicParser (mkUri "/tmp/sample")
             (Some Scenario.lensB) [Scenario.viewA; Scenario.viewP]
             (Some Scenario.viewA) Scenario.closed))) =
  Some Scenario.docA /\
  shownOn
    (decorations
       (world
          (toggleRegexPreviewShown basicParser (mkUri "/tmp/sample")
             (Some Scenario.lensB) [Scenario.viewA; Scenario.viewP]
             (Some Scenario.viewA) Scenario.closed))) 3 =
  mkLayers [] [Range4 0 0 0 1; Range4 0 4 0 5].
Proof. split; vm_compute; reflexivity. Qed.
